(** * Session engine: input validation, rate limiting, retry/backoff and
      session persistence.

    Shallow embedding of [security_manager.py], [validation_layer.py],
    [error_handler.py] and [conversation_handler.py], and of what the
    handlers of [main.py] store and compute, followed by the properties
    established about them.

    Conventions used throughout:
    - a Python [str] is a [string] with one [ascii] per code point (text
      whose code points are below 256); the messages that the program
      only hands out are kept as the bytes of the source literals;
    - a [datetime] is a [Z] counting microseconds, a [timedelta] likewise;
    - a method that mutates [self] takes the object and returns the new
      object next to its result;
    - every [datetime.now()] is an explicit clock reading. *)

From Stdlib Require Import ZArith QArith Qabs Qminmax Qpower String Ascii Lia.
From stdpp Require Import gmap strings list pretty.

Open Scope Z_scope.

(** ** Python string primitives *)

Module PyStr.

Definition code (c : ascii) : N := N_of_ascii c.

Definition in_range (lo hi : N) (c : ascii) : bool :=
  ((lo <=? code c) && (code c <=? hi))%N.

Definition is_code (n : N) (c : ascii) : bool := (code c =? n)%N.

(** [str.isspace] on one character; also the class [\s] of [re] and the
    characters removed by [str.strip()]. *)
Definition isspace (c : ascii) : bool :=
  in_range 9 13 c || in_range 28 32 c || is_code 133 c || is_code 160 c.

(** Whitespace skipped by [int()] and [float()] around a literal. *)
Definition isspace_num (c : ascii) : bool :=
  in_range 9 13 c || is_code 32 c || is_code 133 c || is_code 160 c.

Definition isdigit (c : ascii) : bool := in_range 48 57 c.

(** The class [\w] of [re] on a [str] pattern. *)
Definition isword (c : ascii) : bool :=
  isdigit c || in_range 65 90 c || is_code 95 c || in_range 97 122 c
  || is_code 170 c || in_range 178 179 c || is_code 181 c
  || in_range 185 186 c || in_range 188 190 c
  || in_range 192 214 c || in_range 216 246 c || in_range 248 255 c.

Definition lower_char (c : ascii) : ascii :=
  if in_range 65 90 c || (in_range 192 222 c && negb (is_code 215 c))
  then ascii_of_N (code c + 32)
  else c.

(** [s.lower()] *)
Fixpoint lower (s : string) : string :=
  match s with
  | EmptyString => EmptyString
  | String c s' => String (lower_char c) (lower s')
  end.

(** [s.replace(c, '')] for a one-character [c] *)
Fixpoint remove_char (c : ascii) (s : string) : string :=
  match s with
  | EmptyString => EmptyString
  | String d s' =>
      if Ascii.eqb d c then remove_char c s' else String d (remove_char c s')
  end.

Fixpoint lstrip_by (sp : ascii -> bool) (s : string) : string :=
  match s with
  | EmptyString => EmptyString
  | String c s' => if sp c then lstrip_by sp s' else s
  end.

Fixpoint rstrip_by (sp : ascii -> bool) (s : string) : string :=
  match s with
  | EmptyString => EmptyString
  | String c s' =>
      match rstrip_by sp s' with
      | EmptyString => if sp c then EmptyString else String c EmptyString
      | r => String c r
      end
  end.

(** [s.strip()] *)
Definition strip (s : string) : string := rstrip_by isspace (lstrip_by isspace s).

Definition strip_num (s : string) : string :=
  rstrip_by isspace_num (lstrip_by isspace_num s).

(** [s[:n]] for [n >= 0] *)
Fixpoint slice_to (n : nat) (s : string) : string :=
  match n, s with
  | O, _ => EmptyString
  | S _, EmptyString => EmptyString
  | S n', String c s' => String c (slice_to n' s')
  end.

(** [s in l] for a list of strings *)
Definition mem (s : string) (l : list string) : bool :=
  existsb (String.eqb s) l.

(** [sep.join(l)] *)
Fixpoint join (sep : string) (l : list string) : string :=
  match l with
  | [] => EmptyString
  | [s] => s
  | s :: l' => s +:+ sep +:+ join sep l'
  end.

Definition quote : ascii := ascii_of_nat 34.

(** [html.escape(s)] with its default [quote=True] *)
Fixpoint html_escape (s : string) : string :=
  match s with
  | EmptyString => EmptyString
  | String c s' =>
      let rest := html_escape s' in
      if Ascii.eqb c "&" then "&amp;" +:+ rest
      else if Ascii.eqb c "<" then "&lt;" +:+ rest
      else if Ascii.eqb c ">" then "&gt;" +:+ rest
      else if Ascii.eqb c quote then "&quot;" +:+ rest
      else if Ascii.eqb c "'" then "&#x27;" +:+ rest
      else String c rest
  end.

(** [re.sub(r'\s+', ' ', s)]: [in_run] records that the previous
    character was whitespace and has already produced its blank. *)
Fixpoint sub_spaces (in_run : bool) (s : string) : string :=
  match s with
  | EmptyString => EmptyString
  | String c s' =>
      if isspace c
      then (if in_run then sub_spaces true s' else String " " (sub_spaces true s'))
      else String c (sub_spaces false s')
  end.

Definition digit_val (c : ascii) : Z := Z.of_N (code c) - 48.

(** A run of decimal digits in which single underscores may separate
    digits; [seen] holds when the previous character was a digit. *)
Fixpoint digits_val (acc : Z) (seen : bool) (s : string) : option Z :=
  match s with
  | EmptyString => if seen then Some acc else None
  | String c s' =>
      if isdigit c then digits_val (acc * 10 + digit_val c) true s'
      else if Ascii.eqb c "_" then (if seen then digits_val acc false s' else None)
      else None
  end.

(** [int(s)]: [None] stands for [ValueError]. *)
Definition py_int (s : string) : option Z :=
  match strip_num s with
  | String "+" r => digits_val 0 false r
  | String "-" r => Z.opp <$> digits_val 0 false r
  | t => digits_val 0 false t
  end.

(** *** [float(s)]

    The literal is kept exactly: a parsed decimal stands for
    [(-1)^neg * mant * 10^exp10]. *)
Inductive pyfloat :=
| FNan
| FInf (neg : bool)
| FDec (neg : bool) (mant : Z) (exp10 : Z).

(** Underscores are legal only between two digits; they are dropped. *)
Fixpoint drop_underscores (seen : bool) (s : string) : option string :=
  match s with
  | EmptyString => Some EmptyString
  | String c s' =>
      if Ascii.eqb c "_" then
        match s' with
        | String d _ => if seen && isdigit d then drop_underscores false s' else None
        | EmptyString => None
        end
      else String c <$> drop_underscores (isdigit c) s'
  end.

(** Longest prefix of digits: its value, its length, and the rest. *)
Fixpoint span_digits (acc : Z) (n : Z) (s : string) : Z * Z * string :=
  match s with
  | String c s' =>
      if isdigit c then span_digits (acc * 10 + digit_val c) (n + 1) s'
      else (acc, n, s)
  | EmptyString => (acc, n, s)
  end.

Definition parse_exponent (s : string) : option Z :=
  match s with
  | EmptyString => Some 0
  | String c r =>
      if Ascii.eqb (lower_char c) "e" then
        let '(neg, ds) :=
          match r with
          | String "+" r' => (false, r')
          | String "-" r' => (true, r')
          | _ => (false, r)
          end in
        let '(v, n, rest) := span_digits 0 0 ds in
        match rest with
        | EmptyString => if 0 <? n then Some (if neg then - v else v) else None
        | _ => None
        end
      else None
  end.

Definition parse_decimal (neg : bool) (s : string) : option pyfloat :=
  let '(ip, n1, r1) := span_digits 0 0 s in
  let '(m, n2, r2) :=
    match r1 with
    | String "." r => span_digits ip 0 r
    | _ => (ip, 0, r1)
    end in
  if 0 <? n1 + n2 then
    e ← parse_exponent r2; Some (FDec neg m (e - n2))
  else None.

Definition py_float (s : string) : option pyfloat :=
  let t := strip_num s in
  let '(neg, body) :=
    match t with
    | String "+" r => (false, r)
    | String "-" r => (true, r)
    | _ => (false, t)
    end in
  let low := lower body in
  if String.eqb low "inf" || String.eqb low "infinity" then Some (FInf neg)
  else if String.eqb low "nan" then Some FNan
  else b ← drop_underscores false body; parse_decimal neg b.

(** [0 <= f <= 50] on the binary64 value of a literal.  Rounding to
    nearest-even is monotone, 0 and 50 are representable, and the
    neighbours of 50 and 0 are [50 + 2^-47] and [-2^-1074]; so the
    rounded value is in range exactly when the literal lies in
    [[-2^-1075, 50 + 2^-48]], both ties rounding to the even end. *)
Definition float_in_0_50 (f : pyfloat) : bool :=
  match f with
  | FNan => false
  | FInf _ => false
  | FDec false m e =>
      if 0 <=? e then m * 10 ^ e <=? 50
      else m * 2 ^ 48 <=? (50 * 2 ^ 48 + 1) * 10 ^ (- e)
  | FDec true m e =>
      if 0 <=? e then m =? 0
      else m * 2 ^ 1075 <=? 10 ^ (- e)
  end.

End PyStr.

(** ** Regular expressions, as far as the malicious patterns use them *)

Module Regex.

Inductive regex :=
| Void
| Eps
| Sym (p : ascii -> bool)
| Cat (r1 r2 : regex)
| Alt (r1 r2 : regex)
| Star (r : regex).

Fixpoint nullable (r : regex) : bool :=
  match r with
  | Void => false
  | Eps => true
  | Sym _ => false
  | Cat r1 r2 => nullable r1 && nullable r2
  | Alt r1 r2 => nullable r1 || nullable r2
  | Star _ => true
  end.

(** Constructors that drop [Void] and [Eps] where they change nothing. *)
Definition cat (r1 r2 : regex) : regex :=
  match r1, r2 with
  | Void, _ => Void
  | _, Void => Void
  | Eps, _ => r2
  | _, _ => Cat r1 r2
  end.

Definition alt (r1 r2 : regex) : regex :=
  match r1, r2 with
  | Void, _ => r2
  | _, Void => r1
  | _, _ => Alt r1 r2
  end.

Fixpoint deriv (c : ascii) (r : regex) : regex :=
  match r with
  | Void => Void
  | Eps => Void
  | Sym p => if p c then Eps else Void
  | Cat r1 r2 =>
      if nullable r1 then alt (cat (deriv c r1) r2) (deriv c r2)
      else cat (deriv c r1) r2
  | Alt r1 r2 => alt (deriv c r1) (deriv c r2)
  | Star r1 => cat (deriv c r1) (Star r1)
  end.

(** Some prefix of [s] is matched by [r]. *)
Fixpoint matches_prefix (r : regex) (s : string) : bool :=
  nullable r ||
  match s with
  | EmptyString => false
  | String c s' => matches_prefix (deriv c r) s'
  end.

(** [re.search(r, s)] as a truth value: a match starts somewhere. *)
Fixpoint search (r : regex) (s : string) : bool :=
  matches_prefix r s ||
  match s with
  | EmptyString => false
  | String _ s' => search r s'
  end.

(** What it means for [r] to match the whole of a string. *)
Inductive matches : regex -> string -> Prop :=
| matches_eps : matches Eps EmptyString
| matches_sym p c : p c = true -> matches (Sym p) (String c EmptyString)
| matches_cat r1 r2 s1 s2 :
    matches r1 s1 -> matches r2 s2 -> matches (Cat r1 r2) (s1 +:+ s2)
| matches_alt_l r1 r2 s : matches r1 s -> matches (Alt r1 r2) s
| matches_alt_r r1 r2 s : matches r2 s -> matches (Alt r1 r2) s
| matches_star_nil r : matches (Star r) EmptyString
| matches_star_app r s1 s2 :
    matches r s1 -> matches (Star r) s2 -> matches (Star r) (s1 +:+ s2).

(** Some substring of [s] is matched by [r]. *)
Definition found_in (r : regex) (s : string) : Prop :=
  exists pre m post, s = pre +:+ m +:+ post /\ matches r m.

(** A literal character under [re.IGNORECASE]. *)
Definition chr (c : ascii) : regex :=
  Sym (fun d => Ascii.eqb (PyStr.lower_char d) (PyStr.lower_char c)).

(** [.] without [re.DOTALL] *)
Definition dot : regex := Sym (fun d => negb (PyStr.is_code 10 d)).

(** [[^c]] *)
Definition notchr (c : ascii) : regex := Sym (fun d => negb (Ascii.eqb d c)).

Definition word : regex := Sym PyStr.isword.
Definition space : regex := Sym PyStr.isspace.

Definition plus (r : regex) : regex := Cat r (Star r).

(** A literal string *)
Fixpoint lit (s : string) : regex :=
  match s with
  | EmptyString => Eps
  | String c EmptyString => chr c
  | String c s' => Cat (chr c) (lit s')
  end.

Fixpoint sequence (rs : list regex) : regex :=
  match rs with
  | [] => Eps
  | [r] => r
  | r :: rs' => Cat r (sequence rs')
  end.

End Regex.

(** ** [security_manager.py] *)

Module security_manager.
Import PyStr.

Inductive InputType :=
| AGE | BODY_FAT | SCALE_1_5 | YES_NO | EXERCISE_FREQUENCY | FREE_TEXT.

Inductive SecurityEventType :=
| MALICIOUS_INPUT | RATE_LIMIT_EXCEEDED | INVALID_INPUT_REPEATED | SUSPICIOUS_PATTERN.

Inductive SecuritySeverity := LOW | MEDIUM | HIGH | CRITICAL.

Record ValidationResult := {
  is_valid : bool;
  error_message : option string;
  help_message : option string;
  suggested_format : option string
}.

(** Values stored in an event's [additional_data] dictionary. *)
Inductive pyval := VInt (n : Z) | VStr (s : string).

Record SecurityEvent := {
  ev_user_id : Z;
  event_type : SecurityEventType;
  description : string;
  timestamp : Z;
  severity : SecuritySeverity;
  additional_data : option (list (string * pyval))
}.

Record RateLimitInfo := {
  rl_user_id : Z;
  requests_count : Z;
  window_start : Z;
  is_blocked : bool;
  block_until : option Z
}.

Record SecurityManager := {
  rate_limit_per_minute : Z;
  rate_limit_data : gmap Z RateLimitInfo;
  security_events : list SecurityEvent;
  user_error_counts : gmap Z (gmap string Z)
}.

(** [SecurityManager(rate_limit_per_minute)] *)
Definition init (rate_limit : Z) : SecurityManager :=
  {| rate_limit_per_minute := rate_limit;
     rate_limit_data := ∅;
     security_events := [];
     user_error_counts := ∅ |}.

(** [timedelta(minutes=n)] *)
Definition minutes (n : Z) : Z := n * 60000000.

Definition set_rate_limit_data (d : gmap Z RateLimitInfo) (self : SecurityManager)
  : SecurityManager :=
  {| rate_limit_per_minute := rate_limit_per_minute self;
     rate_limit_data := d;
     security_events := security_events self;
     user_error_counts := user_error_counts self |}.

Definition set_security_events (evs : list SecurityEvent) (self : SecurityManager)
  : SecurityManager :=
  {| rate_limit_per_minute := rate_limit_per_minute self;
     rate_limit_data := rate_limit_data self;
     security_events := evs;
     user_error_counts := user_error_counts self |}.

Definition set_user_error_counts (c : gmap Z (gmap string Z)) (self : SecurityManager)
  : SecurityManager :=
  {| rate_limit_per_minute := rate_limit_per_minute self;
     rate_limit_data := rate_limit_data self;
     security_events := security_events self;
     user_error_counts := c |}.

(** [l[-n:]] for [n > 0] *)
Definition last_n {A} (n : nat) (l : list A) : list A := drop (length l - n) l.

(** The calls to [logger] leave the manager untouched. *)
Definition log_security_event (event : SecurityEvent) (self : SecurityManager)
  : SecurityManager :=
  let events := security_events self ++ [event] in
  if (1000 <? length events)%nat
  then set_security_events (last_n 1000 events) self
  else set_security_events events self.

Definition malicious_patterns : list (string * Regex.regex) :=
  let open tag :=
    Regex.sequence [Regex.lit tag; Regex.Star (Regex.notchr ">"); Regex.chr ">"] in
  let between a b :=
    Regex.sequence [Regex.lit a; Regex.Star Regex.dot; Regex.lit b] in
  [ ("<script[^>]*>.*?</script>",
     Regex.sequence
       [Regex.lit "<script"; Regex.Star (Regex.notchr ">"); Regex.chr ">";
        Regex.Star Regex.dot; Regex.lit "</script>"]);
    ("javascript:", Regex.lit "javascript:");
    ("on\w+\s*=",
     Regex.sequence
       [Regex.lit "on"; Regex.plus Regex.word; Regex.Star Regex.space; Regex.chr "="]);
    ("<iframe[^>]*>", open "<iframe");
    ("<object[^>]*>", open "<object");
    ("<embed[^>]*>", open "<embed");
    ("eval\s*\(",
     Regex.sequence [Regex.lit "eval"; Regex.Star Regex.space; Regex.chr "("]);
    ("document\.", Regex.lit "document.");
    ("window\.", Regex.lit "window.");
    ("\.innerHTML", Regex.lit ".innerHTML");
    ("SELECT.*FROM", between "SELECT" "FROM");
    ("UNION.*SELECT", between "UNION" "SELECT");
    ("DROP.*TABLE", between "DROP" "TABLE");
    ("INSERT.*INTO", between "INSERT" "INTO");
    ("UPDATE.*SET", between "UPDATE" "SET");
    ("DELETE.*FROM", between "DELETE" "FROM");
    ("\.\./.*", Regex.sequence [Regex.lit "../"; Regex.Star Regex.dot]);
    ("\.\.\\.*", Regex.sequence [Regex.lit "..\"; Regex.Star Regex.dot]);
    ("/etc/passwd", Regex.lit "/etc/passwd");
    ("/etc/shadow", Regex.lit "/etc/shadow");
    ("\.\./", Regex.lit "../");
    ("\.\.\\", Regex.lit "..\");
    ("\$\{jndi:", Regex.lit "${jndi:");
    ("\{\{.*\}\}", between "{{" "}}");
    ("<%.*%>", between "<%" "%>");
    ("<\?.*\?>", between "<?" "?>") ].

Definition sanitize_input (text : string) : string :=
  let text := remove_char Ascii.zero text in
  let text := html_escape text in
  let text := strip (sub_spaces false text) in
  if (1000 <? String.length text)%nat then slice_to 1000 text else text.

(** Some malicious pattern matches somewhere in the lowered text. *)
Definition matches_malicious_pattern (text : string) : Prop :=
  exists p, In p malicious_patterns /\ Regex.found_in (snd p) (lower text).

(** The pattern that the loop of [_detect_malicious_input] stops at. *)
Definition first_malicious_pattern (text : string) : option string :=
  let text_lower := lower text in
  fst <$> List.find (fun p => Regex.search (snd p) text_lower) malicious_patterns.

Definition _detect_malicious_input (text : string) (user_id now : Z)
    (self : SecurityManager) : bool * SecurityManager :=
  match first_malicious_pattern text with
  | Some pattern =>
      (true,
       log_security_event
         {| ev_user_id := user_id;
            event_type := MALICIOUS_INPUT;
            description := "Malicious pattern detected: " +:+ pattern;
            timestamp := now;
            severity := HIGH;
            additional_data :=
              Some [("input", VStr (slice_to 100 text)); ("pattern", VStr pattern)] |}
         self)
  | None => (false, self)
  end.

Definition get_user_error_count (user_id : Z) (error_type : string)
    (self : SecurityManager) : Z :=
  default 0 (default ∅ (user_error_counts self !! user_id) !! error_type).

Definition _track_validation_error (user_id : Z) (error_type : string) (now : Z)
    (self : SecurityManager) : SecurityManager :=
  let per_user := default ∅ (user_error_counts self !! user_id) in
  let count := default 0 (per_user !! error_type) + 1 in
  let self :=
    set_user_error_counts
      (<[user_id := <[error_type := count]> per_user]> (user_error_counts self)) self in
  if count =? 5 then
    log_security_event
      {| ev_user_id := user_id;
         event_type := INVALID_INPUT_REPEATED;
         description :=
           "Repeated validation errors for " +:+ error_type +:+ ": " +:+ pretty count;
         timestamp := now;
         severity := LOW;
         additional_data :=
           Some [("error_type", VStr error_type); ("count", VInt count)] |}
      self
  else self.

Definition valid : ValidationResult :=
  {| is_valid := true; error_message := None; help_message := None;
     suggested_format := None |}.

Definition invalid (err : string) (help fmt : option string) : ValidationResult :=
  {| is_valid := false; error_message := Some err; help_message := help;
     suggested_format := fmt |}.

Definition _validate_age (text : string) (user_id now : Z) (self : SecurityManager)
  : ValidationResult * SecurityManager :=
  match py_int text with
  | Some age =>
      if (18 <=? age) && (age <=? 120) then (valid, self)
      else
        (invalid "La edad debe estar entre 18 y 120 años."
                 (Some "Introduce tu edad como un número entero (ej: 25).")
                 (Some "Ejemplo: 30"),
         _track_validation_error user_id "age" now self)
  | None =>
      (invalid "Por favor, introduce un número válido para la edad."
               (Some "La edad debe ser un número entero entre 18 y 120.")
               (Some "Ejemplo: 30"),
       _track_validation_error user_id "age" now self)
  end.

Definition _validate_body_fat (text : string) (user_id now : Z) (self : SecurityManager)
  : ValidationResult * SecurityManager :=
  let clean_text := strip (remove_char "%" text) in
  match py_float clean_text with
  | Some fat =>
      if float_in_0_50 fat then (valid, self)
      else
        (invalid "El porcentaje de grasa corporal debe estar entre 0% y 50%."
                 (Some "Introduce un número entre 0 y 50 (sin el símbolo %).")
                 (Some "Ejemplo: 15"),
         _track_validation_error user_id "body_fat" now self)
  | None =>
      (invalid
         "Por favor, introduce un número válido para el porcentaje de grasa corporal."
         (Some "Debe ser un número entre 0 y 50.")
         (Some "Ejemplo: 15"),
       _track_validation_error user_id "body_fat" now self)
  end.

Definition _validate_scale_1_5 (text : string) (user_id now : Z) (self : SecurityManager)
  : ValidationResult * SecurityManager :=
  match py_int text with
  | Some score =>
      if (1 <=? score) && (score <=? 5) then (valid, self)
      else
        (invalid "Por favor, introduce un número entre 1 y 5."
                 (Some "1=Muy bajo/Ninguno, 2=Leve, 3=Moderado, 4=Severo, 5=Muy severo")
                 (Some "Ejemplo: 3"),
         _track_validation_error user_id "scale_1_5" now self)
  | None =>
      (invalid "Por favor, introduce solo un número del 1 al 5."
               (Some "Debe ser un número entero entre 1 y 5.")
               (Some "Ejemplo: 3"),
       _track_validation_error user_id "scale_1_5" now self)
  end.

(** ['sí'] has the code point 237 as its second character. *)
Definition valid_yes : list string :=
  [String "s" (String (ascii_of_nat 237) EmptyString); "si"; "yes"; "y"; "s"].
Definition valid_no : list string := ["no"; "n"].

Definition _validate_yes_no (text : string) (user_id now : Z) (self : SecurityManager)
  : ValidationResult * SecurityManager :=
  let text_lower := strip (lower text) in
  if mem text_lower valid_yes || mem text_lower valid_no then (valid, self)
  else
    (invalid "Por favor, responde 'Sí' o 'No'."
             (Some "Respuestas válidas: Sí, Si, No, S, N")
             (Some "Ejemplo: Sí"),
     _track_validation_error user_id "yes_no" now self).

Definition _validate_exercise_frequency (text : string) (user_id now : Z)
    (self : SecurityManager) : ValidationResult * SecurityManager :=
  match py_int text with
  | Some frequency =>
      if (0 <=? frequency) && (frequency <=? 7) then (valid, self)
      else
        (invalid "La frecuencia de ejercicio debe estar entre 0 y 7 veces por semana."
                 (Some "Introduce el número de veces que haces ejercicio por semana.")
                 (Some "Ejemplo: 3"),
         _track_validation_error user_id "exercise_frequency" now self)
  | None =>
      (invalid "Por favor, introduce un número válido para la frecuencia de ejercicio."
               (Some "Debe ser un número entre 0 y 7.")
               (Some "Ejemplo: 3"),
       _track_validation_error user_id "exercise_frequency" now self)
  end.

Definition _validate_free_text (text : string) (user_id now : Z) (self : SecurityManager)
  : ValidationResult * SecurityManager :=
  if (100 <? String.length text)%nat then
    (invalid "El texto es demasiado largo. Máximo 100 caracteres."
             (Some "Por favor, acorta tu respuesta.")
             (Some "Máximo 100 caracteres"),
     _track_validation_error user_id "free_text" now self)
  else if (String.length (strip text) =? 0)%nat then
    (invalid "Por favor, introduce algún texto."
             (Some "La respuesta no puede estar vacía.")
             None,
     _track_validation_error user_id "free_text" now self)
  else (valid, self).

(** [now] is the reading of the clock by the one [datetime.now()] that a
    call can reach (in the detector or in the error tracker).  The final
    [else] of the source cannot be reached with a member of [InputType]. *)
Definition validate_input (text : string) (input_type : InputType) (user_id now : Z)
    (self : SecurityManager) : ValidationResult * SecurityManager :=
  let '(malicious, self) := _detect_malicious_input text user_id now self in
  if malicious then
    (invalid "Entrada no válida detectada."
             (Some "Por favor, introduce solo texto normal sin caracteres especiales.")
             None,
     self)
  else
    let sanitized_text := sanitize_input text in
    match input_type with
    | AGE => _validate_age sanitized_text user_id now self
    | BODY_FAT => _validate_body_fat sanitized_text user_id now self
    | SCALE_1_5 => _validate_scale_1_5 sanitized_text user_id now self
    | YES_NO => _validate_yes_no sanitized_text user_id now self
    | EXERCISE_FREQUENCY => _validate_exercise_frequency sanitized_text user_id now self
    | FREE_TEXT => _validate_free_text sanitized_text user_id now self
    end.

Definition new_rate_info (user_id current_time : Z) : RateLimitInfo :=
  {| rl_user_id := user_id; requests_count := 0; window_start := current_time;
     is_blocked := false; block_until := None |}.

(** [self.rate_limit_data[user_id]] holds [info] *)
Definition store_rate_info (user_id : Z) (info : RateLimitInfo) (self : SecurityManager)
  : SecurityManager :=
  set_rate_limit_data (<[user_id := info]> (rate_limit_data self)) self.

(** [current_time] is the reading of [datetime.now()] at the start of
    the call.  [rate_info] is the object held by the dictionary, so each
    path stores the record it leaves behind. *)
Definition check_rate_limit (user_id current_time : Z) (self : SecurityManager)
  : bool * SecurityManager :=
  let rate_info :=
    default (new_rate_info user_id current_time) (rate_limit_data self !! user_id) in
  let uid := rl_user_id rate_info in
  match is_blocked rate_info, block_until rate_info with
  | true, Some until =>
      if current_time <? until then (false, store_rate_info user_id rate_info self)
      else
        (true,
         store_rate_info user_id
           {| rl_user_id := uid; requests_count := 1; window_start := current_time;
              is_blocked := false; block_until := None |}
           self)
  | blocked, until =>
      let rate_info :=
        if minutes 1 <? current_time - window_start rate_info then
          {| rl_user_id := uid; requests_count := 0; window_start := current_time;
             is_blocked := false;
             block_until := if blocked then None else until |}
        else rate_info in
      let count := requests_count rate_info + 1 in
      if rate_limit_per_minute self <? count then
        let block_minutes := Z.min (count - rate_limit_per_minute self) 60 in
        let self :=
          store_rate_info user_id
            {| rl_user_id := uid; requests_count := count;
               window_start := window_start rate_info;
               is_blocked := true;
               block_until := Some (current_time + minutes block_minutes) |}
            self in
        (false,
         log_security_event
           {| ev_user_id := user_id;
              event_type := RATE_LIMIT_EXCEEDED;
              description :=
                "Rate limit exceeded: " +:+ pretty count +:+ " requests in 1 minute";
              timestamp := current_time;
              severity := MEDIUM;
              additional_data :=
                Some [("requests_count", VInt count);
                      ("block_minutes", VInt block_minutes)] |}
           self)
      else
        (true,
         store_rate_info user_id
           {| rl_user_id := uid; requests_count := count;
              window_start := window_start rate_info;
              is_blocked := is_blocked rate_info;
              block_until := block_until rate_info |}
           self)
  end.

Definition SecurityEventType_eqb (a b : SecurityEventType) : bool :=
  match a, b with
  | MALICIOUS_INPUT, MALICIOUS_INPUT
  | RATE_LIMIT_EXCEEDED, RATE_LIMIT_EXCEEDED
  | INVALID_INPUT_REPEATED, INVALID_INPUT_REPEATED
  | SUSPICIOUS_PATTERN, SUSPICIOUS_PATTERN => true
  | _, _ => false
  end.

Definition SecuritySeverity_eqb (a b : SecuritySeverity) : bool :=
  match a, b with
  | LOW, LOW | MEDIUM, MEDIUM | HIGH, HIGH | CRITICAL, CRITICAL => true
  | _, _ => false
  end.

(** [l.sort(key=lambda x: x.timestamp, reverse=True)].  The sort is
    stable also under [reverse=True]: each event, from the last one to
    the first, goes in front of the first event that is not newer. *)
Fixpoint insert_by_timestamp (e : SecurityEvent) (l : list SecurityEvent)
  : list SecurityEvent :=
  match l with
  | [] => [e]
  | e' :: l' =>
      if timestamp e <? timestamp e' then e' :: insert_by_timestamp e l' else e :: l
  end.

Definition sort_newest_first (l : list SecurityEvent) : list SecurityEvent :=
  foldr insert_by_timestamp [] l.

(** [l[:n]] for any integer [n] *)
Definition slice_to_index {A} (n : Z) (l : list A) : list A :=
  if 0 <=? n then take (Z.to_nat n) l
  else take (length l - Z.to_nat (- n)) l.

(** [events] stays the list held by the manager when no filter is given,
    and [sort] works in place: the manager's own list is then the one
    that is sorted.  Each filter builds a new list. *)
Definition get_security_events (user_id : option Z)
    (event_type' : option SecurityEventType) (severity' : option SecuritySeverity)
    (limit : Z) (self : SecurityManager) : list SecurityEvent * SecurityManager :=
  let events := security_events self in
  let events :=
    match user_id with
    | Some u => List.filter (fun e => ev_user_id e =? u) events
    | None => events
    end in
  let events :=
    match event_type' with
    | Some t => List.filter (fun e => SecurityEventType_eqb (event_type e) t) events
    | None => events
    end in
  let events :=
    match severity' with
    | Some s => List.filter (fun e => SecuritySeverity_eqb (severity e) s) events
    | None => events
    end in
  let events := sort_newest_first events in
  (slice_to_index limit events,
   match user_id, event_type', severity' with
   | None, None, None => set_security_events events self
   | _, _, _ => self
   end).

(** [if error_type:] also sends the empty string to the branch that
    clears every counter of the user. *)
Definition reset_user_errors (user_id : Z) (error_type : option string)
    (self : SecurityManager) : SecurityManager :=
  match user_error_counts self !! user_id with
  | Some per_user =>
      match error_type with
      | Some (String _ _ as t) =>
          set_user_error_counts
            (<[user_id := delete t per_user]> (user_error_counts self)) self
      | _ =>
          set_user_error_counts (<[user_id := ∅]> (user_error_counts self)) self
      end
  | None => self
  end.

(** *** Derived notions used to state the properties *)

(** Every character of [s] passes [p]. *)
Fixpoint all_chars (p : ascii -> bool) (s : string) : bool :=
  match s with
  | EmptyString => true
  | String c s' => p c && all_chars p s'
  end.

(** A character that opens or closes markup or an attribute value, or
    the null character. *)
Definition is_markup_char (c : ascii) : bool :=
  Ascii.eqb c "<" || Ascii.eqb c ">" || Ascii.eqb c quote || Ascii.eqb c "'"
  || Ascii.eqb c Ascii.zero.

(** Every whitespace character of [s] is a blank that does not follow a
    whitespace character; [after_space] tells whether one comes just
    before [s]. *)
Fixpoint blanks_single (after_space : bool) (s : string) : bool :=
  match s with
  | EmptyString => true
  | String c s' =>
      if isspace c
      then Ascii.eqb c " " && negb after_space && blanks_single true s'
      else blanks_single false s'
  end.

(** Events in the order in which [sort] leaves them. *)
Fixpoint newest_first (l : list SecurityEvent) : Prop :=
  match l with
  | [] => True
  | e :: l' => Forall (fun e' => timestamp e' <= timestamp e) l' /\ newest_first l'
  end.

(** What the three optional filters of [get_security_events] let pass. *)
Definition event_selected (user_id : option Z) (event_type' : option SecurityEventType)
    (severity' : option SecuritySeverity) (e : SecurityEvent) : bool :=
  match user_id with Some u => ev_user_id e =? u | None => true end
  && match event_type' with
     | Some t => SecurityEventType_eqb (event_type e) t
     | None => true
     end
  && match severity' with
     | Some s => SecuritySeverity_eqb (severity e) s
     | None => true
     end.

(** Successive calls of [_track_validation_error], one per clock reading. *)
Definition track_all (user_id : Z) (error_type : string) (times : list Z)
    (self : SecurityManager) : SecurityManager :=
  foldl (fun self now => _track_validation_error user_id error_type now self) self times.

(** Successive calls of [log_security_event], oldest first. *)
Definition log_all (events : list SecurityEvent) (self : SecurityManager)
  : SecurityManager :=
  foldl (fun self event => log_security_event event self) self events.

(** Successive calls of [check_rate_limit] for one user, one per clock
    reading, with the answers in order. *)
Fixpoint check_rate_limit_run (user_id : Z) (times : list Z) (self : SecurityManager)
  : list bool * SecurityManager :=
  match times with
  | [] => ([], self)
  | t :: times' =>
      let '(ok, self) := check_rate_limit user_id t self in
      let '(oks, self) := check_rate_limit_run user_id times' self in
      (ok :: oks, self)
  end.

(** Twenty calls of one user, one second apart. *)
Definition twenty_calls : list Z :=
  map (fun i => Z.of_nat i * 1000000) (seq 0 20).

(** The count of a user who is not blocked is within the limit, and a
    blocked user has the end of the block recorded. *)
Definition rate_data_ok (self : SecurityManager) : Prop :=
  forall user_id info,
    rate_limit_data self !! user_id = Some info ->
    (is_blocked info = false -> requests_count info <= rate_limit_per_minute self)
    /\ (is_blocked info = true -> is_Some (block_until info)).

(** The key under which the validator of a kind counts its failures. *)
Definition error_type_name (input_type : InputType) : string :=
  match input_type with
  | AGE => "age"
  | BODY_FAT => "body_fat"
  | SCALE_1_5 => "scale_1_5"
  | YES_NO => "yes_no"
  | EXERCISE_FREQUENCY => "exercise_frequency"
  | FREE_TEXT => "free_text"
  end.

(** The verdict of the validator of a kind on sanitized text. *)
Definition type_check (input_type : InputType) (text : string) : bool :=
  match input_type with
  | AGE =>
      match py_int text with
      | Some age => (18 <=? age) && (age <=? 120)
      | None => false
      end
  | BODY_FAT =>
      match py_float (strip (remove_char "%" text)) with
      | Some fat => float_in_0_50 fat
      | None => false
      end
  | SCALE_1_5 =>
      match py_int text with
      | Some score => (1 <=? score) && (score <=? 5)
      | None => false
      end
  | YES_NO =>
      let text_lower := strip (lower text) in
      mem text_lower valid_yes || mem text_lower valid_no
  | EXERCISE_FREQUENCY =>
      match py_int text with
      | Some frequency => (0 <=? frequency) && (frequency <=? 7)
      | None => false
      end
  | FREE_TEXT =>
      negb (100 <? String.length text)%nat
      && negb (String.length (strip text) =? 0)%nat
  end.

(** The verdict of [validate_input], which does not depend on the manager. *)
Definition accepts (text : string) (input_type : InputType) : bool :=
  match first_malicious_pattern text with
  | Some _ => false
  | None => type_check input_type (sanitize_input text)
  end.

End security_manager.

(** ** [validation_layer.py] *)

Module validation_layer.
Import PyStr security_manager.

Inductive QuestionType :=
| ADAM_YES_NO
| AMS_SCALE
| LIFESTYLE_AGE
| LIFESTYLE_BODY_FAT
| LIFESTYLE_SLEEP_QUALITY
| LIFESTYLE_STRESS_LEVEL
| LIFESTYLE_EXERCISE_FREQUENCY
| LIFESTYLE_ALCOHOL_TOBACCO.

Definition QuestionType_index (q : QuestionType) : nat :=
  match q with
  | ADAM_YES_NO => 0
  | AMS_SCALE => 1
  | LIFESTYLE_AGE => 2
  | LIFESTYLE_BODY_FAT => 3
  | LIFESTYLE_SLEEP_QUALITY => 4
  | LIFESTYLE_STRESS_LEVEL => 5
  | LIFESTYLE_EXERCISE_FREQUENCY => 6
  | LIFESTYLE_ALCOHOL_TOBACCO => 7
  end.

Definition QuestionType_of_index (n : nat) : QuestionType :=
  match n with
  | 0%nat => ADAM_YES_NO
  | 1%nat => AMS_SCALE
  | 2%nat => LIFESTYLE_AGE
  | 3%nat => LIFESTYLE_BODY_FAT
  | 4%nat => LIFESTYLE_SLEEP_QUALITY
  | 5%nat => LIFESTYLE_STRESS_LEVEL
  | 6%nat => LIFESTYLE_EXERCISE_FREQUENCY
  | _ => LIFESTYLE_ALCOHOL_TOBACCO
  end.

#[global] Instance QuestionType_eq_dec : EqDecision QuestionType.
Proof. solve_decision. Defined.

#[global] Instance QuestionType_countable : Countable QuestionType.
Proof.
  refine (inj_countable' QuestionType_index QuestionType_of_index _).
  intros []; reflexivity.
Defined.

Record ValidationConfig := {
  max_retries_before_help : Z;
  max_retries_before_progressive_help : Z;
  enable_progressive_assistance : bool;
  enable_format_suggestions : bool
}.

(** [ValidationConfig()] *)
Definition default_config : ValidationConfig :=
  {| max_retries_before_help := 3;
     max_retries_before_progressive_help := 5;
     enable_progressive_assistance := true;
     enable_format_suggestions := true |}.

(** [EnhancedValidationResult]: the fields of [ValidationResult] come first. *)
Record EnhancedValidationResult := {
  e_is_valid : bool;
  e_error_message : option string;
  e_help_message : option string;
  e_suggested_format : option string;
  retry_count : Z;
  progressive_help : option string;
  examples : option (list string);
  is_progressive_help_triggered : bool
}.

Record ValidationLayer := {
  security_manager : SecurityManager;
  config : ValidationConfig;
  user_retry_counts : gmap Z (gmap QuestionType Z)
}.

(** [ValidationLayer(security_manager, config)] *)
Definition init (sm : SecurityManager) (cfg : ValidationConfig) : ValidationLayer :=
  {| security_manager := sm; config := cfg; user_retry_counts := ∅ |}.

Definition set_security_manager (sm : SecurityManager) (self : ValidationLayer)
  : ValidationLayer :=
  {| security_manager := sm; config := config self;
     user_retry_counts := user_retry_counts self |}.

Definition set_user_retry_counts (c : gmap Z (gmap QuestionType Z))
    (self : ValidationLayer) : ValidationLayer :=
  {| security_manager := security_manager self; config := config self;
     user_retry_counts := c |}.

Definition question_type_mapping (q : QuestionType) : InputType :=
  match q with
  | ADAM_YES_NO => YES_NO
  | AMS_SCALE => SCALE_1_5
  | LIFESTYLE_AGE => AGE
  | LIFESTYLE_BODY_FAT => BODY_FAT
  | LIFESTYLE_SLEEP_QUALITY => SCALE_1_5
  | LIFESTYLE_STRESS_LEVEL => SCALE_1_5
  | LIFESTYLE_EXERCISE_FREQUENCY => EXERCISE_FREQUENCY
  | LIFESTYLE_ALCOHOL_TOBACCO => YES_NO
  end.

Definition nl : string := String (ascii_of_nat 10) EmptyString.

(** The message tables below carry the bytes of the source literals;
    nothing inspects them beyond asking whether a message is empty. *)
Definition get_format_examples (question_type : QuestionType) : list string :=
  match question_type with
  | ADAM_YES_NO => ["SÃ­"; "No"; "Si"; "S"; "N"]
  | AMS_SCALE => ["1"; "2"; "3"; "4"; "5"]
  | LIFESTYLE_AGE => ["25"; "30"; "45"; "60"]
  | LIFESTYLE_BODY_FAT => ["15"; "20"; "25"; "12.5"]
  | LIFESTYLE_SLEEP_QUALITY => ["1"; "2"; "3"; "4"; "5"]
  | LIFESTYLE_STRESS_LEVEL => ["1"; "2"; "3"; "4"; "5"]
  | LIFESTYLE_EXERCISE_FREQUENCY => ["0"; "2"; "3"; "5"; "7"]
  | LIFESTYLE_ALCOHOL_TOBACCO => ["SÃ­"; "No"; "Si"; "S"; "N"]
  end.

Definition _get_base_help_message (question_type : QuestionType) : string :=
  match question_type with
  | ADAM_YES_NO =>
    "Responde 'SÃ­' o 'No' a la pregunta." +:+ nl +:+
    "Respuestas vÃ¡lidas: SÃ­, Si, No, S, N"
  | AMS_SCALE =>
    "Califica del 1 al 5 segÃºn la intensidad de los sÃ­ntomas:" +:+ nl +:+
    "1 = Ninguno" +:+ nl +:+
    "2 = Leve" +:+ nl +:+
    "3 = Moderado" +:+ nl +:+
    "4 = Severo" +:+ nl +:+
    "5 = Muy severo"
  | LIFESTYLE_AGE =>
    "Introduce tu edad como un nÃºmero entero." +:+ nl +:+
    "Debe estar entre 18 y 120 aÃ±os."
  | LIFESTYLE_BODY_FAT =>
    "Introduce tu porcentaje de grasa corporal estimado." +:+ nl +:+
    "Debe ser un nÃºmero entre 0 y 50 (sin el sÃ­mbolo %)."
  | LIFESTYLE_SLEEP_QUALITY =>
    "Califica la calidad de tu sueÃ±o del 1 al 5:" +:+ nl +:+
    "1 = Muy mala" +:+ nl +:+
    "2 = Mala" +:+ nl +:+
    "3 = Regular" +:+ nl +:+
    "4 = Buena" +:+ nl +:+
    "5 = Excelente"
  | LIFESTYLE_STRESS_LEVEL =>
    "Califica tu nivel de estrÃ©s del 1 al 5:" +:+ nl +:+
    "1 = Muy bajo" +:+ nl +:+
    "2 = Bajo" +:+ nl +:+
    "3 = Moderado" +:+ nl +:+
    "4 = Alto" +:+ nl +:+
    "5 = Muy alto"
  | LIFESTYLE_EXERCISE_FREQUENCY =>
    "Introduce el nÃºmero de veces por semana que haces ejercicio de fuerza." +:+ nl +:+
    "Debe ser un nÃºmero entre 0 y 7."
  | LIFESTYLE_ALCOHOL_TOBACCO =>
    "Responde 'SÃ­' o 'No' sobre si consumes alcohol o tabaco regularmente." +:+ nl +:+
    "Respuestas vÃ¡lidas: SÃ­, Si, No, S, N"
  end.

Definition _get_additional_help (question_type : QuestionType) : string :=
  match question_type with
  | ADAM_YES_NO =>
    "ğŸ’¡ Consejo: Si no estÃ¡s seguro, piensa en tu experiencia reciente. Las preguntas ADAM se refieren a cambios que hayas notado."
  | AMS_SCALE =>
    "ğŸ’¡ Consejo: Si no experimentas el sÃ­ntoma, responde '1'. Si lo experimentas intensamente, responde '5'. Para sÃ­ntomas moderados, usa '2', '3' o '4'."
  | LIFESTYLE_AGE =>
    "ğŸ’¡ Consejo: Introduce solo nÃºmeros, sin letras ni sÃ­mbolos. Por ejemplo: 30"
  | LIFESTYLE_BODY_FAT =>
    "ğŸ’¡ Consejo: Si no conoces tu porcentaje exacto, puedes estimarlo:" +:+ nl +:+
    "- Muy delgado: 8-12%" +:+ nl +:+
    "- Delgado: 12-18%" +:+ nl +:+
    "- Normal: 18-25%" +:+ nl +:+
    "- Con sobrepeso: 25-35%"
  | LIFESTYLE_SLEEP_QUALITY =>
    "ğŸ’¡ Consejo: Piensa en quÃ© tan descansado te sientes al despertar y quÃ© tan fÃ¡cil es para ti conciliar el sueÃ±o."
  | LIFESTYLE_STRESS_LEVEL =>
    "ğŸ’¡ Consejo: Considera tu nivel de estrÃ©s promedio en los Ãºltimos meses, no solo el dÃ­a de hoy."
  | LIFESTYLE_EXERCISE_FREQUENCY =>
    "ğŸ’¡ Consejo: Cuenta solo ejercicios de fuerza como pesas, calistenia, o entrenamientos de resistencia. No incluyas cardio."
  | LIFESTYLE_ALCOHOL_TOBACCO =>
    "ğŸ’¡ Consejo: 'Regular' significa varias veces por semana. Si es ocasional (una vez al mes o menos), responde 'No'."
  end.

Definition _get_progressive_help (question_type : QuestionType) : string :=
  match question_type with
  | ADAM_YES_NO =>
    "ğŸ†˜ Ayuda progresiva:" +:+ nl +:+
    "Parece que tienes dificultades con esta pregunta. Simplemente escribe la letra 'S' para SÃ­ o 'N' para No."
  | AMS_SCALE =>
    "ğŸ†˜ Ayuda progresiva:" +:+ nl +:+
    "Escribe solo un nÃºmero del 1 al 5. Si no tienes este sÃ­ntoma, escribe '1'. Si lo tienes muy intenso, escribe '5'."
  | LIFESTYLE_AGE =>
    "ğŸ†˜ Ayuda progresiva:" +:+ nl +:+
    "Escribe solo tu edad como nÃºmero. Por ejemplo, si tienes treinta aÃ±os, escribe: 30"
  | LIFESTYLE_BODY_FAT =>
    "ğŸ†˜ Ayuda progresiva:" +:+ nl +:+
    "Si no estÃ¡s seguro, puedes usar estos valores aproximados:" +:+ nl +:+
    "- Muy delgado: 10" +:+ nl +:+
    "- Delgado: 15" +:+ nl +:+
    "- Normal: 20" +:+ nl +:+
    "- Con sobrepeso: 30"
  | LIFESTYLE_SLEEP_QUALITY =>
    "ğŸ†˜ Ayuda progresiva:" +:+ nl +:+
    "Escribe un nÃºmero del 1 al 5:" +:+ nl +:+
    "1 = Duermo muy mal" +:+ nl +:+
    "3 = Duermo regular" +:+ nl +:+
    "5 = Duermo excelente"
  | LIFESTYLE_STRESS_LEVEL =>
    "ğŸ†˜ Ayuda progresiva:" +:+ nl +:+
    "Escribe un nÃºmero del 1 al 5:" +:+ nl +:+
    "1 = Muy poco estrÃ©s" +:+ nl +:+
    "3 = EstrÃ©s normal" +:+ nl +:+
    "5 = Mucho estrÃ©s"
  | LIFESTYLE_EXERCISE_FREQUENCY =>
    "ğŸ†˜ Ayuda progresiva:" +:+ nl +:+
    "Escribe un nÃºmero del 0 al 7 (dÃ­as por semana)." +:+ nl +:+
    "Si no haces ejercicio de fuerza, escribe: 0"
  | LIFESTYLE_ALCOHOL_TOBACCO =>
    "ğŸ†˜ Ayuda progresiva:" +:+ nl +:+
    "Escribe 'S' si consumes alcohol o tabaco varias veces por semana." +:+ nl +:+
    "Escribe 'N' si no consumes o es muy ocasional."
  end.

Definition _get_specific_guidance (question_type : QuestionType) (retry_count : Z)
  : string :=
  if retry_count =? 2 then
    "ğŸ’­ Recuerda: Solo necesitas una respuesta simple y directa."
  else if retry_count =? 3 then
    "âš ï¸ AtenciÃ³n: AsegÃºrate de seguir exactamente el formato solicitado."
  else if 4 <=? retry_count then
    "ğŸ”„ Ãšltimo intento: Si sigues teniendo problemas, puedes usar /cancel para reiniciar."
  else EmptyString.

Definition get_help_message (question_type : QuestionType) (retry_count : Z)
    (self : ValidationLayer) : string :=
  let base_help := _get_base_help_message question_type in
  if max_retries_before_help (config self) <=? retry_count then
    base_help +:+ nl +:+ nl +:+ _get_additional_help question_type
  else base_help.

Definition _get_retry_count (user_id : Z) (question_type : QuestionType)
    (self : ValidationLayer) : Z :=
  default 0 (default ∅ (user_retry_counts self !! user_id) !! question_type).

Definition _increment_retry_count (user_id : Z) (question_type : QuestionType)
    (self : ValidationLayer) : ValidationLayer :=
  let per_user := default ∅ (user_retry_counts self !! user_id) in
  let current_count := default 0 (per_user !! question_type) in
  set_user_retry_counts
    (<[user_id := <[question_type := current_count + 1]> per_user]>
       (user_retry_counts self))
    self.

Definition _reset_retry_count (user_id : Z) (question_type : QuestionType)
    (self : ValidationLayer) : ValidationLayer :=
  match user_retry_counts self !! user_id with
  | Some per_user =>
      set_user_retry_counts
        (<[user_id := delete question_type per_user]> (user_retry_counts self)) self
  | None => self
  end.

(** Truth value of an [Optional[str]] *)
Definition truthy (s : option string) : bool :=
  match s with
  | Some (String _ _) => true
  | _ => false
  end.

Definition _enhance_validation_result (result : EnhancedValidationResult)
    (question_type : QuestionType) (retry_count' : Z) (self : ValidationLayer)
  : EnhancedValidationResult :=
  let examples' :=
    if enable_format_suggestions (config self)
    then Some (get_format_examples question_type)
    else examples result in
  let help1 :=
    if max_retries_before_help (config self) <=? retry_count'
    then Some (get_help_message question_type retry_count' self)
    else if negb (truthy (e_help_message result))
    then Some (_get_base_help_message question_type)
    else e_help_message result in
  let specific_guidance := _get_specific_guidance question_type retry_count' in
  let help2 :=
    if truthy (Some specific_guidance) then
      match help1 with
      | Some (String _ _ as h) => Some (h +:+ nl +:+ nl +:+ specific_guidance)
      | _ => Some specific_guidance
      end
    else help1 in
  {| e_is_valid := e_is_valid result;
     e_error_message := e_error_message result;
     e_help_message := help2;
     e_suggested_format := e_suggested_format result;
     retry_count := retry_count result;
     progressive_help := progressive_help result;
     examples := examples';
     is_progressive_help_triggered := is_progressive_help_triggered result |}.

(** [now] is passed on to [validate_input]. *)
Definition validate_question_response (user_input : string)
    (question_type : QuestionType) (user_id now : Z) (self : ValidationLayer)
  : EnhancedValidationResult * ValidationLayer :=
  let retry_count0 := _get_retry_count user_id question_type self in
  let input_type := question_type_mapping question_type in
  let '(basic_result, sm) :=
    validate_input user_input input_type user_id now (security_manager self) in
  let self := set_security_manager sm self in
  if negb (is_valid basic_result) then
    let self := _increment_retry_count user_id question_type self in
    let new_retry_count := retry_count0 + 1 in
    let enhanced_result :=
      {| e_is_valid := is_valid basic_result;
         e_error_message := error_message basic_result;
         e_help_message := help_message basic_result;
         e_suggested_format := suggested_format basic_result;
         retry_count := new_retry_count;
         progressive_help := None;
         examples := None;
         is_progressive_help_triggered := false |} in
    let enhanced_result :=
      _enhance_validation_result enhanced_result question_type new_retry_count self in
    if enable_progressive_assistance (config self)
       && (max_retries_before_progressive_help (config self) <=? new_retry_count)
    then
      ({| e_is_valid := e_is_valid enhanced_result;
          e_error_message := e_error_message enhanced_result;
          e_help_message := e_help_message enhanced_result;
          e_suggested_format := e_suggested_format enhanced_result;
          retry_count := retry_count enhanced_result;
          progressive_help := Some (_get_progressive_help question_type);
          examples := examples enhanced_result;
          is_progressive_help_triggered := true |},
       self)
    else (enhanced_result, self)
  else
    let self := _reset_retry_count user_id question_type self in
    ({| e_is_valid := is_valid basic_result;
        e_error_message := error_message basic_result;
        e_help_message := help_message basic_result;
        e_suggested_format := suggested_format basic_result;
        retry_count := 0;
        progressive_help := None;
        examples := None;
        is_progressive_help_triggered := false |},
     self).

(** [str(question_type)] *)
Definition QuestionType_str (question_type : QuestionType) : string :=
  "QuestionType." +:+
  match question_type with
  | ADAM_YES_NO => "ADAM_YES_NO"
  | AMS_SCALE => "AMS_SCALE"
  | LIFESTYLE_AGE => "LIFESTYLE_AGE"
  | LIFESTYLE_BODY_FAT => "LIFESTYLE_BODY_FAT"
  | LIFESTYLE_SLEEP_QUALITY => "LIFESTYLE_SLEEP_QUALITY"
  | LIFESTYLE_STRESS_LEVEL => "LIFESTYLE_STRESS_LEVEL"
  | LIFESTYLE_EXERCISE_FREQUENCY => "LIFESTYLE_EXERCISE_FREQUENCY"
  | LIFESTYLE_ALCOHOL_TOBACCO => "LIFESTYLE_ALCOHOL_TOBACCO"
  end.

Definition validate_age (age_str : string) (user_id now : Z) (self : ValidationLayer)
  : EnhancedValidationResult * ValidationLayer :=
  validate_question_response age_str LIFESTYLE_AGE user_id now self.

Definition validate_body_fat (fat_str : string) (user_id now : Z) (self : ValidationLayer)
  : EnhancedValidationResult * ValidationLayer :=
  validate_question_response fat_str LIFESTYLE_BODY_FAT user_id now self.

(** [inl message] stands for [ValueError(message)]. *)
Definition validate_scale_response (response : string) (question_type : QuestionType)
    (user_id now : Z) (self : ValidationLayer)
  : string + EnhancedValidationResult * ValidationLayer :=
  if decide (question_type
             ∈ [AMS_SCALE; LIFESTYLE_SLEEP_QUALITY; LIFESTYLE_STRESS_LEVEL])
  then inr (validate_question_response response question_type user_id now self)
  else inl ("Invalid question type for scale validation: "
            +:+ QuestionType_str question_type).

Definition validate_yes_no (response : string) (question_type : QuestionType)
    (user_id now : Z) (self : ValidationLayer)
  : string + EnhancedValidationResult * ValidationLayer :=
  if decide (question_type ∈ [ADAM_YES_NO; LIFESTYLE_ALCOHOL_TOBACCO])
  then inr (validate_question_response response question_type user_id now self)
  else inl ("Invalid question type for yes/no validation: "
            +:+ QuestionType_str question_type).

Definition validate_exercise_frequency (frequency_str : string) (user_id now : Z)
    (self : ValidationLayer) : EnhancedValidationResult * ValidationLayer :=
  validate_question_response frequency_str LIFESTYLE_EXERCISE_FREQUENCY user_id now self.

(** A member of [QuestionType] is always true as a condition, so
    [if question_type:] only tells a kind from [None]. *)
Definition reset_user_retries (user_id : Z) (question_type : option QuestionType)
    (self : ValidationLayer) : ValidationLayer :=
  match user_retry_counts self !! user_id with
  | Some per_user =>
      match question_type with
      | Some q =>
          set_user_retry_counts
            (<[user_id := delete q per_user]> (user_retry_counts self)) self
      | None =>
          set_user_retry_counts (<[user_id := ∅]> (user_retry_counts self)) self
      end
  | None => self
  end.

Definition get_user_retry_stats (user_id : Z) (self : ValidationLayer)
  : gmap QuestionType Z :=
  default ∅ (user_retry_counts self !! user_id).

(** *** Derived notions used to state the properties *)

(** Successive submissions for one user and one kind of question, each
    with its clock reading; the results come in order. *)
Fixpoint submit_all (submissions : list (string * Z)) (question_type : QuestionType)
    (user_id : Z) (self : ValidationLayer)
  : list EnhancedValidationResult * ValidationLayer :=
  match submissions with
  | [] => ([], self)
  | (user_input, now) :: rest =>
      let '(result, self) :=
        validate_question_response user_input question_type user_id now self in
      let '(results, self) := submit_all rest question_type user_id self in
      (result :: results, self)
  end.

(** Every counter that [get_user_retry_stats] reports is at least 1. *)
Definition retry_counts_positive (self : ValidationLayer) : Prop :=
  forall (user_id : Z) (question_type : QuestionType) (n : Z),
    get_user_retry_stats user_id self !! question_type = Some n -> 1 <= n.

End validation_layer.

(** ** [error_handler.py]

    A delay is a float in the source and an exact rational here: the
    settings are taken to be finite floats and the rounding of each result
    is left out.  What float arithmetic raises is kept: the power raises
    [OverflowError] when its value is beyond the float range or its
    exponent is too large to be turned into a float, and
    [ZeroDivisionError] for zero to a negative power.  The exponent, an
    integer, is rounded as the source rounds it on its way to a float.  A product beyond
    the float range is an infinity in the source, raises nothing, and is
    cut by [min] as its exact value is. *)

Module error_handler.

Inductive ErrorType :=
| NETWORK_ERROR
| TIMEOUT_ERROR
| RATE_LIMIT_ERROR
| VALIDATION_ERROR
| SYSTEM_ERROR
| SECURITY_ERROR
| USER_ERROR
| TELEGRAM_API_ERROR.

Inductive RecoveryAction := RETRY | SKIP | ABORT | FALLBACK | USER_NOTIFICATION.

Definition ErrorType_eqb (a b : ErrorType) : bool :=
  match a, b with
  | NETWORK_ERROR, NETWORK_ERROR
  | TIMEOUT_ERROR, TIMEOUT_ERROR
  | RATE_LIMIT_ERROR, RATE_LIMIT_ERROR
  | VALIDATION_ERROR, VALIDATION_ERROR
  | SYSTEM_ERROR, SYSTEM_ERROR
  | SECURITY_ERROR, SECURITY_ERROR
  | USER_ERROR, USER_ERROR
  | TELEGRAM_API_ERROR, TELEGRAM_API_ERROR => true
  | _, _ => false
  end.

Definition RecoveryAction_eqb (a b : RecoveryAction) : bool :=
  match a, b with
  | RETRY, RETRY | SKIP, SKIP | ABORT, ABORT | FALLBACK, FALLBACK
  | USER_NOTIFICATION, USER_NOTIFICATION => true
  | _, _ => false
  end.

(** [additional_data] only reaches the log and is left out. *)
Record ErrorContext := {
  user_id : option Z;
  chat_id : option Z;
  message_id : option Z;
  function_name : option string;
  attempt_number : Z
}.

Record RetryConfig := {
  max_retries : Z;
  base_delay : Q;
  max_delay : Q;
  exponential_base : Q;
  jitter : bool
}.

(** [RetryConfig()] *)
Definition default_retry_config : RetryConfig :=
  {| max_retries := 3; base_delay := 1; max_delay := 60; exponential_base := 2;
     jitter := true |}.

(** An exception, as far as the classifier looks at it: the first of the
    classes tested by [_classify_error], in the order of its tests, that
    the exception is an instance of, and [str(error)]. *)
Inductive ExceptionClass :=
| TimedOut
| AsyncioTimeoutError
| BadRequest
| Forbidden
| ChatMigrated
| NetworkError
| ConnectionError
| ValueError
| PermissionError
| OtherException.

Record Exception := {
  exn_class : ExceptionClass;
  exn_str : string
}.

(** [sub in s] *)
Fixpoint contains (sub s : string) : bool :=
  String.prefix sub s ||
  match s with
  | EmptyString => false
  | String _ s' => contains sub s'
  end.

Definition _classify_error (error : Exception) : ErrorType :=
  match exn_class error with
  | TimedOut | AsyncioTimeoutError => TIMEOUT_ERROR
  | BadRequest =>
      if contains "rate limit" (PyStr.lower (exn_str error))
      then RATE_LIMIT_ERROR
      else TELEGRAM_API_ERROR
  | Forbidden | ChatMigrated => TELEGRAM_API_ERROR
  | NetworkError | ConnectionError => NETWORK_ERROR
  | ValueError => VALIDATION_ERROR
  | PermissionError => SECURITY_ERROR
  | OtherException => SYSTEM_ERROR
  end.

(** [error_type in [NETWORK_ERROR, TIMEOUT_ERROR, TELEGRAM_API_ERROR]] *)
Definition is_transient (error_type : ErrorType) : bool :=
  existsb (ErrorType_eqb error_type) [NETWORK_ERROR; TIMEOUT_ERROR; TELEGRAM_API_ERROR].

Definition _determine_recovery_action (cfg : RetryConfig) (error_type : ErrorType)
    (context : ErrorContext) : RecoveryAction :=
  if max_retries cfg <=? attempt_number context then
    if is_transient error_type then FALLBACK else ABORT
  else if is_transient error_type then RETRY
  else if ErrorType_eqb error_type RATE_LIMIT_ERROR then RETRY
  else if existsb (ErrorType_eqb error_type) [VALIDATION_ERROR; USER_ERROR]
  then USER_NOTIFICATION
  else if ErrorType_eqb error_type SECURITY_ERROR then USER_NOTIFICATION
  else ABORT.

(** The ['message'] entries of [user_messages]; every kind has one. *)
Definition user_message_text (error_type : ErrorType) : string :=
  match error_type with
  | NETWORK_ERROR => "🌐 Problema de conexión. Reintentando..."
  | TIMEOUT_ERROR => "⏱️ La operación tardó demasiado. Reintentando..."
  | RATE_LIMIT_ERROR => "🚦 Demasiadas solicitudes. Por favor, espera un momento."
  | VALIDATION_ERROR => "❌ Entrada no válida."
  | SYSTEM_ERROR => "⚠️ Error interno del sistema."
  | SECURITY_ERROR => "🔒 Entrada no permitida por razones de seguridad."
  | USER_ERROR => "🤔 Algo no está bien con tu entrada."
  | TELEGRAM_API_ERROR => "📱 Error de comunicación con Telegram."
  end.

Definition _get_user_message (cfg : RetryConfig) (error_type : ErrorType)
    (context : ErrorContext) : option string :=
  let message := user_message_text error_type in
  if (1 <? attempt_number context)
     && existsb (ErrorType_eqb error_type) [NETWORK_ERROR; TIMEOUT_ERROR]
  then Some (message +:+ " (Intento " +:+ pretty (attempt_number context) +:+ "/"
             +:+ pretty (max_retries cfg) +:+ ")")
  else Some message.

(** The call to [logging_system.log_error] leaves nothing behind here. *)
Definition handle_error (cfg : RetryConfig) (error : Exception) (context : ErrorContext)
  : RecoveryAction * option string :=
  let error_type := _classify_error error in
  let recovery_action := _determine_recovery_action cfg error_type context in
  let user_message := _get_user_message cfg error_type context in
  (recovery_action, user_message).

(** [min(a, b)] and [max(a, b)] of Python: the first argument wins a tie. *)
Definition py_min (a b : Q) : Q := if Qle_bool a b then a else b.
Definition py_max (a b : Q) : Q := if Qle_bool b a then a else b.

(** The exceptions of float arithmetic; neither is of a class that
    [_classify_error] tests for. *)
Definition OverflowError (message : string) : Exception :=
  {| exn_class := OtherException; exn_str := message |}.

Definition ZeroDivisionError (message : string) : Exception :=
  {| exn_class := OtherException; exn_str := message |}.

(** The values that round to an infinity: those from [2^1024 - 2^970] on
    in size, half-way between the largest float and [2^1024]. *)
Definition float_overflows (x : Q) : bool :=
  Qle_bool (inject_Z (2 ^ 1024 - 2 ^ 970)) (Qabs x).

(** [float(n)] for an integer [n], as the integer that this float is:
    [n] itself up to [2^53] in size, beyond that the nearest integer with
    53 significant bits, the even one of two that are as near. *)
Definition float_of_int (n : Z) : Exception + Z :=
  if float_overflows (inject_Z n)
  then inl (OverflowError "int too large to convert to float")
  else if Z.abs n <=? 2 ^ 53 then inr n
  else
    let ulp := 2 ^ (Z.log2 (Z.abs n) - 52) in
    let significand := Z.abs n / ulp in
    let rest := Z.abs n - significand * ulp in
    let up := (ulp <? 2 * rest) || ((2 * rest =? ulp) && Z.odd significand) in
    inr (Z.sgn n * ((if up then significand + 1 else significand) * ulp)).

(** [b ** e] for a float [b] and an integer [e]: the exponent is turned
    into a float first, then come the cases of a zero exponent and of a
    zero base, then the power itself. *)
Definition float_pow (b : Q) (e : Z) : Exception + Q :=
  match float_of_int e with
  | inl raised => inl raised
  | inr e =>
      if e =? 0 then inr 1%Q
      else if Qeq_bool b 0 then
        if e <? 0
        then inl (ZeroDivisionError "0.0 cannot be raised to a negative power")
        else inr 0%Q
      else
        let x := (b ^ e)%Q in
        if float_overflows x
        then inl (OverflowError "(34, 'Numerical result out of range')")
        else inr x
  end.

(** [random.uniform(a, b)], which is [a + (b - a) * random()]; [r] is
    the value of [random()], a float from 0 up to but not including 1. *)
Definition uniform (a b r : Q) : Q := (a + (b - a) * r)%Q.

(** The statements of [calculate_retry_delay] before the jitter. *)
Definition backoff_delay (cfg : RetryConfig) (attempt_number : Z) (error_type : ErrorType)
  : Exception + Q :=
  match float_pow (exponential_base cfg) (attempt_number - 1) with
  | inl raised => inl raised
  | inr power =>
      let delay := (base_delay cfg * power)%Q in
      let delay := py_min delay (max_delay cfg) in
      inr (if ErrorType_eqb error_type RATE_LIMIT_ERROR then py_max delay 30 else delay)
  end.

(** [r] is the value of [random()] behind [random.uniform(0.1, 0.3)]; it
    is looked at only when [jitter] is set. *)
Definition calculate_retry_delay (cfg : RetryConfig) (attempt_number : Z)
    (error_type : ErrorType) (r : Q) : Exception + Q :=
  match backoff_delay cfg attempt_number error_type with
  | inl raised => inl raised
  | inr delay =>
      inr (if jitter cfg
           then (delay + uniform (1 # 10) (3 # 10) r * delay)%Q
           else delay)
  end.

(** What the caller of the wrapped function observes. *)
Inductive Outcome (A : Type) :=
| Returned (v : A)
| Raised (e : Exception)
| ReturnedNone.
Arguments Returned {A} v.
Arguments Raised {A} e.
Arguments ReturnedNone {A}.

(** What the wrapper does on the way: calls of the wrapped function and
    [asyncio.sleep]. *)
Inductive Effect :=
| Call (attempt : Z)
| Sleep (delay : Q).

Section with_retry.
Context {A : Type}.
(** [func attempt] is the outcome of the call made in iteration [attempt]:
    a value or an exception caught by [except Exception]. *)
Variable func : Z -> Exception + A.
Variable func_name : string.
(** [draw attempt] is the value of [random()] in iteration [attempt]. *)
Variable draw : Z -> Q.
Variable cfg : RetryConfig.

(** [max_retries or self.retry_config.max_retries] *)
Definition effective_retries (max_retries' : option Z) : Z :=
  match max_retries' with
  | Some n => if n =? 0 then max_retries cfg else n
  | None => max_retries cfg
  end.

(** The [for attempt in range(1, retries + 1)] loop with [remaining]
    iterations to go, and the two statements after it.  The delay is
    computed inside the [except] block: what that raises leaves the
    wrapper in place of the sleep. *)
Fixpoint retry_loop (retries : Z) (remaining : nat) (attempt : Z)
    (last_error : option Exception) : Outcome A * list Effect :=
  match remaining with
  | O =>
      match last_error with
      | Some e => (Raised e, [])
      | None => (ReturnedNone, [])
      end
  | S remaining' =>
      match func attempt with
      | inr v => (Returned v, [Call attempt])
      | inl e =>
          let context :=
            {| user_id := None; chat_id := None; message_id := None;
               function_name := Some func_name; attempt_number := attempt |} in
          let '(recovery_action, user_message) := handle_error cfg e context in
          if (attempt =? retries) || negb (RecoveryAction_eqb recovery_action RETRY)
          then (Raised e, [Call attempt])
          else
            let error_type := _classify_error e in
            match calculate_retry_delay cfg attempt error_type (draw attempt) with
            | inl raised => (Raised raised, [Call attempt])
            | inr delay =>
                let '(out, effects) :=
                  retry_loop retries remaining' (attempt + 1) (Some e) in
                (out, Call attempt :: Sleep delay :: effects)
            end
      end
  end.

(** The wrapper returned by [with_retry(max_retries)(func)], called once. *)
Definition with_retry (max_retries' : option Z) : Outcome A * list Effect :=
  let retries := effective_retries max_retries' in
  retry_loop retries (Z.to_nat retries) 1 None.

End with_retry.

(** What the two senders read in a Telegram [Update]: whether it has a
    message, its callback query if any, with the identifier of the
    message that the query belongs to when that message is still there,
    and the identifiers of the user and of the chat. *)
Record CallbackQuery := {
  cq_message : option Z
}.

Record Update := {
  upd_message : bool;
  upd_callback_query : option CallbackQuery;
  effective_user : option Z;
  effective_chat : option Z
}.

(** The calls of the Telegram client: [update.message.reply_text],
    [update.callback_query.message.reply_text], [context.bot.send_message]
    (with the keyword arguments of the caller or without) and
    [update.callback_query.edit_message_text]. *)
Inductive Request :=
| ReplyText
| CallbackReplyText
| SendMessage (chat : Z) (with_kwargs : bool)
| EditMessageText.

(** Reading the attribute [attr] of [None] *)
Definition AttributeError (attr : string) : Exception :=
  {| exn_class := OtherException;
     exn_str := "'NoneType' object has no attribute '" +:+ attr +:+ "'" |}.

Section senders.
Variable cfg : RetryConfig.
(** [transport n r] is the outcome of [r] made as the request number [n]:
    [None] when it goes through, the exception that it raises otherwise. *)
Variable transport : nat -> Request -> option Exception.

(** One request, added to the requests made so far. *)
Definition request (r : Request) (trace : list Request)
  : option Exception * list Request :=
  (transport (length trace) r, trace ++ [r]).

Definition safe_send_message (update : Update) (with_kwargs : bool)
    (trace : list Request) : bool * list Request :=
  let '(error, trace) :=
    if upd_message update then request ReplyText trace
    else
      match upd_callback_query update with
      | Some query =>
          match cq_message query with
          | Some _ => request CallbackReplyText trace
          | None => (Some (AttributeError "reply_text"), trace)
          end
      | None =>
          match effective_chat update with
          | Some chat => request (SendMessage chat with_kwargs) trace
          | None => (Some (AttributeError "id"), trace)
          end
      end in
  match error with
  | None => (true, trace)
  | Some e =>
      let error_context :=
        {| user_id := effective_user update; chat_id := effective_chat update;
           message_id := None; function_name := Some "safe_send_message";
           attempt_number := 1 |} in
      let '(recovery_action, user_message) := handle_error cfg e error_context in
      if RecoveryAction_eqb recovery_action FALLBACK then
        match effective_chat update with
        | Some chat =>
            let '(error, trace) := request (SendMessage chat false) trace in
            match error with
            | None => (true, trace)
            | Some _ => (false, trace)
            end
        | None => (false, trace)
        end
      else (false, trace)
  end.

(** Without a callback query the function runs off its end and returns
    [None]; an exception raised while the error context is built is not
    caught. *)
Definition safe_edit_message (update : Update) (with_kwargs : bool)
    (trace : list Request) : Outcome bool * list Request :=
  match upd_callback_query update with
  | None => (ReturnedNone, trace)
  | Some query =>
      let '(error, trace) := request EditMessageText trace in
      match error with
      | None => (Returned true, trace)
      | Some e =>
          match cq_message query with
          | None => (Raised (AttributeError "message_id"), trace)
          | Some message_id' =>
              let error_context :=
                {| user_id := effective_user update; chat_id := effective_chat update;
                   message_id := Some message_id';
                   function_name := Some "safe_edit_message";
                   attempt_number := 1 |} in
              let '(recovery_action, user_message) :=
                handle_error cfg e error_context in
              if RecoveryAction_eqb recovery_action FALLBACK then
                let '(sent, trace) := safe_send_message update with_kwargs trace in
                (Returned sent, trace)
              else (Returned false, trace)
          end
      end
  end.

End senders.

(** *** Derived notions used to state the properties *)

(** The calls of the wrapped function and the sleeps in a trace. *)
Definition calls (effects : list Effect) : list Z :=
  omap (fun x => match x with Call attempt => Some attempt | Sleep _ => None end) effects.

Definition sleeps (effects : list Effect) : list Q :=
  omap (fun x => match x with Sleep delay => Some delay | Call _ => None end) effects.

(** The trace of consecutive calls from [attempt] on with one sleep
    between each call and the next, and nowhere else. *)
Fixpoint calls_and_sleeps (attempt : Z) (delays : list Q) : list Effect :=
  Call attempt ::
  match delays with
  | [] => []
  | delay :: delays' => Sleep delay :: calls_and_sleeps (attempt + 1) delays'
  end.

End error_handler.

(** ** [conversation_handler.py] *)

Module conversation_handler.

Inductive ConversationState := START | ADAM | AMS | LIFESTYLE | RESULTS | COMPLETED.

(** A [dict] keeps its keys in insertion order, and the cleanup pass
    reads the clock once per entry in that order. *)
Section ordered_dict.
Context {V : Type}.

(** [d.get(k)] *)
Fixpoint od_get (k : Z) (d : list (Z * V)) : option V :=
  match d with
  | [] => None
  | (k', v) :: d' => if k' =? k then Some v else od_get k d'
  end.

(** [d[k] = v]: an existing key keeps its place, a new one goes last. *)
Fixpoint od_set (k : Z) (v : V) (d : list (Z * V)) : list (Z * V) :=
  match d with
  | [] => [(k, v)]
  | (k', v') :: d' => if k' =? k then (k, v) :: d' else (k', v') :: od_set k v d'
  end.

(** [del d[k]]: no binding of [k] is left (a [dict] holds at most one). *)
Fixpoint od_del (k : Z) (d : list (Z * V)) : list (Z * V) :=
  match d with
  | [] => []
  | (k', v') :: d' => if k' =? k then od_del k d' else (k', v') :: od_del k d'
  end.

End ordered_dict.

Section store.
(** The values of [lifestyle_answers], typed [Any] in the source. *)
Context {Any : Type}.
(** [clock n] is what the [n]-th [datetime.now()] of the process returns. *)
Variable clock : nat -> Z.

Record UserProgress := {
  user_id : Z;
  current_state : ConversationState;
  adam_answers : list bool;
  ams_score : Z;
  ams_question_index : Z;
  lifestyle_answers : list (string * Any);
  lifestyle_question_index : Z;
  start_time : Z;
  last_activity : Z
}.

(** The keys of [context_data] that [save_progress] looks at; [None] is
    a missing key. *)
Record ContextData := {
  cd_adam_answers : option (list bool);
  cd_ams_score : option Z;
  cd_ams_question_index : option Z;
  cd_lifestyle_answers : option (list (string * Any));
  cd_lifestyle_question_index : option Z
}.

(** The handler together with the number of clock readings made so far.
    The snapshot file is written by [_save_data] and read only by the
    constructor; a failed write is logged and changes nothing else, so the
    file is not part of the state. *)
Record EnhancedConversationHandler := {
  ticks : nat;
  _user_data : list (Z * UserProgress);
  ttl_hours : Z;
  timeout_minutes : Z;
  cleanup_interval_minutes : Z
}.

(** [timedelta(hours=n)] *)
Definition hours (n : Z) : Z := n * 3600000000.

Definition set_user_data (d : list (Z * UserProgress))
    (self : EnhancedConversationHandler) : EnhancedConversationHandler :=
  {| ticks := ticks self; _user_data := d; ttl_hours := ttl_hours self;
     timeout_minutes := timeout_minutes self;
     cleanup_interval_minutes := cleanup_interval_minutes self |}.

Definition set_ticks (n : nat) (self : EnhancedConversationHandler)
  : EnhancedConversationHandler :=
  {| ticks := n; _user_data := _user_data self; ttl_hours := ttl_hours self;
     timeout_minutes := timeout_minutes self;
     cleanup_interval_minutes := cleanup_interval_minutes self |}.

(** [datetime.now()] *)
Definition datetime_now (self : EnhancedConversationHandler)
  : Z * EnhancedConversationHandler :=
  (clock (ticks self), set_ticks (S (ticks self)) self).

Definition _is_data_valid (progress : UserProgress) (self : EnhancedConversationHandler)
  : bool * EnhancedConversationHandler :=
  let '(now, self) := datetime_now self in
  let ttl_threshold := now - hours (ttl_hours self) in
  (ttl_threshold <? last_activity progress, self).

(** The first loop of [_cleanup_expired_data]: the keys of the expired
    entries ([self] only advances its clock here). *)
Fixpoint expired_users (items : list (Z * UserProgress))
    (self : EnhancedConversationHandler) : list Z * EnhancedConversationHandler :=
  match items with
  | [] => ([], self)
  | (uid, progress) :: items' =>
      let '(ok, self) := _is_data_valid progress self in
      let '(rest, self) := expired_users items' self in
      (if ok then rest else uid :: rest, self)
  end.

Definition _cleanup_expired_data (self : EnhancedConversationHandler)
  : EnhancedConversationHandler :=
  let '(expired, self) := expired_users (_user_data self) self in
  set_user_data (foldl (fun d uid => od_del uid d) (_user_data self) expired) self.

(** [_save_data]: the cleanup pass, then the write of the snapshot. *)
Definition _save_data (self : EnhancedConversationHandler)
  : EnhancedConversationHandler :=
  _cleanup_expired_data self.

Definition save_progress (user_id' : Z) (state : ConversationState)
    (context_data : ContextData) (self : EnhancedConversationHandler)
  : EnhancedConversationHandler :=
  let '(now, self) := datetime_now self in
  let progress :=
    match od_get user_id' (_user_data self) with
    | Some progress =>
        {| user_id := user_id progress;
           current_state := state;
           adam_answers := adam_answers progress;
           ams_score := ams_score progress;
           ams_question_index := ams_question_index progress;
           lifestyle_answers := lifestyle_answers progress;
           lifestyle_question_index := lifestyle_question_index progress;
           start_time := start_time progress;
           last_activity := now |}
    | None =>
        {| user_id := user_id';
           current_state := state;
           adam_answers := [];
           ams_score := 0;
           ams_question_index := 0;
           lifestyle_answers := [];
           lifestyle_question_index := 0;
           start_time := now;
           last_activity := now |}
    end in
  let progress :=
    {| user_id := user_id progress;
       current_state := current_state progress;
       adam_answers := default (adam_answers progress) (cd_adam_answers context_data);
       ams_score := default (ams_score progress) (cd_ams_score context_data);
       ams_question_index :=
         default (ams_question_index progress) (cd_ams_question_index context_data);
       lifestyle_answers :=
         default (lifestyle_answers progress) (cd_lifestyle_answers context_data);
       lifestyle_question_index :=
         default (lifestyle_question_index progress)
                 (cd_lifestyle_question_index context_data);
       start_time := start_time progress;
       last_activity := last_activity progress |} in
  _save_data (set_user_data (od_set user_id' progress (_user_data self)) self).

Definition load_progress (user_id' : Z) (self : EnhancedConversationHandler)
  : option UserProgress * EnhancedConversationHandler :=
  match od_get user_id' (_user_data self) with
  | None => (None, self)
  | Some progress =>
      let '(ok, self) := _is_data_valid progress self in
      if negb ok then
        (None, _save_data (set_user_data (od_del user_id' (_user_data self)) self))
      else (Some progress, self)
  end.

(** [timedelta(minutes=n)] *)
Definition minutes (n : Z) : Z := n * 60000000.

Definition nl : string := String (ascii_of_nat 10) EmptyString.

(** The reminder of [handle_timeout], with the bytes of the source literal. *)
Definition timeout_reminder : string :=
  "â° Hola! Veo que has estado inactivo por un tiempo." +:+
  nl +:+
  nl +:+
  "Tienes un cuestionario en progreso. Â¿Te gustarÃ­a continuar donde lo dejaste?" +:+
  nl +:+
  nl +:+
  "Usa /status para ver tu progreso actual o /start para continuar.".

Definition _count_answered_questions (progress : UserProgress) : Z :=
  Z.of_nat (length (adam_answers progress))
  + ams_question_index progress + lifestyle_question_index progress.

(** A [UserProgress] is always true as a condition, so [if not progress]
    only tells a session from [None]. *)
Definition handle_timeout (user_id' : Z) (self : EnhancedConversationHandler)
  : option string * EnhancedConversationHandler :=
  let '(progress, self) := load_progress user_id' self in
  match progress with
  | None => (None, self)
  | Some progress =>
      let '(now, self) := datetime_now self in
      let timeout_threshold := now - minutes (timeout_minutes self) in
      if last_activity progress <? timeout_threshold
      then (Some timeout_reminder, self)
      else (None, self)
  end.

Definition clear_user_data (user_id' : Z) (self : EnhancedConversationHandler)
  : EnhancedConversationHandler :=
  match od_get user_id' (_user_data self) with
  | Some _ => _save_data (set_user_data (od_del user_id' (_user_data self)) self)
  | None => self
  end.

(** The five keys written into [context.user_data]; the two containers
    are copies, which values do not tell from the originals. *)
Definition restore_context_from_progress (progress : UserProgress) : ContextData :=
  {| cd_adam_answers := Some (adam_answers progress);
     cd_ams_score := Some (ams_score progress);
     cd_ams_question_index := Some (ams_question_index progress);
     cd_lifestyle_answers := Some (lifestyle_answers progress);
     cd_lifestyle_question_index := Some (lifestyle_question_index progress) |}.

Definition has_active_session (user_id' : Z) (self : EnhancedConversationHandler)
  : bool * EnhancedConversationHandler :=
  let '(progress, self) := load_progress user_id' self in
  (match progress with Some _ => true | None => false end, self).

(** The cancellation of the periodic task leaves the store alone. *)
Definition cleanup (self : EnhancedConversationHandler) : EnhancedConversationHandler :=
  _save_data (_cleanup_expired_data self).

(** *** Derived notions used to state the properties *)

(** The entries that a pass over [items] finds valid, the first of them
    at the clock reading number [tick], each later one at the next. *)
Fixpoint valid_entries (ttl : Z) (tick : nat) (items : list (Z * UserProgress))
  : list (Z * UserProgress) :=
  match items with
  | [] => []
  | (uid, progress) :: items' =>
      if clock tick - hours ttl <? last_activity progress
      then (uid, progress) :: valid_entries ttl (S tick) items'
      else valid_entries ttl (S tick) items'
  end.

(** No stored session starts after its last activity or was active
    after the next reading of the clock. *)
Definition times_ordered (self : EnhancedConversationHandler) : Prop :=
  forall (uid : Z) (progress : UserProgress),
    od_get uid (_user_data self) = Some progress ->
    start_time progress <= last_activity progress
    /\ last_activity progress <= clock (ticks self).

End store.

Arguments UserProgress : clear implicits.
Arguments ContextData : clear implicits.
Arguments EnhancedConversationHandler : clear implicits.

End conversation_handler.

(** ** [main.py]: the answers that the handlers of the questionnaire put
       into [context.user_data], and the results computed from them

    The messages sent, the log and the calls of [save_progress] read
    [context.user_data] without changing it; they are left out. *)

Module main.
Import PyStr.

(** The values held by [lifestyle_answers]: integers and truth values. *)
Inductive Answer := AInt (n : Z) | ABool (b : bool).

(** A truth value counts as 1 or 0 when compared with an integer. *)
Definition as_int (a : Answer) : Z :=
  match a with
  | AInt n => n
  | ABool b => if b then 1 else 0
  end.

(** An answer taken as a condition *)
Definition truthy (a : Answer) : bool := negb (as_int a =? 0).

(** The keys of [context.user_data] that the handlers use.  The two
    indices are read with [get] and a default, so they may be missing. *)
Record UserData := {
  adam_answers : list bool;
  ams_score : Z;
  ams_question_index : option Z;
  lifestyle_answers : gmap string Answer;
  lifestyle_question_index : option Z
}.

(** [len(AMS_QUESTIONS)] *)
Definition len_AMS_QUESTIONS : Z := 17.

(** What the branch [start_yes] of [start_quiz_callback] stores. *)
Definition start_yes : UserData :=
  {| adam_answers := []; ams_score := 0; ams_question_index := Some 0;
     lifestyle_answers := ∅; lifestyle_question_index := Some 0 |}.

(** [len(ADAM_QUESTIONS)] *)
Definition len_ADAM_QUESTIONS : Z := 10.

(** [adam_handler]: the answer is appended, [True] for the button
    [adam_yes], and the index of the AMS questions is set again when no
    question is left; [data] is [query.data]. *)
Definition adam_handler (data : string) (d : UserData) : UserData :=
  let answers := adam_answers d ++ [String.eqb data "adam_yes"] in
  let current_question_index := Z.of_nat (length answers) in
  {| adam_answers := answers;
     ams_score := ams_score d;
     ams_question_index :=
       if current_question_index <? len_ADAM_QUESTIONS
       then ams_question_index d
       else Some 0;
     lifestyle_answers := lifestyle_answers d;
     lifestyle_question_index := lifestyle_question_index d |}.

(** [ams_handler]: an integer from 1 to 5 is added to the score and the
    index moves on, and the index of the lifestyle questions is set when
    the last question has been answered; any other text changes nothing. *)
Definition ams_handler (user_input : string) (d : UserData) : UserData :=
  let current_question_index := default 0 (ams_question_index d) in
  match py_int user_input with
  | Some score =>
      if (1 <=? score) && (score <=? 5) then
        let current_question_index := current_question_index + 1 in
        {| adam_answers := adam_answers d;
           ams_score := ams_score d + score;
           ams_question_index := Some current_question_index;
           lifestyle_answers := lifestyle_answers d;
           lifestyle_question_index :=
             if current_question_index <? len_AMS_QUESTIONS
             then lifestyle_question_index d
             else Some 0 |}
      else d
  | None => d
  end.

(** The validation block of [lifestyle_handler]: [None] stands for
    [ValueError], [Some None] for an index that no branch takes, and
    [Some (Some a)] for the answer stored. *)
Definition lifestyle_answer (current_question_index : Z) (user_input : string)
  : option (option Answer) :=
  if current_question_index =? 0 then
    age ← py_int user_input;
    if (age <=? 0) || (120 <? age) then None else Some (Some (AInt age))
  else if current_question_index =? 1 then
    fat ← py_int user_input;
    if negb ((0 <=? fat) && (fat <=? 100)) then None else Some (Some (AInt fat))
  else if (current_question_index =? 2) || (current_question_index =? 3) then
    score ← py_int user_input;
    if negb ((1 <=? score) && (score <=? 5)) then None else Some (Some (AInt score))
  else if current_question_index =? 4 then
    times ← py_int user_input;
    if times <? 0 then None else Some (Some (AInt times))
  else if current_question_index =? 5 then
    if negb (mem (lower user_input)
               [String "s" (String (ascii_of_nat 237) EmptyString); "si"; "no"])
    then None
    else Some (Some (ABool (String.prefix "s" (lower user_input))))
  else Some None.

(** [lifestyle_handler]: a rejected answer changes nothing; otherwise
    the answer is stored under [q] followed by the index, and the index
    moves on.  The handler goes on with [send_final_results] when the new
    index is not below the number of questions. *)
Definition lifestyle_handler (user_input : string) (d : UserData) : UserData :=
  let current_question_index := default 0 (lifestyle_question_index d) in
  let question_key := "q" +:+ pretty current_question_index in
  match lifestyle_answer current_question_index user_input with
  | None => d
  | Some stored =>
      {| adam_answers := adam_answers d;
         ams_score := ams_score d;
         ams_question_index := ams_question_index d;
         lifestyle_answers :=
           match stored with
           | Some a => <[question_key := a]> (lifestyle_answers d)
           | None => lifestyle_answers d
           end;
         lifestyle_question_index := Some (current_question_index + 1) |}
  end.

(** [lifestyle_button_handler], for the buttons of the last question;
    [data] is [query.data].  It goes on with [send_final_results]. *)
Definition lifestyle_button_handler (data : string) (d : UserData) : UserData :=
  let current_question_index := default 5 (lifestyle_question_index d) in
  let question_key := "q" +:+ pretty current_question_index in
  {| adam_answers := adam_answers d;
     ams_score := ams_score d;
     ams_question_index := ams_question_index d;
     lifestyle_answers :=
       <[question_key := ABool (String.eqb data "ls_yes")]> (lifestyle_answers d);
     lifestyle_question_index := lifestyle_question_index d |}.

(** The interpretation of the AMS score in [send_final_results] *)
Definition ams_interpretation (ams_score' : Z) : string :=
  if ams_score' <=? 26 then "No significativo"
  else if (27 <=? ams_score') && (ams_score' <=? 36) then "Leve"
  else if (37 <=? ams_score') && (ams_score' <=? 49) then "Moderado"
  else "Severo".

(** The local list [lifestyle_factors] of [send_final_results], as its
    section 3 builds it from the dictionary of answers; it is a part of
    [send_final_results] below and nothing on its own. *)
Definition lifestyle_factors (answers : gmap string Answer) : list string :=
  (if 20 <? as_int (default (AInt 15) (answers !! "q2"))
   then ["Grasa corporal elevada"] else [])
  ++ (if as_int (default (AInt 3) (answers !! "q3")) <=? 2
      then ["Mala calidad del sueño"] else [])
  ++ (if 4 <=? as_int (default (AInt 3) (answers !! "q4"))
      then ["Alto nivel de estrés"] else [])
  ++ (if as_int (default (AInt 2) (answers !! "q5")) <? 2
      then ["Poco ejercicio de fuerza"] else [])
  ++ (if truthy (default (ABool false) (answers !! "q6"))
      then ["Consumo regular de alcohol/tabaco"] else []).

(** [adam_answers[0]] and [adam_answers[6]] raise this on a shorter list;
    [_classify_error] tests for none of its classes. *)
Definition IndexError (message : string) : error_handler.Exception :=
  {| error_handler.exn_class := error_handler.OtherException;
     error_handler.exn_str := message |}.

(** The dictionary stored under [final_results], without its
    [completion_date]. *)
Record FinalResults := {
  adam_result : string;
  ams_result : string;
  lifestyle_summary : string;
  adam_yes_count : Z;
  final_ams_score : Z;
  final_ams_interpretation : string;
  final_lifestyle_factors : list string
}.

(** [send_final_results], sections 1 to 3 of its [try] block: the values
    that go into the message and, once the message is sent, into
    [final_results].  [inl e] is an exception raised on the way: the
    [except] block catches it and an error message is sent in place of the
    results. *)
Definition send_final_results (d : UserData) : error_handler.Exception + FinalResults :=
  match adam_answers d !! 0%nat, adam_answers d !! 6%nat with
  | Some is_q1_yes, Some is_q7_yes =>
      let total_yes :=
        Z.of_nat (length (List.filter (fun answer : bool => answer) (adam_answers d))) in
      let adam_result' :=
        if is_q1_yes || is_q7_yes || (3 <=? total_yes)
        then "🔴 Posible déficit."
        else "🟢 No se detecta un posible déficit." in
      let ams_interpretation' := ams_interpretation (ams_score d) in
      let ams_result' :=
        pretty (ams_score d) +:+ " puntos → " +:+ ams_interpretation' +:+ "." in
      let lifestyle_factors' := lifestyle_factors (lifestyle_answers d) in
      let lifestyle_summary' :=
        match lifestyle_factors' with
        | [] => "Tus hábitos de estilo de vida parecen adecuados."
        | _ :: _ => "Factores a mejorar: " +:+ join ", " lifestyle_factors' +:+ "."
        end in
      inr {| adam_result := adam_result';
             ams_result := ams_result';
             lifestyle_summary := lifestyle_summary';
             adam_yes_count := total_yes;
             final_ams_score := ams_score d;
             final_ams_interpretation := ams_interpretation';
             final_lifestyle_factors := lifestyle_factors' |}
  | _, _ => inl (IndexError "list index out of range")
  end.

(** *** Derived notions used to state the properties *)

(** Successive buttons handled by [adam_handler] *)
Definition adam_all (buttons : list string) (d : UserData) : UserData :=
  foldl (fun d data => adam_handler data d) d buttons.

(** Successive texts handled by [ams_handler] and by [lifestyle_handler] *)
Definition ams_all (inputs : list string) (d : UserData) : UserData :=
  foldl (fun d user_input => ams_handler user_input d) d inputs.

Definition lifestyle_all (inputs : list string) (d : UserData) : UserData :=
  foldl (fun d user_input => lifestyle_handler user_input d) d inputs.

End main.

(** * Properties *)

(** ** The embedding on concrete inputs *)

Section examples.
Import PyStr security_manager.

Example py_int_examples :
  py_int "25" = Some 25 /\ py_int " +7 " = Some 7 /\ py_int "-3" = Some (-3)
  /\ py_int "1_000" = Some 1000 /\ py_int "1__0" = None /\ py_int "5.0" = None
  /\ py_int "+ 5" = None /\ py_int EmptyString = None.
Proof. vm_compute. repeat split; reflexivity. Qed.

Example py_float_examples :
  (float_in_0_50 <$> py_float "12.5") = Some true
  /\ (float_in_0_50 <$> py_float "1.5e1") = Some true
  /\ (float_in_0_50 <$> py_float "50.0000000000000035") = Some true
  /\ (float_in_0_50 <$> py_float "50.0000000000000036") = Some false
  /\ (float_in_0_50 <$> py_float "-1e-400") = Some true
  /\ (float_in_0_50 <$> py_float "-0.1") = Some false
  /\ (float_in_0_50 <$> py_float "nan") = Some false
  /\ (float_in_0_50 <$> py_float "Infinity") = Some false
  /\ py_float "1_.5" = None /\ py_float "." = None /\ py_float "1e" = None.
Proof. vm_compute. repeat split; reflexivity. Qed.

Example sanitize_input_example :
  sanitize_input "  a <b>   c & d  " = "a &lt;b&gt; c &amp; d".
Proof. vm_compute. reflexivity. Qed.

Example first_malicious_pattern_examples :
  first_malicious_pattern "hello <SCRIPT src=x>alert(1)</Script>"
  = Some "<script[^>]*>.*?</script>"
  /\ first_malicious_pattern "select name from users" = Some "SELECT.*FROM"
  /\ first_malicious_pattern "a onclick = b" = Some "on\w+\s*="
  /\ first_malicious_pattern "once upon a time" = None
  /\ first_malicious_pattern "25" = None.
Proof. vm_compute. repeat split; reflexivity. Qed.

Example validate_input_age_examples :
  fst (validate_input "25" AGE 7 0 (init 10)) = valid
  /\ fst (validate_input "150" AGE 7 0 (init 10))
     = invalid "La edad debe estar entre 18 y 120 años."
               (Some "Introduce tu edad como un número entero (ej: 25).")
               (Some "Ejemplo: 30").
Proof. vm_compute. split; reflexivity. Qed.

End examples.

(** ** The event log of the security manager *)

Section security_events.
Import security_manager.

Lemma last_n_length {A} (n : nat) (l : list A) : (length (last_n n l) <= n)%nat.
Proof. unfold last_n. rewrite length_drop. lia. Qed.

Lemma last_n_short {A} (n : nat) (l : list A) : (length l <= n)%nat -> last_n n l = l.
Proof.
  intros Hle. unfold last_n.
  replace (length l - n)%nat with 0%nat by lia. reflexivity.
Qed.

Lemma last_n_app {A} (n : nat) (l l' : list A) :
  last_n n (last_n n l ++ l') = last_n n (l ++ l').
Proof.
  unfold last_n at 2.
  rewrite <- (drop_app_le l l' (length l - n)) by lia.
  unfold last_n. rewrite drop_drop, length_drop.
  f_equal. rewrite length_app. lia.
Qed.

Lemma log_security_event_events (event : SecurityEvent) (self : SecurityManager) :
  security_events (log_security_event event self)
  = last_n 1000 (security_events self ++ [event]).
Proof.
  unfold log_security_event.
  destruct (1000 <? length (security_events self ++ [event]))%nat eqn:Hlen; simpl.
  - reflexivity.
  - apply Nat.ltb_ge in Hlen. symmetry. apply last_n_short. exact Hlen.
Qed.

Lemma log_security_event_counts (event : SecurityEvent) (self : SecurityManager) :
  user_error_counts (log_security_event event self) = user_error_counts self.
Proof. unfold log_security_event. destruct (_ <? _)%nat; reflexivity. Qed.

Lemma log_security_event_rate_data (event : SecurityEvent) (self : SecurityManager) :
  rate_limit_data (log_security_event event self) = rate_limit_data self.
Proof. unfold log_security_event. destruct (_ <? _)%nat; reflexivity. Qed.

Lemma log_all_snoc (events : list SecurityEvent) (event : SecurityEvent)
    (self : SecurityManager) :
  log_all (events ++ [event]) self = log_security_event event (log_all events self).
Proof. unfold log_all. rewrite foldl_app. reflexivity. Qed.

Lemma log_all_events (events : list SecurityEvent) (self : SecurityManager) :
  events <> [] ->
  security_events (log_all events self) = last_n 1000 (security_events self ++ events).
Proof.
  induction events as [|event events IH] using rev_ind; intros Hne.
  - congruence.
  - rewrite log_all_snoc, log_security_event_events.
    destruct events as [|e0 events'].
    + reflexivity.
    + rewrite IH by discriminate.
      rewrite last_n_app, <- app_assoc. reflexivity.
Qed.

(** As long as nothing but [log_security_event] touches the list: after
    any sequence of calls, starting from any list of events, the call that
    logs [event] leaves at most 1000 events in [security_events], and they
    are the last 1000, by position, of the starting list followed by
    everything appended. *)
Lemma log_security_event_keeps_last_1000 :
  forall (self : SecurityManager) (events : list SecurityEvent) (event : SecurityEvent),
    let self' := log_security_event event (log_all events self) in
    (length (security_events self') <= 1000)%nat
    /\ security_events self'
       = last_n 1000 (security_events self ++ events ++ [event])
    /\ exists dropped,
         security_events self ++ events ++ [event] = dropped ++ security_events self'.
Proof.
  intros self events event self'.
  assert (Hev : security_events self'
                = last_n 1000 (security_events self ++ events ++ [event])).
  { unfold self'. rewrite <- log_all_snoc, log_all_events.
    - reflexivity.
    - destruct events; discriminate. }
  split; [|split].
  - rewrite Hev. apply last_n_length.
  - exact Hev.
  - rewrite Hev. unfold last_n.
    eexists. symmetry. apply take_drop.
Qed.

(** C10. The bound of 1000 events holds, but the events kept are not
    always the most recently appended ones.  Log 1000 events with the
    timestamps 1 to 1000, ask for the events with [get_security_events]
    without a filter, then log one more event, with timestamp 1001.  The
    query has sorted the manager's own list newest first, so the event in
    front, the one with timestamp 1000 and the most recent before the
    last, is the one dropped, while the oldest event, with timestamp 1, is
    kept.  The same query with a filter sorts a new list, and then the
    oldest event is the one dropped. *)
Theorem log_security_event_drops_newest_after_query :
  let event t :=
    {| ev_user_id := 7; event_type := INVALID_INPUT_REPEATED; description := "repeated";
       timestamp := t; severity := LOW; additional_data := None |} in
  let logged := log_all (map (fun i => event (Z.of_nat i)) (seq 1 1000)) (init 10) in
  let after_query := snd (get_security_events None None None 100 logged) in
  let after_filtered_query := snd (get_security_events (Some 7) None None 100 logged) in
  let kept self := map timestamp (security_events (log_security_event (event 1001) self)) in
  map timestamp (security_events logged) = map Z.of_nat (seq 1 1000)
  /\ map timestamp (fst (get_security_events None None None 100 logged))
     = map Z.of_nat (rev (seq 901 100))
  /\ map timestamp (security_events after_query) = map Z.of_nat (rev (seq 1 1000))
  /\ kept after_query = map Z.of_nat (rev (seq 1 999)) ++ [1001]
  /\ length (kept after_query) = 1000%nat
  /\ existsb (Z.eqb 1000) (kept after_query) = false
  /\ existsb (Z.eqb 1) (kept after_query) = true
  /\ kept after_filtered_query = map Z.of_nat (seq 2 1000)
  /\ kept logged = map Z.of_nat (seq 2 1000).
Proof. vm_compute. repeat split. Qed.

End security_events.

(** ** The rate limiter *)

Section rate_limiter.
Import security_manager.

(** X2. A call made while a block is active is rejected before the
    request is counted: it returns [False] and changes nothing. *)
Lemma check_rate_limit_while_blocked (user_id now until : Z) (info : RateLimitInfo)
    (self : SecurityManager) :
  rate_limit_data self !! user_id = Some info ->
  is_blocked info = true ->
  block_until info = Some until ->
  now < until ->
  check_rate_limit user_id now self = (false, self).
Proof.
  intros Hget Hb Hu Hlt. unfold check_rate_limit.
  rewrite Hget. simpl. rewrite Hb, Hu.
  apply Z.ltb_lt in Hlt. rewrite Hlt.
  f_equal. unfold store_rate_info. rewrite insert_id by exact Hget.
  destruct self; reflexivity.
Qed.

Lemma check_rate_limit_while_blocked_witness :
  let blocked :=
    snd (check_rate_limit_run 42 (firstn 11 twenty_calls) (init 10)) in
  check_rate_limit 42 19000000 blocked = (false, blocked).
Proof.
  apply (check_rate_limit_while_blocked 42 19000000 (10000000 + minutes 1)
           {| rl_user_id := 42; requests_count := 11; window_start := 0;
              is_blocked := true; block_until := Some (10000000 + minutes 1) |}).
  - vm_compute. reflexivity.
  - reflexivity.
  - reflexivity.
  - vm_compute. reflexivity.
Defined.

(** X3. The first request of a user is admitted and counted in a fresh
    record, whatever the other users have done, as long as the limit
    allows one request. *)
Lemma check_rate_limit_first_request (user_id now : Z) (self : SecurityManager) :
  rate_limit_data self !! user_id = None ->
  1 <= rate_limit_per_minute self ->
  check_rate_limit user_id now self
  = (true,
     store_rate_info user_id
       {| rl_user_id := user_id; requests_count := 1; window_start := now;
          is_blocked := false; block_until := None |}
       self).
Proof.
  intros Hnew Hlim. unfold check_rate_limit. rewrite Hnew. cbn.
  replace (minutes 1 <? now - now) with false
    by (symmetry; apply Z.ltb_ge; unfold minutes; lia).
  cbn. replace (rate_limit_per_minute self <? 0 + 1) with false
    by (symmetry; apply Z.ltb_ge; lia).
  reflexivity.
Qed.

Lemma check_rate_limit_first_request_witness :
  check_rate_limit 42 0 (init 10)
  = (true,
     store_rate_info 42
       {| rl_user_id := 42; requests_count := 1; window_start := 0;
          is_blocked := false; block_until := None |}
       (init 10)).
Proof.
  apply (check_rate_limit_first_request 42 0 (init 10)).
  - reflexivity.
  - cbn. lia.
Defined.

(** C1 (behaviour of the code on the input of the claim). Of twenty calls
    within one window, the first ten are admitted and the other ten are
    rejected; the eleventh records a block of one minute; the twentieth
    is rejected by that same block, the count stays at eleven, and the
    only event logged carries [block_minutes = 1]: no block of ten minutes
    is recorded. *)
Theorem check_rate_limit_twentieth_call_keeps_one_minute_block :
  let after11 := check_rate_limit_run 42 (take 11 twenty_calls) (init 10) in
  let after20 := check_rate_limit_run 42 twenty_calls (init 10) in
  fst after20 = replicate 10 true ++ replicate 10 false
  /\ rate_limit_data (snd after11) !! 42
     = Some {| rl_user_id := 42; requests_count := 11; window_start := 0;
               is_blocked := true; block_until := Some (10000000 + minutes 1) |}
  /\ rate_limit_data (snd after20) !! 42 = rate_limit_data (snd after11) !! 42
  /\ map additional_data (security_events (snd after20))
     = [Some [("requests_count", VInt 11); ("block_minutes", VInt 1)]].
Proof. vm_compute. repeat split; reflexivity. Qed.

(** X1. With a limit of at least one request, the count of a user who
    is not blocked never exceeds the limit, and this is kept by every
    call; so whenever a call logs a RATE_LIMIT_EXCEEDED event, the count
    is the limit plus one and the block is of one minute. *)
Lemma check_rate_limit_blocks_one_minute (user_id now : Z) (self : SecurityManager) :
  1 <= rate_limit_per_minute self ->
  rate_data_ok self ->
  let '(ok, self') := check_rate_limit user_id now self in
  rate_limit_per_minute self' = rate_limit_per_minute self
  /\ rate_data_ok self'
  /\ (security_events self' = security_events self
      \/ exists event,
           security_events self' = last_n 1000 (security_events self ++ [event])
           /\ additional_data event
              = Some [("requests_count", VInt (rate_limit_per_minute self + 1));
                      ("block_minutes", VInt 1)]).
Proof.
  intros Hlim Hok. unfold check_rate_limit.
  set (info := default (new_rate_info user_id now) (rate_limit_data self !! user_id)).
  assert (Hinfo : (is_blocked info = false ->
                   requests_count info <= rate_limit_per_minute self)
                  /\ (is_blocked info = true -> is_Some (block_until info))).
  { unfold info. destruct (rate_limit_data self !! user_id) as [i|] eqn:Hget; simpl.
    - exact (Hok _ _ Hget).
    - split; [intros _; lia | discriminate]. }
  destruct Hinfo as [Hcount Hblock].
  assert (Hstore : forall i,
            ((is_blocked i = false -> requests_count i <= rate_limit_per_minute self)
             /\ (is_blocked i = true -> is_Some (block_until i))) ->
            rate_data_ok (store_rate_info user_id i self)).
  { intros i Hi u j. unfold store_rate_info. simpl.
    rewrite lookup_insert. case_decide.
    - intros [= <-]. exact Hi.
    - apply Hok. }
  destruct (is_blocked info) eqn:Hb; [destruct (block_until info) as [until|] eqn:Hu|].
  - (* an active or expired block *)
    destruct (now <? until).
    + split; [reflexivity|]. split; [|left; reflexivity].
      apply Hstore. rewrite Hb, Hu. split; [discriminate | eauto].
    + split; [reflexivity|]. split; [|left; reflexivity].
      apply Hstore. simpl. split; [intros _; lia | discriminate].
  - exfalso. destruct (Hblock eq_refl) as [? [=]].
  - (* not blocked *)
    specialize (Hcount eq_refl).
    set (info' := if minutes 1 <? now - window_start info then _ else info).
    assert (Hc' : requests_count info' <= rate_limit_per_minute self
                  /\ is_blocked info' = false).
    { unfold info'. destruct (minutes 1 <? now - window_start info); simpl.
      - split; [lia | reflexivity].
      - split; [exact Hcount | exact Hb]. }
    destruct Hc' as [Hc' Hb'].
    destruct (rate_limit_per_minute self <? requests_count info' + 1) eqn:Hover.
    + apply Z.ltb_lt in Hover.
      assert (Heq : requests_count info' + 1 = rate_limit_per_minute self + 1) by lia.
      split; [|split].
      * unfold log_security_event. destruct (_ <? _)%nat; reflexivity.
      * intros u j. rewrite log_security_event_rate_data.
        unfold log_security_event.
        assert (Hs := Hstore
          {| rl_user_id := rl_user_id info;
             requests_count := requests_count info' + 1;
             window_start := window_start info';
             is_blocked := true;
             block_until :=
               Some (now + minutes (Z.min (requests_count info' + 1
                                           - rate_limit_per_minute self) 60)) |}).
        simpl in Hs.
        destruct (_ <? _)%nat; simpl; apply Hs; (split; [discriminate | eauto]).
      * right. eexists. split.
        -- rewrite log_security_event_events. reflexivity.
        -- simpl. rewrite Heq.
           replace (rate_limit_per_minute self + 1 - rate_limit_per_minute self)
             with 1 by lia.
           reflexivity.
    + apply Z.ltb_ge in Hover.
      split; [reflexivity|]. split; [|left; reflexivity].
      apply Hstore. simpl. rewrite Hb'. split; [intros _; lia | discriminate].
Qed.

Lemma check_rate_limit_blocks_one_minute_witness :
  let '(ok, self') := check_rate_limit 42 0 (init 10) in
  rate_limit_per_minute self' = rate_limit_per_minute (init 10)
  /\ rate_data_ok self'
  /\ (security_events self' = security_events (init 10)
      \/ exists event,
           security_events self' = last_n 1000 (security_events (init 10) ++ [event])
           /\ additional_data event
              = Some [("requests_count", VInt (rate_limit_per_minute (init 10) + 1));
                      ("block_minutes", VInt 1)]).
Proof.
  apply (check_rate_limit_blocks_one_minute 42 0 (init 10)).
  - cbn. lia.
  - intros user_id info Hget. unfold init in Hget. cbn [rate_limit_data] in Hget.
    rewrite lookup_empty in Hget. discriminate.
Defined.

End rate_limiter.

(** ** Regular expression search *)

Section regex_semantics.
Import Regex.

Lemma string_app_cons (c : ascii) (s t : string) :
  String c s +:+ t = String c (s +:+ t).
Proof. reflexivity. Qed.

Lemma string_app_nil_l (s : string) : EmptyString +:+ s = s.
Proof. reflexivity. Qed.

Lemma string_app_eq_nil (s t : string) :
  s +:+ t = EmptyString -> s = EmptyString /\ t = EmptyString.
Proof.
  destruct s as [|c s]; [rewrite string_app_nil_l; auto|].
  rewrite string_app_cons. discriminate.
Qed.

Lemma string_app_eq_cons (s t u : string) (c : ascii) :
  s +:+ t = String c u ->
  (s = EmptyString /\ t = String c u) \/ exists s', s = String c s' /\ u = s' +:+ t.
Proof.
  destruct s as [|d s]; [rewrite string_app_nil_l; auto|].
  rewrite string_app_cons. intros H. injection H as -> <-. right. eauto.
Qed.

Lemma matches_void (s : string) : ~ matches Void s.
Proof. intros H. inversion H. Qed.

Lemma matches_eps_inv (s : string) : matches Eps s -> s = EmptyString.
Proof. intros H. inversion H. reflexivity. Qed.

Lemma matches_cat_inv (r1 r2 : regex) (s : string) :
  matches (Cat r1 r2) s ->
  exists s1 s2, s = s1 +:+ s2 /\ matches r1 s1 /\ matches r2 s2.
Proof. intros H. inversion H; subst. eauto. Qed.

Lemma matches_alt_inv (r1 r2 : regex) (s : string) :
  matches (Alt r1 r2) s -> matches r1 s \/ matches r2 s.
Proof. intros H. inversion H; subst; auto. Qed.

Lemma nullable_matches (r : regex) : nullable r = true <-> matches r EmptyString.
Proof.
  induction r as [| |p|r1 IH1 r2 IH2|r1 IH1 r2 IH2|r IH]; cbn.
  - split; [discriminate | intros H; inversion H].
  - split; [intros _; constructor | reflexivity].
  - split; [discriminate | intros H; inversion H].
  - rewrite andb_true_iff, IH1, IH2. split.
    + intros [H1 H2]. exact (matches_cat _ _ _ _ H1 H2).
    + intros H. apply matches_cat_inv in H. destruct H as (s1 & s2 & Heq & H1 & H2).
      symmetry in Heq. apply string_app_eq_nil in Heq. destruct Heq as [-> ->]. auto.
  - rewrite orb_true_iff, IH1, IH2. split.
    + intros [H|H]; [apply matches_alt_l | apply matches_alt_r]; exact H.
    + apply matches_alt_inv.
  - split; [intros _; constructor | reflexivity].
Qed.

Lemma cat_matches (r1 r2 : regex) (s : string) :
  matches (cat r1 r2) s <-> matches (Cat r1 r2) s.
Proof.
  assert (Hvoid_l : forall r, matches (Cat Void r) s <-> matches Void s).
  { intros r. split; intros H; [|inversion H].
    apply matches_cat_inv in H. destruct H as (? & ? & _ & H & _). inversion H. }
  assert (Hvoid_r : forall r, matches (Cat r Void) s <-> matches Void s).
  { intros r. split; intros H; [|inversion H].
    apply matches_cat_inv in H. destruct H as (? & ? & _ & _ & H). inversion H. }
  assert (Heps : forall r, matches (Cat Eps r) s <-> matches r s).
  { intros r. split; intros H.
    - apply matches_cat_inv in H. destruct H as (s1 & s2 & -> & H1 & H2).
      apply matches_eps_inv in H1. subst s1. exact H2.
    - exact (matches_cat Eps r EmptyString s matches_eps H). }
  destruct r1, r2; cbn [cat];
    rewrite ?Hvoid_l, ?Hvoid_r, ?Heps; reflexivity.
Qed.

Lemma alt_matches (r1 r2 : regex) (s : string) :
  matches (alt r1 r2) s <-> matches (Alt r1 r2) s.
Proof.
  assert (Hl : forall r, matches (Alt Void r) s <-> matches r s).
  { intros r. split; intros H; [|apply matches_alt_r; exact H].
    apply matches_alt_inv in H. destruct H as [H|H]; [inversion H | exact H]. }
  assert (Hr : forall r, matches (Alt r Void) s <-> matches r s).
  { intros r. split; intros H; [|apply matches_alt_l; exact H].
    apply matches_alt_inv in H. destruct H as [H|H]; [exact H | inversion H]. }
  destruct r1, r2; cbn [alt]; rewrite ?Hl, ?Hr; reflexivity.
Qed.

(** A non-empty match of [Star r] starts with a non-empty match of [r]. *)
Lemma matches_star_cons (r : regex) (c : ascii) (s : string) :
  matches (Star r) (String c s) ->
  exists s1 s2, s = s1 +:+ s2 /\ matches r (String c s1) /\ matches (Star r) s2.
Proof.
  intros H. remember (Star r) as r' eqn:Hr. remember (String c s) as t eqn:Ht.
  revert s Ht. induction H as [| | | | | |r0 s1 s2 H1 _ H2 IH2]; intros u Ht;
    try discriminate.
  injection Hr as ->.
  apply string_app_eq_cons in Ht. destruct Ht as [[-> ->] | (s1' & -> & ->)].
  - apply IH2; reflexivity.
  - exists s1', s2. auto.
Qed.

Lemma deriv_matches (r : regex) (c : ascii) (s : string) :
  matches (deriv c r) s <-> matches r (String c s).
Proof.
  revert s. induction r as [| |p|r1 IH1 r2 IH2|r1 IH1 r2 IH2|r IH]; intros s; cbn [deriv].
  - split; intros H; inversion H.
  - split; intros H; inversion H.
  - destruct (p c) eqn:Hp; split; intros H.
    + apply matches_eps_inv in H. subst s. constructor. exact Hp.
    + inversion H; subst. constructor.
    + inversion H.
    + inversion H; subst. congruence.
  - assert (Hcat : matches (cat (deriv c r1) r2) s
                   <-> exists s1 s2, s = s1 +:+ s2
                                     /\ matches r1 (String c s1) /\ matches r2 s2).
    { rewrite cat_matches. split.
      - intros H. apply matches_cat_inv in H. destruct H as (s1 & s2 & -> & H1 & H2).
        apply IH1 in H1. eauto.
      - intros (s1 & s2 & -> & H1 & H2). apply IH1 in H1.
        exact (matches_cat _ _ _ _ H1 H2). }
    assert (Hsplit : matches (Cat r1 r2) (String c s)
                     <-> (matches r1 EmptyString /\ matches r2 (String c s))
                         \/ exists s1 s2, s = s1 +:+ s2
                                          /\ matches r1 (String c s1) /\ matches r2 s2).
    { split.
      - intros H. apply matches_cat_inv in H. destruct H as (t1 & t2 & Heq & H1 & H2).
        symmetry in Heq. apply string_app_eq_cons in Heq.
        destruct Heq as [[-> ->] | (s1 & -> & ->)]; [left; auto | right; eauto].
      - intros [[H1 H2] | (s1 & s2 & -> & H1 & H2)].
        + exact (matches_cat _ _ _ _ H1 H2).
        + exact (matches_cat _ _ _ _ H1 H2). }
    rewrite Hsplit. destruct (nullable r1) eqn:Hnull.
    + rewrite alt_matches. apply nullable_matches in Hnull. split.
      * intros H. apply matches_alt_inv in H. destruct H as [H|H].
        -- right. apply Hcat. exact H.
        -- left. split; [exact Hnull | apply IH2; exact H].
      * intros [[_ H] | H].
        -- apply matches_alt_r, IH2, H.
        -- apply matches_alt_l, Hcat, H.
    + rewrite Hcat. split; [auto|]. intros [[H _] | H]; [|exact H].
      apply nullable_matches in H. congruence.
  - rewrite alt_matches. split.
    + intros H. apply matches_alt_inv in H. destruct H as [H|H].
      * apply matches_alt_l, IH1, H.
      * apply matches_alt_r, IH2, H.
    + intros H. apply matches_alt_inv in H. destruct H as [H|H].
      * apply matches_alt_l, IH1, H.
      * apply matches_alt_r, IH2, H.
  - rewrite cat_matches. split.
    + intros H. apply matches_cat_inv in H. destruct H as (s1 & s2 & -> & H1 & H2).
      apply IH in H1. exact (matches_star_app r (String c s1) s2 H1 H2).
    + intros H. apply matches_star_cons in H. destruct H as (s1 & s2 & -> & H1 & H2).
      apply IH in H1. exact (matches_cat _ _ _ _ H1 H2).
Qed.

(** [matches_prefix] decides whether a prefix is matched. *)
Lemma matches_prefix_spec (r : regex) (s : string) :
  matches_prefix r s = true <-> exists m post, s = m +:+ post /\ matches r m.
Proof.
  revert r. induction s as [|c s IH]; intros r; cbn [matches_prefix].
  - rewrite orb_false_r, nullable_matches. split.
    + intros H. exists EmptyString, EmptyString. auto.
    + intros (m & post & Heq & H). symmetry in Heq.
      apply string_app_eq_nil in Heq. destruct Heq as [-> _]. exact H.
  - rewrite orb_true_iff, nullable_matches, IH. split.
    + intros [H | (m & post & -> & H)].
      * exists EmptyString, (String c s). auto.
      * exists (String c m), post. split; [reflexivity | apply deriv_matches; exact H].
    + intros (m & post & Heq & H). symmetry in Heq.
      apply string_app_eq_cons in Heq. destruct Heq as [[-> _] | (m' & -> & ->)].
      * left. exact H.
      * right. exists m', post. split; [reflexivity | apply deriv_matches; exact H].
Qed.

(** [search] decides whether some substring is matched, as [re.search]
    tells by returning a match or [None]. *)
Lemma search_spec (r : regex) (s : string) : search r s = true <-> found_in r s.
Proof.
  unfold found_in. induction s as [|c s IH]; cbn [search].
  - rewrite orb_false_r, matches_prefix_spec. split.
    + intros (m & post & Heq & H). exists EmptyString, m, post. auto.
    + intros (pre & m & post & Heq & H). symmetry in Heq.
      apply string_app_eq_nil in Heq. destruct Heq as [-> Heq].
      exists m, post. auto.
  - rewrite orb_true_iff, matches_prefix_spec, IH. split.
    + intros [(m & post & Heq & H) | (pre & m & post & -> & H)].
      * exists EmptyString, m, post. auto.
      * exists (String c pre), m, post. auto.
    + intros (pre & m & post & Heq & H). destruct pre as [|d pre].
      * left. exists m, post. auto.
      * rewrite string_app_cons in Heq. injection Heq as <- ->.
        right. exists pre, m, post. auto.
Qed.

End regex_semantics.

Section regex_facts.
Import Regex.

Lemma matches_prefix_nullable (r : regex) (s : string) :
  nullable r = true -> matches_prefix r s = true.
Proof. intros H. destruct s; simpl; rewrite H; reflexivity. Qed.

(** A match of a prefix is still there when text is added at the end. *)
Lemma matches_prefix_app (r : regex) (s t : string) :
  matches_prefix r s = true -> matches_prefix r (s +:+ t) = true.
Proof.
  revert r. induction s as [|c s IH]; intros r H; simpl in H.
  - apply matches_prefix_nullable.
    destruct (nullable r); [reflexivity | discriminate].
  - simpl. destruct (nullable r); [reflexivity|]. simpl in *. apply IH. exact H.
Qed.

Lemma search_here (r : regex) (s : string) :
  matches_prefix r s = true -> search r s = true.
Proof. intros H. destruct s; simpl in *; rewrite H; reflexivity. Qed.

(** [re.search] looks at every position: text in front hides nothing. *)
Lemma search_app_l (r : regex) (s t : string) :
  search r t = true -> search r (s +:+ t) = true.
Proof.
  intros H. induction s as [|c s IH]; simpl.
  - exact H.
  - rewrite IH. apply orb_true_r.
Qed.

Lemma lower_app (s t : string) :
  PyStr.lower (s +:+ t) = PyStr.lower s +:+ PyStr.lower t.
Proof. induction s as [|c s IH]; simpl; [reflexivity | rewrite IH; reflexivity]. Qed.

Lemma slice_to_length (n : nat) (s : string) :
  (String.length (PyStr.slice_to n s) <= n)%nat.
Proof.
  revert s. induction n as [|n IH]; intros [|c s]; simpl; try lia.
  specialize (IH s). lia.
Qed.

End regex_facts.

(** ** Validation of input *)

Section validation.
Import PyStr security_manager.

Lemma script_tag_detected (pre post : string) :
  first_malicious_pattern (pre +:+ "<script>alert(1)</script>" +:+ post)
  = Some "<script[^>]*>.*?</script>".
Proof.
  unfold first_malicious_pattern, malicious_patterns.
  rewrite !lower_app.
  match goal with
  | |- fst <$> List.find ?f (?p :: ?l) = _ =>
      assert (Hp : f p = true); [|cbv beta in Hp; cbn [List.find]; rewrite Hp; reflexivity]
  end.
  cbv beta. apply search_app_l, search_here, matches_prefix_app.
  vm_compute. reflexivity.
Qed.

(** The detector finds a pattern exactly when one matches. *)
Lemma first_malicious_pattern_spec (text : string) :
  (exists pattern, first_malicious_pattern text = Some pattern)
  <-> matches_malicious_pattern text.
Proof.
  unfold first_malicious_pattern, matches_malicious_pattern.
  destruct (List.find _ malicious_patterns) as [p|] eqn:Hfind.
  - apply find_some in Hfind. destruct Hfind as [Hin Hsearch].
    apply search_spec in Hsearch. split; [|intros _; cbn; eauto].
    intros _. exists p. auto.
  - split; [intros [pattern H]; discriminate|].
    intros (p & Hin & Hfound). apply search_spec in Hfound.
    pose proof (find_none _ _ Hfind p Hin) as Hnone. cbv beta in Hnone. congruence.
Qed.

Lemma first_malicious_pattern_listed (text pattern : string) :
  first_malicious_pattern text = Some pattern -> In pattern (map fst malicious_patterns).
Proof.
  unfold first_malicious_pattern.
  destruct (List.find _ malicious_patterns) as [p|] eqn:Hfind; [|discriminate].
  intros [= <-]. apply find_some in Hfind. apply in_map, Hfind.
Qed.

(** A rejection at the malicious-pattern stage. *)
Lemma malicious_input_rejected (text pattern : string) (input_type : InputType)
    (user_id now : Z) (self : SecurityManager) :
  first_malicious_pattern text = Some pattern ->
  exists event : SecurityEvent,
    validate_input text input_type user_id now self
    = ({| is_valid := false;
          error_message := Some "Entrada no válida detectada.";
          help_message :=
            Some "Por favor, introduce solo texto normal sin caracteres especiales.";
          suggested_format := None |},
       log_security_event event self)
    /\ security_events (log_security_event event self)
       = last_n 1000 (security_events self ++ [event])
    /\ user_error_counts (log_security_event event self) = user_error_counts self
    /\ event_type event = MALICIOUS_INPUT
    /\ severity event = HIGH
    /\ ev_user_id event = user_id
    /\ additional_data event
       = Some [("input", VStr (slice_to 100 text)); ("pattern", VStr pattern)]
    /\ (String.length (slice_to 100 text) <= 100)%nat.
Proof.
  intros Hdet.
  eexists. unfold validate_input, _detect_malicious_input. rewrite Hdet.
  split; [reflexivity|].
  split; [apply log_security_event_events|].
  split; [apply log_security_event_counts|].
  repeat (split; [reflexivity|]).
  apply slice_to_length.
Qed.

(** C5. Text in which one of the malicious patterns matches somewhere
    (case ignored), as in any text that contains
    [<script>alert(1)</script>], is rejected by [validate_input] for every
    kind of input with the same message, before sanitization and before
    any validator of a kind: the counters of validation errors are
    untouched, and exactly one event is appended to the log, of type
    MALICIOUS_INPUT and severity HIGH, whose stored input is the first 100
    characters of the raw text at most. *)
Theorem validate_input_rejects_malicious_input :
  (forall pre post : string,
      matches_malicious_pattern (pre +:+ "<script>alert(1)</script>" +:+ post))
  /\ forall (text : string) (input_type : InputType) (user_id now : Z)
            (self : SecurityManager),
      matches_malicious_pattern text ->
      exists (pattern : string) (event : SecurityEvent),
        In pattern (map fst malicious_patterns)
        /\ validate_input text input_type user_id now self
           = ({| is_valid := false;
                 error_message := Some "Entrada no válida detectada.";
                 help_message :=
                   Some "Por favor, introduce solo texto normal sin caracteres especiales.";
                 suggested_format := None |},
              log_security_event event self)
        /\ security_events (log_security_event event self)
           = last_n 1000 (security_events self ++ [event])
        /\ user_error_counts (log_security_event event self) = user_error_counts self
        /\ event_type event = MALICIOUS_INPUT
        /\ severity event = HIGH
        /\ ev_user_id event = user_id
        /\ additional_data event
           = Some [("input", VStr (slice_to 100 text)); ("pattern", VStr pattern)]
        /\ (String.length (slice_to 100 text) <= 100)%nat.
Proof.
  split.
  - intros pre post. apply first_malicious_pattern_spec.
    eexists. apply script_tag_detected.
  - intros text input_type user_id now self Hmal.
    apply first_malicious_pattern_spec in Hmal. destruct Hmal as [pattern Hdet].
    destruct (malicious_input_rejected text pattern input_type user_id now self Hdet)
      as [event Hevent].
    exists pattern, event. split; [|exact Hevent].
    apply (first_malicious_pattern_listed text), Hdet.
Qed.

Lemma validate_input_rejects_malicious_input_witness :
  exists (pattern : string) (event : SecurityEvent),
    In pattern (map fst malicious_patterns)
    /\ validate_input "<script>alert(1)</script>" AGE 7 0 (init 10)
       = ({| is_valid := false;
             error_message := Some "Entrada no válida detectada.";
             help_message :=
               Some "Por favor, introduce solo texto normal sin caracteres especiales.";
             suggested_format := None |},
          log_security_event event (init 10))
    /\ security_events (log_security_event event (init 10))
       = last_n 1000 (security_events (init 10) ++ [event])
    /\ user_error_counts (log_security_event event (init 10))
       = user_error_counts (init 10)
    /\ event_type event = MALICIOUS_INPUT
    /\ severity event = HIGH
    /\ ev_user_id event = 7
    /\ additional_data event
       = Some [("input", VStr (slice_to 100 "<script>alert(1)</script>"));
               ("pattern", VStr pattern)]
    /\ (String.length (slice_to 100 "<script>alert(1)</script>") <= 100)%nat.
Proof.
  apply (proj2 validate_input_rejects_malicious_input
               "<script>alert(1)</script>" AGE 7 0 (init 10)).
  exact (proj1 validate_input_rejects_malicious_input EmptyString EmptyString).
Defined.

(** *** The counters of validation errors *)

Lemma get_user_error_count_log (event : SecurityEvent) (user_id : Z) (name : string)
    (self : SecurityManager) :
  get_user_error_count user_id name (log_security_event event self)
  = get_user_error_count user_id name self.
Proof. unfold get_user_error_count. rewrite log_security_event_counts. reflexivity. Qed.

Lemma track_validation_error_counts (user_id now : Z) (name : string)
    (self : SecurityManager) :
  user_error_counts (_track_validation_error user_id name now self)
  = <[user_id := <[name := get_user_error_count user_id name self + 1]>
                   (default ∅ (user_error_counts self !! user_id))]>
      (user_error_counts self).
Proof.
  unfold _track_validation_error, get_user_error_count.
  destruct (_ =? 5); [rewrite log_security_event_counts|]; reflexivity.
Qed.

Lemma track_validation_error_same (user_id now : Z) (name : string)
    (self : SecurityManager) :
  get_user_error_count user_id name (_track_validation_error user_id name now self)
  = get_user_error_count user_id name self + 1.
Proof.
  unfold get_user_error_count at 1. rewrite track_validation_error_counts.
  rewrite lookup_insert_eq. simpl. rewrite lookup_insert_eq. reflexivity.
Qed.

Lemma track_validation_error_other (user_id user_id' now : Z) (name name' : string)
    (self : SecurityManager) :
  (user_id', name') <> (user_id, name) ->
  get_user_error_count user_id' name' (_track_validation_error user_id name now self)
  = get_user_error_count user_id' name' self.
Proof.
  intros Hne. unfold get_user_error_count at 1. rewrite track_validation_error_counts.
  destruct (decide (user_id = user_id')) as [->|Hu].
  - rewrite lookup_insert_eq. simpl.
    rewrite lookup_insert_ne by congruence. reflexivity.
  - rewrite lookup_insert_ne by exact Hu. reflexivity.
Qed.

(** The event logged at the fifth error. *)
Lemma track_validation_error_events (user_id now : Z) (name : string)
    (self : SecurityManager) :
  let count := get_user_error_count user_id name self + 1 in
  security_events (_track_validation_error user_id name now self)
  = if count =? 5 then
      last_n 1000
        (security_events self ++
         [{| ev_user_id := user_id;
             event_type := INVALID_INPUT_REPEATED;
             description :=
               "Repeated validation errors for " +:+ name +:+ ": " +:+ pretty count;
             timestamp := now;
             severity := LOW;
             additional_data := Some [("error_type", VStr name); ("count", VInt count)] |}])
    else security_events self.
Proof.
  unfold _track_validation_error, get_user_error_count. cbv zeta.
  destruct (_ =? 5); [rewrite log_security_event_events|]; reflexivity.
Qed.

(** Without a malicious pattern the verdict is that of the validator of
    the kind, which counts the error when it rejects. *)
Lemma validate_input_clean (text : string) (input_type : InputType) (user_id now : Z)
    (self : SecurityManager) :
  first_malicious_pattern text = None ->
  validate_input text input_type user_id now self
  = (fst (validate_input text input_type user_id now self),
     if type_check input_type (sanitize_input text) then self
     else _track_validation_error user_id (error_type_name input_type) now self)
  /\ is_valid (fst (validate_input text input_type user_id now self))
     = type_check input_type (sanitize_input text).
Proof.
  intros Hclean. unfold validate_input, _detect_malicious_input. rewrite Hclean.
  set (clean := sanitize_input text).
  destruct input_type; unfold type_check, error_type_name;
    [ unfold _validate_age; destruct (py_int clean) as [n|];
      [destruct (_ && _)|]
    | unfold _validate_body_fat;
      destruct (py_float (strip (remove_char "%" clean))) as [f|];
      [destruct (float_in_0_50 f)|]
    | unfold _validate_scale_1_5; destruct (py_int clean) as [n|];
      [destruct (_ && _)|]
    | unfold _validate_yes_no; destruct (_ || _)
    | unfold _validate_exercise_frequency; destruct (py_int clean) as [n|];
      [destruct (_ && _)|]
    | unfold _validate_free_text; destruct (100 <? String.length clean)%nat;
      [|destruct (String.length (strip clean) =? 0)%nat] ];
    split; reflexivity.
Qed.

Lemma validate_input_accepts (text : string) (input_type : InputType) (user_id now : Z)
    (self : SecurityManager) :
  is_valid (fst (validate_input text input_type user_id now self))
  = accepts text input_type.
Proof.
  unfold accepts. destruct (first_malicious_pattern text) as [pattern|] eqn:Hdet.
  - unfold validate_input, _detect_malicious_input. rewrite Hdet. reflexivity.
  - apply validate_input_clean. exact Hdet.
Qed.

(** C4 (as the code has it). A rejection by the validator of the kind
    adds one to the counter of that user and kind and touches no other
    counter, and it appends the LOW event INVALID_INPUT_REPEATED exactly
    when the counter has just become 5, so not at the sixth error or
    later; accepted input changes nothing; a rejection for a malicious
    pattern leaves every counter as it was. *)
Theorem validate_input_counts_validator_errors :
  forall (text : string) (input_type : InputType) (user_id now : Z)
         (self : SecurityManager),
    let name := error_type_name input_type in
    let result := fst (validate_input text input_type user_id now self) in
    let self' := snd (validate_input text input_type user_id now self) in
    let count := get_user_error_count user_id name self + 1 in
    match first_malicious_pattern text with
    | Some _ =>
        is_valid result = false
        /\ user_error_counts self' = user_error_counts self
    | None =>
        if is_valid result then self' = self
        else
          get_user_error_count user_id name self' = count
          /\ (forall user_id' name',
                 (user_id', name') <> (user_id, name) ->
                 get_user_error_count user_id' name' self'
                 = get_user_error_count user_id' name' self)
          /\ if count =? 5 then
               exists event,
                 security_events self' = last_n 1000 (security_events self ++ [event])
                 /\ event_type event = INVALID_INPUT_REPEATED
                 /\ severity event = LOW
                 /\ ev_user_id event = user_id
                 /\ additional_data event
                    = Some [("error_type", VStr name); ("count", VInt 5)]
             else security_events self' = security_events self
    end.
Proof.
  intros text input_type user_id now self name result self' count.
  destruct (first_malicious_pattern text) as [pattern|] eqn:Hdet.
  - destruct (malicious_input_rejected text pattern input_type user_id now self Hdet)
      as (event & Hrun & _ & Hcounts & _).
    unfold result, self'. rewrite Hrun. simpl. split; [reflexivity | exact Hcounts].
  - destruct (validate_input_clean text input_type user_id now self Hdet)
      as [Hrun Hvalid].
    unfold result. rewrite Hvalid.
    unfold self'. rewrite Hrun. cbn [snd].
    destruct (type_check input_type (sanitize_input text)); [reflexivity|].
    split; [apply track_validation_error_same|].
    split; [intros; apply track_validation_error_other; assumption|].
    rewrite track_validation_error_events. fold name. fold count.
    destruct (count =? 5) eqn:Hfive; [|reflexivity].
    apply Z.eqb_eq in Hfive.
    eexists. split; [reflexivity|]. simpl. rewrite Hfive. repeat split; reflexivity.
Qed.

(** C4 (the claim as stated fails). Input with a script tag fails the
    validation of a user whose counters are all zero, and the counter of
    the kind is still zero afterwards. *)
Lemma validate_input_malicious_failure_not_counted :
  let run := validate_input "<script>alert(1)</script>" AGE 7 0 (init 10) in
  is_valid (fst run) = false
  /\ get_user_error_count 7 (error_type_name AGE) (init 10) = 0
  /\ get_user_error_count 7 (error_type_name AGE) (snd run) = 0.
Proof. vm_compute. repeat split; reflexivity. Qed.

End validation.

(** ** The validation layer *)

Section progressive_help.
Import security_manager validation_layer.

Lemma get_retry_count_increment (user_id : Z) (q : QuestionType) (self : ValidationLayer) :
  _get_retry_count user_id q (_increment_retry_count user_id q self)
  = _get_retry_count user_id q self + 1.
Proof.
  unfold _get_retry_count, _increment_retry_count. simpl.
  rewrite lookup_insert_eq. simpl. rewrite lookup_insert_eq. reflexivity.
Qed.

Lemma get_retry_count_reset (user_id : Z) (q : QuestionType) (self : ValidationLayer) :
  _get_retry_count user_id q (_reset_retry_count user_id q self) = 0.
Proof.
  unfold _get_retry_count, _reset_retry_count.
  destruct (user_retry_counts self !! user_id) as [per_user|] eqn:Hget; simpl.
  - rewrite lookup_insert_eq. simpl. rewrite lookup_delete_eq. reflexivity.
  - rewrite Hget. reflexivity.
Qed.

Lemma get_retry_count_set_security_manager (sm : SecurityManager) (user_id : Z)
    (q : QuestionType) (self : ValidationLayer) :
  _get_retry_count user_id q (set_security_manager sm self)
  = _get_retry_count user_id q self.
Proof. reflexivity. Qed.

(** One submission: what it returns and what it leaves in the counter. *)
Lemma validate_question_response_step (text : string) (q : QuestionType)
    (user_id now : Z) (self : ValidationLayer) :
  let count := _get_retry_count user_id q self in
  let result := fst (validate_question_response text q user_id now self) in
  let self' := snd (validate_question_response text q user_id now self) in
  config self' = config self
  /\ e_is_valid result = accepts text (question_type_mapping q)
  /\ if accepts text (question_type_mapping q) then
       retry_count result = 0
       /\ is_progressive_help_triggered result = false
       /\ _get_retry_count user_id q self' = 0
     else
       retry_count result = count + 1
       /\ is_progressive_help_triggered result
          = enable_progressive_assistance (config self)
            && (max_retries_before_progressive_help (config self) <=? count + 1)
       /\ _get_retry_count user_id q self' = count + 1.
Proof.
  intros count result self'. subst count result self'.
  unfold validate_question_response.
  pose proof (validate_input_accepts text (question_type_mapping q) user_id now
                (security_manager self)) as Hacc.
  destruct (validate_input text (question_type_mapping q) user_id now
              (security_manager self)) as [basic sm].
  cbn [fst] in Hacc. rewrite <- Hacc.
  destruct (is_valid basic); cbn [negb].
  - cbn [fst snd]. rewrite get_retry_count_reset.
    split; [|repeat split; reflexivity].
    unfold _reset_retry_count, set_security_manager. cbn [user_retry_counts].
    destruct (user_retry_counts self !! user_id); reflexivity.
  - assert (Hcfg : config (_increment_retry_count user_id q (set_security_manager sm self))
                   = config self) by reflexivity.
    rewrite Hcfg.
    destruct (enable_progressive_assistance (config self)
              && (max_retries_before_progressive_help (config self)
                  <=? _get_retry_count user_id q self + 1));
      cbn [fst snd e_is_valid retry_count is_progressive_help_triggered
           _enhance_validation_result];
      rewrite get_retry_count_increment, get_retry_count_set_security_manager;
      repeat split; reflexivity.
Qed.

Lemma submit_all_failures (submissions : list (string * Z)) (q : QuestionType)
    (user_id : Z) (self : ValidationLayer) :
  Forall (fun s => accepts (fst s) (question_type_mapping q) = false) submissions ->
  let count := _get_retry_count user_id q self in
  let results := fst (submit_all submissions q user_id self) in
  let self' := snd (submit_all submissions q user_id self) in
  config self' = config self
  /\ map retry_count results
     = map (fun i => count + Z.of_nat i) (seq 1 (length submissions))
  /\ map is_progressive_help_triggered results
     = map (fun i => enable_progressive_assistance (config self)
                     && (max_retries_before_progressive_help (config self)
                         <=? count + Z.of_nat i))
           (seq 1 (length submissions))
  /\ _get_retry_count user_id q self' = count + Z.of_nat (length submissions).
Proof.
  revert self. induction submissions as [|[text now] rest IH]; intros self Hall.
  - cbn. repeat split; try reflexivity. lia.
  - apply Forall_cons in Hall. destruct Hall as [Hbad Hrest]. cbn [fst] in Hbad.
    pose proof (validate_question_response_step text q user_id now self) as Hstep.
    cbv zeta in Hstep. rewrite Hbad in Hstep.
    destruct Hstep as (Hcfg & _ & Hcount & Hflag & Hnext).
    cbn [submit_all].
    destruct (validate_question_response text q user_id now self) as [result self1].
    cbn [fst snd] in *.
    specialize (IH self1 Hrest). cbv zeta in IH.
    destruct (submit_all rest q user_id self1) as [results self2].
    cbn [fst snd] in *.
    destruct IH as (Hcfg2 & Hcounts & Hflags & Hlast).
    rewrite Hcfg in *. rewrite Hnext in *.
    cbn [length seq map]. rewrite <- seq_shift, !map_map.
    split; [exact Hcfg2|].
    split; [|split].
    + rewrite Hcount, Hcounts. apply (f_equal2 cons).
      * lia.
      * apply map_ext. intros i. lia.
    + rewrite Hflag, Hflags. apply (f_equal2 cons).
      * replace (_get_retry_count user_id q self + Z.of_nat 1)
          with (_get_retry_count user_id q self + 1) by lia.
        reflexivity.
      * apply map_ext. intros i.
        replace (_get_retry_count user_id q self + 1 + Z.of_nat i)
          with (_get_retry_count user_id q self + Z.of_nat (S i)) by lia.
        reflexivity.
    + rewrite Hlast. lia.
Qed.

(** C2 (as the code has it). With progressive assistance enabled and its
    threshold at 5, for one user and one kind of question whose counter is
    at zero, a run of rejected submissions gets
    [is_progressive_help_triggered] at its fifth result and at every later
    one, not at the first four; each result carries the number of the
    failure; and the next accepted submission puts the counter back to 0. *)
Theorem progressive_help_from_fifth_failure :
  forall (submissions : list (string * Z)) (q : QuestionType) (user_id : Z)
         (self : ValidationLayer),
    enable_progressive_assistance (config self) = true ->
    max_retries_before_progressive_help (config self) = 5 ->
    _get_retry_count user_id q self = 0 ->
    Forall (fun s => accepts (fst s) (question_type_mapping q) = false) submissions ->
    let results := fst (submit_all submissions q user_id self) in
    let self' := snd (submit_all submissions q user_id self) in
    map e_is_valid results = map (fun _ => false) submissions
    /\ map retry_count results = map Z.of_nat (seq 1 (length submissions))
    /\ map is_progressive_help_triggered results
       = map (fun i => 5 <=? Z.of_nat i) (seq 1 (length submissions))
    /\ _get_retry_count user_id q self' = Z.of_nat (length submissions)
    /\ forall (text : string) (now : Z),
         accepts text (question_type_mapping q) = true ->
         let after := validate_question_response text q user_id now self' in
         e_is_valid (fst after) = true
         /\ retry_count (fst after) = 0
         /\ is_progressive_help_triggered (fst after) = false
         /\ _get_retry_count user_id q (snd after) = 0.
Proof.
  intros submissions q user_id self Hon Hfive Hzero Hall results self'.
  destruct (submit_all_failures submissions q user_id self Hall)
    as (Hcfg & Hcounts & Hflags & Hlast).
  fold results in Hcounts, Hflags. fold self' in Hcfg, Hlast.
  rewrite Hon, Hfive, Hzero in *.
  split; [|split; [|split; [|split]]].
  - subst results. clear -Hall. revert self.
    induction submissions as [|[text now] rest IH]; intros self; [reflexivity|].
    apply Forall_cons in Hall. destruct Hall as [Hbad Hrest]. cbn [fst] in Hbad.
    pose proof (validate_question_response_step text q user_id now self) as Hstep.
    cbv zeta in Hstep. destruct Hstep as (_ & Hvalid & _).
    cbn [submit_all].
    destruct (validate_question_response text q user_id now self) as [result self1].
    specialize (IH Hrest self1).
    destruct (submit_all rest q user_id self1) as [results self2].
    cbn [fst snd map] in *. rewrite Hvalid, Hbad, IH. reflexivity.
  - rewrite Hcounts. apply map_ext. intros i. lia.
  - rewrite Hflags. apply map_ext. intros i. reflexivity.
  - rewrite Hlast. lia.
  - intros text now Hgood after.
    pose proof (validate_question_response_step text q user_id now self') as Hstep.
    cbv zeta in Hstep. rewrite Hgood in Hstep.
    destruct Hstep as (_ & Hvalid & Hcount & Hflag & Hnext).
    subst after. repeat split; assumption.
Qed.

Lemma progressive_help_from_fifth_failure_witness :
  let submissions := replicate 6 ("9", 0) in
  let self := init (security_manager.init 10) default_config in
  let results := fst (submit_all submissions AMS_SCALE 7 self) in
  let self' := snd (submit_all submissions AMS_SCALE 7 self) in
  map e_is_valid results = map (fun _ => false) submissions
  /\ map retry_count results = map Z.of_nat (seq 1 (length submissions))
  /\ map is_progressive_help_triggered results
     = map (fun i => 5 <=? Z.of_nat i) (seq 1 (length submissions))
  /\ _get_retry_count 7 AMS_SCALE self' = Z.of_nat (length submissions)
  /\ forall (text : string) (now : Z),
       accepts text (question_type_mapping AMS_SCALE) = true ->
       let after := validate_question_response text AMS_SCALE 7 now self' in
       e_is_valid (fst after) = true
       /\ retry_count (fst after) = 0
       /\ is_progressive_help_triggered (fst after) = false
       /\ _get_retry_count 7 AMS_SCALE (snd after) = 0.
Proof.
  apply (progressive_help_from_fifth_failure
           (replicate 6 ("9", 0)) AMS_SCALE 7
           (init (security_manager.init 10) default_config)).
  - reflexivity.
  - reflexivity.
  - reflexivity.
  - repeat constructor.
Defined.

(** C2 (the claim as stated fails). Six rejected AMS_SCALE submissions
    in a row from one user: the sixth result, like the fifth, has
    [is_progressive_help_triggered] set. *)
Lemma progressive_help_also_at_sixth_failure :
  let self := init (security_manager.init 10) default_config in
  let results := fst (submit_all (replicate 6 ("9", 0)) AMS_SCALE 7 self) in
  map e_is_valid results = [false; false; false; false; false; false]
  /\ map is_progressive_help_triggered results
     = [false; false; false; false; true; true].
Proof. vm_compute. split; reflexivity. Qed.

End progressive_help.

(** ** The retry engine *)

Section recovery.
Import error_handler.

(** C7. The recovery action, for every kind of error and every attempt:
    once the attempt number has reached [max_retries], FALLBACK for the
    network, timeout and transport kinds and ABORT for all others; before
    that, RETRY for the network, timeout, transport and rate-limit kinds,
    USER_NOTIFICATION for validation and security errors (and for user
    errors), ABORT for system errors. *)
Theorem determine_recovery_action_table :
  forall (cfg : RetryConfig) (error_type : ErrorType) (context : ErrorContext),
    _determine_recovery_action cfg error_type context
    = if max_retries cfg <=? attempt_number context then
        match error_type with
        | NETWORK_ERROR | TIMEOUT_ERROR | TELEGRAM_API_ERROR => FALLBACK
        | RATE_LIMIT_ERROR | VALIDATION_ERROR | SECURITY_ERROR | USER_ERROR
        | SYSTEM_ERROR => ABORT
        end
      else
        match error_type with
        | NETWORK_ERROR | TIMEOUT_ERROR | TELEGRAM_API_ERROR | RATE_LIMIT_ERROR => RETRY
        | VALIDATION_ERROR | SECURITY_ERROR | USER_ERROR => USER_NOTIFICATION
        | SYSTEM_ERROR => ABORT
        end.
Proof.
  intros cfg error_type context. unfold _determine_recovery_action.
  destruct (max_retries cfg <=? attempt_number context), error_type; reflexivity.
Qed.

Lemma py_min_Qmin (a b : Q) : (py_min a b == Qmin a b)%Q.
Proof.
  unfold py_min. destruct (Qle_bool a b) eqn:Hle.
  - apply Qle_bool_iff in Hle. symmetry. apply Q.min_l. exact Hle.
  - assert (Hlt : (b < a)%Q).
    { apply Qnot_le_lt. intros H. apply Qle_bool_iff in H. congruence. }
    symmetry. apply Q.min_r. apply Qlt_le_weak. exact Hlt.
Qed.

Lemma py_max_Qmax (a b : Q) : (py_max a b == Qmax a b)%Q.
Proof.
  unfold py_max. destruct (Qle_bool b a) eqn:Hle.
  - apply Qle_bool_iff in Hle. symmetry. apply Q.max_l. exact Hle.
  - assert (Hlt : (a < b)%Q).
    { apply Qnot_le_lt. intros H. apply Qle_bool_iff in H. congruence. }
    symmetry. apply Q.max_r. apply Qlt_le_weak. exact Hlt.
Qed.

(** An integer of at most 53 bits is a float. *)
Lemma float_of_int_exact (n : Z) : Z.abs n <= 2 ^ 53 -> float_of_int n = inr n.
Proof.
  intros Hsmall. unfold float_of_int.
  assert (Hrange : 2 ^ 53 < 2 ^ 1024 - 2 ^ 970) by (vm_compute; reflexivity).
  replace (float_overflows (inject_Z n)) with false.
  - replace (Z.abs n <=? 2 ^ 53) with true by (symmetry; apply Z.leb_le; exact Hsmall).
    reflexivity.
  - symmetry. unfold float_overflows.
    destruct (Qle_bool _ _) eqn:Hle; [|reflexivity].
    apply Qle_bool_iff in Hle. unfold Qle in Hle.
    cbn [Qabs inject_Z Qnum Qden] in Hle. rewrite !Z.mul_1_r in Hle. lia.
Qed.

(** A power computed without an exception is the power of the base by
    the exponent as a float. *)
Lemma float_pow_value (b : Q) (e : Z) (power : Q) :
  float_pow b e = inr power ->
  exists x : Z, float_of_int e = inr x /\ (power == b ^ x)%Q.
Proof.
  unfold float_pow. destruct (float_of_int e) as [raised|x]; [discriminate|].
  intros Hpow. exists x. split; [reflexivity|]. revert Hpow.
  destruct (Z.eqb_spec x 0) as [->|Hne]; [intros [= <-]; reflexivity|].
  destruct (Qeq_bool b 0) eqn:Hzero.
  - destruct (x <? 0); [discriminate|]. intros [= <-].
    apply Qeq_bool_iff in Hzero. rewrite Hzero. symmetry. apply Qpower_0. exact Hne.
  - cbv zeta. destruct (float_overflows (b ^ x)); [discriminate|].
    intros [= <-]. reflexivity.
Qed.

(** From the first attempt on the power is computed unless the
    value is beyond the float range, as long as the exponent is a float. *)
Lemma float_pow_in_range (b : Q) (e : Z) :
  0 <= e <= 2 ^ 53 ->
  float_overflows (b ^ e) = false ->
  exists power : Q, float_pow b e = inr power /\ (power == b ^ e)%Q.
Proof.
  intros Hrange Hval. unfold float_pow.
  rewrite float_of_int_exact by lia.
  destruct (Z.eqb_spec e 0) as [->|Hne]; [exists 1%Q; split; reflexivity|].
  destruct (Qeq_bool b 0) eqn:Hzero.
  - replace (e <? 0) with false by (symmetry; apply Z.ltb_ge; lia).
    exists 0%Q. split; [reflexivity|].
    apply Qeq_bool_iff in Hzero. rewrite Hzero. symmetry. apply Qpower_0. exact Hne.
  - cbv zeta. rewrite Hval. exists (b ^ e)%Q. split; reflexivity.
Qed.

Lemma backoff_delay_rate_limit (cfg : RetryConfig) (attempt : Z) (power : Q) :
  float_pow (exponential_base cfg) (attempt - 1) = inr power ->
  exists before : Q,
    backoff_delay cfg attempt RATE_LIMIT_ERROR = inr before
    /\ (before == Qmax (Qmin (base_delay cfg * power) (max_delay cfg)) 30)%Q.
Proof.
  intros Hpow. unfold backoff_delay. rewrite Hpow. cbn [ErrorType_eqb].
  eexists. split; [reflexivity|].
  rewrite py_max_Qmax, py_min_Qmin. reflexivity.
Qed.

Lemma backoff_delay_other (cfg : RetryConfig) (attempt : Z) (error_type : ErrorType)
    (power : Q) :
  error_type <> RATE_LIMIT_ERROR ->
  float_pow (exponential_base cfg) (attempt - 1) = inr power ->
  exists before : Q,
    backoff_delay cfg attempt error_type = inr before
    /\ (before == Qmin (base_delay cfg * power) (max_delay cfg))%Q.
Proof.
  intros Hne Hpow. unfold backoff_delay. rewrite Hpow.
  replace (ErrorType_eqb error_type RATE_LIMIT_ERROR) with false
    by (destruct error_type; try reflexivity; congruence).
  eexists. split; [reflexivity|].
  rewrite py_min_Qmin. reflexivity.
Qed.

Lemma uniform_range (r : Q) :
  (0 <= r)%Q -> (r <= 1)%Q ->
  (1 # 10 <= uniform (1 # 10) (3 # 10) r)%Q /\ (uniform (1 # 10) (3 # 10) r <= 3 # 10)%Q.
Proof.
  intros Hlo Hhi. unfold uniform.
  assert (H0 : (0 <= ((3 # 10) - (1 # 10)) * r)%Q)
    by (apply Qmult_le_0_compat; [discriminate | exact Hlo]).
  assert (H1 : (((3 # 10) - (1 # 10)) * r <= ((3 # 10) - (1 # 10)) * 1)%Q)
    by (apply Qmult_le_l; [reflexivity | exact Hhi]).
  split.
  - rewrite <- (Qplus_0_r (1 # 10)) at 1. apply Qplus_le_r. exact H0.
  - eapply Qle_trans; [apply Qplus_le_r; exact H1|]. discriminate.
Qed.

(** What a delay computed without an exception is. *)
Lemma calculate_retry_delay_value (cfg : RetryConfig) (attempt : Z)
    (error_type : ErrorType) (r delay : Q) :
  calculate_retry_delay cfg attempt error_type r = inr delay ->
  exists before : Q,
    backoff_delay cfg attempt error_type = inr before
    /\ delay = (if jitter cfg
                then (before + uniform (1 # 10) (3 # 10) r * before)%Q
                else before).
Proof.
  unfold calculate_retry_delay.
  destruct (backoff_delay cfg attempt error_type) as [raised|before]; [discriminate|].
  intros [= <-]. exists before. split; reflexivity.
Qed.

(** X29. In exact arithmetic, for every attempt from the first on whose
    exponent [attempt - 1] is at most [2^53] and whose power
    [exponential_base ^ (attempt - 1)] is within the float range, and
    every kind of error, no exception is raised and: the delay before
    jitter is [min (base_delay * exponential_base ^ (attempt - 1))
    max_delay], except that for RATE_LIMIT_ERROR it is the larger of that
    and 30, so never below 30; without jitter that is the delay; with
    jitter the delay is that plus [random.uniform(0.1, 0.3)] times it,
    which for a delay that is not negative (as when no setting is) adds
    between 10% and 30% of it and never takes anything away. *)
Theorem calculate_retry_delay_backoff_and_jitter :
  forall (cfg : RetryConfig) (attempt : Z) (error_type : ErrorType) (r : Q),
    1 <= attempt ->
    attempt - 1 <= 2 ^ 53 ->
    float_overflows (exponential_base cfg ^ (attempt - 1)) = false ->
    (0 <= r)%Q -> (r <= 1)%Q ->
    let raw := (base_delay cfg * exponential_base cfg ^ (attempt - 1))%Q in
    exists before_jitter delay : Q,
      backoff_delay cfg attempt error_type = inr before_jitter
      /\ calculate_retry_delay cfg attempt error_type r = inr delay
      /\ (if ErrorType_eqb error_type RATE_LIMIT_ERROR
          then (before_jitter == Qmax (Qmin raw (max_delay cfg)) 30)%Q
               /\ (30 <= before_jitter)%Q
          else (before_jitter == Qmin raw (max_delay cfg))%Q)
      /\ ((0 <= base_delay cfg)%Q -> (0 <= exponential_base cfg)%Q ->
          (0 <= max_delay cfg)%Q -> (0 <= before_jitter)%Q)
      /\ (if jitter cfg
          then (delay == before_jitter + uniform (1 # 10) (3 # 10) r * before_jitter)%Q
               /\ ((0 <= before_jitter)%Q ->
                   (before_jitter + (1 # 10) * before_jitter <= delay)%Q
                   /\ (delay <= before_jitter + (3 # 10) * before_jitter)%Q
                   /\ (before_jitter <= delay)%Q)
          else (delay == before_jitter)%Q).
Proof.
  intros cfg attempt error_type r Hattempt Hexp Hval Hlo Hhi raw.
  destruct (float_pow_in_range (exponential_base cfg) (attempt - 1) ltac:(lia) Hval)
    as (power & Hpow & Hpower).
  assert (Hbefore : exists before : Q,
             backoff_delay cfg attempt error_type = inr before
             /\ (if ErrorType_eqb error_type RATE_LIMIT_ERROR
                 then (before == Qmax (Qmin raw (max_delay cfg)) 30)%Q
                 else (before == Qmin raw (max_delay cfg))%Q)).
  { unfold raw.
    destruct (ErrorType_eqb error_type RATE_LIMIT_ERROR) eqn:Hk.
    - destruct error_type; try discriminate.
      destruct (backoff_delay_rate_limit cfg attempt power Hpow) as (before & Hrun & Heq).
      exists before. split; [exact Hrun|]. rewrite Heq, Hpower. reflexivity.
    - destruct (backoff_delay_other cfg attempt error_type power) as (before & Hrun & Heq);
        [intros ->; discriminate | exact Hpow |].
      exists before. split; [exact Hrun|]. rewrite Heq, Hpower. reflexivity. }
  destruct Hbefore as (before & Hrun & Hform).
  destruct (uniform_range r Hlo Hhi) as [Hu1 Hu3].
  set (u := uniform (1 # 10) (3 # 10) r) in *.
  exists before, (if jitter cfg then (before + u * before)%Q else before).
  split; [exact Hrun|]. split.
  { unfold calculate_retry_delay. rewrite Hrun. reflexivity. }
  split; [|split].
  - destruct (ErrorType_eqb error_type RATE_LIMIT_ERROR); [|exact Hform].
    split; [exact Hform|]. rewrite Hform. apply Q.le_max_r.
  - intros Hb He Hm.
    assert (Hraw : (0 <= raw)%Q).
    { unfold raw. apply Qmult_le_0_compat; [exact Hb|]. apply Qpower_0_le. exact He. }
    assert (Hmin : (0 <= Qmin raw (max_delay cfg))%Q) by (apply Q.min_glb; assumption).
    destruct (ErrorType_eqb error_type RATE_LIMIT_ERROR); rewrite Hform; [|exact Hmin].
    eapply Qle_trans; [exact Hmin | apply Q.le_max_l].
  - destruct (jitter cfg); [|reflexivity].
    split; [reflexivity|]. intros Hpos.
    assert (H1 : ((1 # 10) * before <= u * before)%Q)
      by (apply Qmult_le_compat_r; assumption).
    assert (H3 : (u * before <= (3 # 10) * before)%Q)
      by (apply Qmult_le_compat_r; assumption).
    assert (H0 : (0 <= (1 # 10) * before)%Q)
      by (apply Qmult_le_0_compat; [discriminate | exact Hpos]).
    repeat split.
    + apply Qplus_le_r. exact H1.
    + apply Qplus_le_r. exact H3.
    + rewrite <- (Qplus_0_r before) at 1. apply Qplus_le_r.
      eapply Qle_trans; [exact H0 | exact H1].
Qed.

Lemma calculate_retry_delay_backoff_and_jitter_witness :
  let cfg := default_retry_config in
  let r := (1 # 2)%Q in
  let raw := (base_delay cfg * exponential_base cfg ^ (3 - 1))%Q in
  exists before_jitter delay : Q,
    backoff_delay cfg 3 NETWORK_ERROR = inr before_jitter
    /\ calculate_retry_delay cfg 3 NETWORK_ERROR r = inr delay
    /\ (if ErrorType_eqb NETWORK_ERROR RATE_LIMIT_ERROR
        then (before_jitter == Qmax (Qmin raw (max_delay cfg)) 30)%Q
             /\ (30 <= before_jitter)%Q
        else (before_jitter == Qmin raw (max_delay cfg))%Q)
    /\ ((0 <= base_delay cfg)%Q -> (0 <= exponential_base cfg)%Q ->
        (0 <= max_delay cfg)%Q -> (0 <= before_jitter)%Q)
    /\ (if jitter cfg
        then (delay == before_jitter + uniform (1 # 10) (3 # 10) r * before_jitter)%Q
             /\ ((0 <= before_jitter)%Q ->
                 (before_jitter + (1 # 10) * before_jitter <= delay)%Q
                 /\ (delay <= before_jitter + (3 # 10) * before_jitter)%Q
                 /\ (before_jitter <= delay)%Q)
        else (delay == before_jitter)%Q).
Proof.
  apply (calculate_retry_delay_backoff_and_jitter
           default_retry_config 3 NETWORK_ERROR (1 # 2)).
  - lia.
  - vm_compute. discriminate.
  - vm_compute. reflexivity.
  - discriminate.
  - discriminate.
Defined.

(** The delays of the specification's examples, jitter left out. *)
Lemma backoff_delay_examples :
  let gives (run : Exception + Q) (seconds : Q) :=
    match run with
    | inr delay => (delay == seconds)%Q
    | inl _ => False
    end in
  gives (backoff_delay default_retry_config 1 NETWORK_ERROR) 1%Q
  /\ gives (backoff_delay default_retry_config 3 NETWORK_ERROR) 4%Q
  /\ gives (backoff_delay default_retry_config 10 NETWORK_ERROR) 60%Q
  /\ gives (backoff_delay default_retry_config 1 RATE_LIMIT_ERROR) 30%Q.
Proof. repeat split; vm_compute; reflexivity. Qed.

(** C6. With the default configuration the cap of [max_delay] works up
    to attempt 1024, where the delay before jitter is 60 seconds.  At
    attempt 1025 the formula [min (base_delay * exponential_base ^
    (attempt - 1)) max_delay] still gives the cap, 60 seconds, but the
    power [2.0 ** 1024] is computed before [min] is applied and raises
    [OverflowError]: no delay is returned, with or without jitter. *)
Theorem calculate_retry_delay_overflows_before_cap :
  let cfg := default_retry_config in
  (Qmin (base_delay cfg * exponential_base cfg ^ (1025 - 1)) (max_delay cfg) == 60)%Q
  /\ backoff_delay cfg 1025 NETWORK_ERROR
     = inl (OverflowError "(34, 'Numerical result out of range')")
  /\ calculate_retry_delay cfg 1025 NETWORK_ERROR (1 # 2)
     = inl (OverflowError "(34, 'Numerical result out of range')")
  /\ match backoff_delay cfg 1024 NETWORK_ERROR with
     | inr delay => (delay == 60)%Q
     | inl _ => False
     end.
Proof. vm_compute. repeat split; intros H; discriminate H. Qed.

End recovery.

Section retry_wrapper.
Import error_handler.
Context {A : Type}.
Variable func : Z -> Exception + A.
Variable func_name : string.
Variable draw : Z -> Q.
Variable cfg : RetryConfig.

(** The action decided for the error [e] of attempt [attempt]. *)
Lemma handle_error_action (e : Exception) (attempt : Z) :
  fst (handle_error cfg e
         {| user_id := None; chat_id := None; message_id := None;
            function_name := Some func_name; attempt_number := attempt |})
  = _determine_recovery_action cfg (_classify_error e)
      {| user_id := None; chat_id := None; message_id := None;
         function_name := Some func_name; attempt_number := attempt |}.
Proof. reflexivity. Qed.

(** An iteration starts by calling the function. *)
Lemma retry_loop_calls_first (retries : Z) (remaining : nat) (attempt : Z)
    (last_error : option Exception) :
  exists rest,
    snd (retry_loop func func_name draw cfg retries (S remaining) attempt last_error)
    = Call attempt :: rest.
Proof.
  cbn [retry_loop]. destruct (func attempt) as [e|v]; [|eexists; reflexivity].
  destruct (handle_error cfg e _) as [action message].
  destruct ((attempt =? retries) || negb (RecoveryAction_eqb action RETRY));
    [eexists; reflexivity|].
  destruct (calculate_retry_delay cfg attempt (_classify_error e) (draw attempt));
    [eexists; reflexivity|].
  destruct (retry_loop func func_name draw cfg retries remaining (attempt + 1) (Some e)).
  eexists. reflexivity.
Qed.

(** One iteration in which the function fails. *)
Lemma retry_loop_failure (retries : Z) (remaining : nat) (attempt : Z)
    (last_error : option Exception) (e : Exception) :
  func attempt = inl e ->
  let action :=
    _determine_recovery_action cfg (_classify_error e)
      {| user_id := None; chat_id := None; message_id := None;
         function_name := Some func_name; attempt_number := attempt |} in
  retry_loop func func_name draw cfg retries (S remaining) attempt last_error
  = if (attempt =? retries) || negb (RecoveryAction_eqb action RETRY)
    then (Raised e, [Call attempt])
    else
      match calculate_retry_delay cfg attempt (_classify_error e) (draw attempt) with
      | inl raised => (Raised raised, [Call attempt])
      | inr delay =>
          let next :=
            retry_loop func func_name draw cfg retries remaining (attempt + 1) (Some e) in
          (fst next, Call attempt :: Sleep delay :: snd next)
      end.
Proof.
  intros Hfail action. cbn [retry_loop]. rewrite Hfail.
  unfold handle_error. fold action.
  destruct ((attempt =? retries) || negb (RecoveryAction_eqb action RETRY));
    [reflexivity|].
  destruct (calculate_retry_delay cfg attempt (_classify_error e) (draw attempt));
    [reflexivity|].
  destruct (retry_loop func func_name draw cfg retries remaining (attempt + 1) (Some e)).
  reflexivity.
Qed.

(** The attempts before [attempt + n] that all failed and were retried
    after a delay only put their calls and sleeps in front of what
    follows. *)
Lemma retry_loop_skip (retries : Z) (n remaining : nat) (attempt : Z)
    (last_error : option Exception) :
  attempt + Z.of_nat n <= retries ->
  (forall j, attempt <= j < attempt + Z.of_nat n ->
     exists ej,
       func j = inl ej
       /\ _determine_recovery_action cfg (_classify_error ej)
            {| user_id := None; chat_id := None; message_id := None;
               function_name := Some func_name; attempt_number := j |} = RETRY
       /\ exists delay,
            calculate_retry_delay cfg j (_classify_error ej) (draw j) = inr delay) ->
  exists before last_error',
    retry_loop func func_name draw cfg retries (n + remaining) attempt last_error
    = (fst (retry_loop func func_name draw cfg retries remaining
              (attempt + Z.of_nat n) last_error'),
       before ++ snd (retry_loop func func_name draw cfg retries remaining
                        (attempt + Z.of_nat n) last_error')).
Proof.
  revert attempt last_error.
  induction n as [|n IH]; intros attempt last_error Hle Hretried.
  - exists [], last_error. cbn [Nat.add app]. rewrite Z.add_0_r.
    destruct (retry_loop _ _ _ _ _ _ _ _). reflexivity.
  - destruct (Hretried attempt ltac:(lia)) as (e & Hfail & Haction & delay & Hdelay).
    destruct (IH (attempt + 1) (Some e) ltac:(lia)) as (before & last' & Hrest).
    { intros j Hj. apply Hretried. lia. }
    replace (attempt + 1 + Z.of_nat n) with (attempt + Z.of_nat (S n)) in Hrest by lia.
    cbn [Nat.add].
    rewrite (retry_loop_failure retries (n + remaining) attempt last_error e Hfail).
    cbv zeta. rewrite Haction, Hdelay. cbn [RecoveryAction_eqb negb].
    replace (attempt =? retries) with false by (symmetry; apply Z.eqb_neq; lia).
    cbn [orb]. rewrite Hrest. cbn [fst snd].
    eexists (Call attempt :: Sleep _ :: before), last'.
    reflexivity.
Qed.

(** X30. Let the wrapped function fail with [e] at attempt [k], every
    earlier attempt having failed and been retried after a delay.  If [k]
    is the last allowed attempt or the action decided for [e] is not
    RETRY, the wrapper raises [e] itself and does nothing after that call.
    Otherwise the delay is computed: when that gives a delay, the call is
    followed by a sleep of that delay and then by the next call of the
    function; when it raises, the wrapper raises that exception in place
    of [e] and does nothing after the call. *)
Theorem with_retry_raises_or_sleeps_and_retries :
  forall (max_retries' : option Z) (k : Z) (e : Exception),
    let retries := effective_retries cfg max_retries' in
    let context j :=
      {| user_id := None; chat_id := None; message_id := None;
         function_name := Some func_name; attempt_number := j |} in
    1 <= k <= retries ->
    (forall j, 1 <= j < k ->
       exists ej,
         func j = inl ej
         /\ fst (handle_error cfg ej (context j)) = RETRY
         /\ exists delay,
              calculate_retry_delay cfg j (_classify_error ej) (draw j) = inr delay) ->
    func k = inl e ->
    let action := fst (handle_error cfg e (context k)) in
    let run := with_retry func func_name draw cfg max_retries' in
    exists before,
      if (k =? retries) || negb (RecoveryAction_eqb action RETRY)
      then fst run = Raised e /\ snd run = before ++ [Call k]
      else
        match calculate_retry_delay cfg k (_classify_error e) (draw k) with
        | inr delay =>
            exists after,
              snd run = before ++ Call k :: Sleep delay :: Call (k + 1) :: after
        | inl raised => fst run = Raised raised /\ snd run = before ++ [Call k]
        end.
Proof.
  intros max_retries' k e retries context Hk Hretried Hfail action run.
  assert (Hsplit : Z.to_nat retries = (Z.to_nat (k - 1) + S (Z.to_nat (retries - k)))%nat)
    by lia.
  destruct (retry_loop_skip retries (Z.to_nat (k - 1)) (S (Z.to_nat (retries - k))) 1 None)
    as (before & last' & Hskip).
  { lia. }
  { intros j Hj. apply Hretried. lia. }
  replace (1 + Z.of_nat (Z.to_nat (k - 1))) with k in Hskip by lia.
  exists before. subst run. unfold with_retry. fold retries.
  rewrite Hsplit, Hskip.
  rewrite (retry_loop_failure retries (Z.to_nat (retries - k)) k last' e Hfail).
  cbv zeta. subst action. unfold context. rewrite handle_error_action.
  destruct ((k =? retries) || negb (RecoveryAction_eqb _ RETRY)) eqn:Hstop.
  - cbn [fst snd]. split; reflexivity.
  - destruct (calculate_retry_delay cfg k (_classify_error e) (draw k)) as [raised|delay].
    + cbn [fst snd]. split; reflexivity.
    + cbn [fst snd].
      apply orb_false_iff in Hstop. destruct Hstop as [Hlast _].
      apply Z.eqb_neq in Hlast.
      replace (Z.to_nat (retries - k)) with (S (Z.to_nat (retries - k - 1))) by lia.
      destruct (retry_loop_calls_first retries (Z.to_nat (retries - k - 1)) (k + 1)
                  (Some e)) as [rest Hrest].
      rewrite Hrest. exists rest. reflexivity.
Qed.

End retry_wrapper.

Section retry_wrapper_instance.
Import error_handler.

Lemma with_retry_raises_or_sleeps_and_retries_witness :
  let func := fun _ : Z => inl {| exn_class := NetworkError; exn_str := "down" |} in
  let e := {| exn_class := NetworkError; exn_str := "down" |} in
  let draw := fun _ : Z => (1 # 2)%Q in
  let cfg := default_retry_config in
  let context j :=
    {| user_id := None; chat_id := None; message_id := None;
       function_name := Some "send"; attempt_number := j |} in
  let retries := effective_retries cfg None in
  let action := fst (handle_error cfg e (context 2)) in
  let run := with_retry (A := unit) func "send" draw cfg None in
  exists before,
    if (2 =? retries) || negb (RecoveryAction_eqb action RETRY)
    then fst run = Raised e /\ snd run = before ++ [Call 2]
    else
      match calculate_retry_delay cfg 2 (_classify_error e) (draw 2) with
      | inr delay =>
          exists after,
            snd run = before ++ Call 2 :: Sleep delay :: Call (2 + 1) :: after
      | inl raised => fst run = Raised raised /\ snd run = before ++ [Call 2]
      end.
Proof.
  apply (with_retry_raises_or_sleeps_and_retries (A := unit)
           (fun _ : Z => inl {| exn_class := NetworkError; exn_str := "down" |})
           "send" (fun _ : Z => (1 # 2)%Q) default_retry_config None 2
           {| exn_class := NetworkError; exn_str := "down" |}).
  - cbn. lia.
  - intros j Hj. eexists. split; [reflexivity|].
    assert (j = 1) as -> by lia. split; [reflexivity|].
    eexists. vm_compute. reflexivity.
  - reflexivity.
Defined.

(** C8. With [exponential_base] at [2.0 ** 600] and four attempts
    allowed, a function that fails with a network error each time is
    called three times.  The third failure is not at the last attempt and
    the action decided for it is RETRY, yet the wrapper neither sleeps nor
    calls the function a fourth time: computing the delay raises
    [OverflowError], and that is what the wrapper raises. *)
Theorem with_retry_overflow_in_place_of_retry :
  let cfg := {| max_retries := 4; base_delay := 1; max_delay := 60;
                exponential_base := inject_Z (2 ^ 600); jitter := true |} in
  let e := {| exn_class := NetworkError; exn_str := "down" |} in
  let func := fun _ : Z => inl e in
  let run := with_retry (A := unit) func "send" (fun _ : Z => (1 # 2)%Q) cfg None in
  func 3 = inl e
  /\ (3 =? effective_retries cfg None) = false
  /\ fst (handle_error cfg e
            {| user_id := None; chat_id := None; message_id := None;
               function_name := Some "send"; attempt_number := 3 |}) = RETRY
  /\ fst run = Raised (OverflowError "(34, 'Numerical result out of range')")
  /\ calls (snd run) = [1; 2; 3]
  /\ length (sleeps (snd run)) = 2%nat.
Proof. vm_compute. repeat split; reflexivity. Qed.

End retry_wrapper_instance.

(** ** The session store *)

Section ordered_dict_facts.
Import conversation_handler.
Context {V : Type}.

Lemma od_get_set_eq (k : Z) (v : V) (d : list (Z * V)) :
  od_get k (od_set k v d) = Some v.
Proof.
  induction d as [|[k' v'] d IH]; cbn.
  - rewrite Z.eqb_refl. reflexivity.
  - destruct (k' =? k) eqn:Hk; cbn.
    + rewrite Z.eqb_refl. reflexivity.
    + rewrite Hk. exact IH.
Qed.

Lemma od_get_del_eq (k : Z) (d : list (Z * V)) : od_get k (od_del k d) = None.
Proof.
  induction d as [|[k' v'] d IH]; cbn; [reflexivity|].
  destruct (k' =? k) eqn:Hk; cbn; [exact IH|]. rewrite Hk. exact IH.
Qed.

Lemma od_get_del_ne (k k' : Z) (d : list (Z * V)) :
  k <> k' -> od_get k' (od_del k d) = od_get k' d.
Proof.
  intros Hne. induction d as [|[k0 v0] d IH]; cbn; [reflexivity|].
  destruct (k0 =? k) eqn:Hk; cbn.
  - apply Z.eqb_eq in Hk. subst k0.
    replace (k =? k') with false by (symmetry; apply Z.eqb_neq; exact Hne).
    exact IH.
  - destruct (k0 =? k'); [reflexivity | exact IH].
Qed.

Lemma od_get_del_none (k k' : Z) (d : list (Z * V)) :
  od_get k' d = None -> od_get k' (od_del k d) = None.
Proof.
  intros Hnone. destruct (decide (k = k')) as [->|Hne].
  - apply od_get_del_eq.
  - rewrite od_get_del_ne by exact Hne. exact Hnone.
Qed.

Lemma od_get_foldl_del_none (k : Z) (l : list Z) (d : list (Z * V)) :
  od_get k d = None -> od_get k (foldl (fun d u => od_del u d) d l) = None.
Proof.
  revert d. induction l as [|u l IH]; intros d Hnone; cbn; [exact Hnone|].
  apply IH, od_get_del_none, Hnone.
Qed.

Lemma od_get_foldl_del_notin (k : Z) (l : list Z) (d : list (Z * V)) :
  k ∉ l -> od_get k (foldl (fun d u => od_del u d) d l) = od_get k d.
Proof.
  revert d. induction l as [|u l IH]; intros d Hnotin; cbn; [reflexivity|].
  apply not_elem_of_cons in Hnotin. destruct Hnotin as [Hne Hnotin].
  rewrite IH by exact Hnotin. apply od_get_del_ne. congruence.
Qed.

Lemma od_set_length (k : Z) (v : V) (d : list (Z * V)) :
  (length (od_set k v d) <= S (length d))%nat.
Proof.
  induction d as [|[k' v'] d IH]; cbn; [lia|].
  destruct (k' =? k); cbn; lia.
Qed.

Lemma od_set_keys (k : Z) (v : V) (d : list (Z * V)) :
  map fst (od_set k v d)
  = if decide (k ∈ map fst d) then map fst d else map fst d ++ [k].
Proof.
  induction d as [|[k' v'] d IH]; cbn; [reflexivity|].
  destruct (k' =? k) eqn:Hk.
  - apply Z.eqb_eq in Hk. subst k'. cbn.
    rewrite decide_True by (left). reflexivity.
  - apply Z.eqb_neq in Hk. cbn. rewrite IH.
    destruct (decide (k ∈ map fst d)) as [Hin|Hnotin].
    + rewrite decide_True by (right; exact Hin). reflexivity.
    + rewrite decide_False; [reflexivity|].
      intros Hin. apply elem_of_cons in Hin. destruct Hin; congruence.
Qed.

Lemma od_set_NoDup (k : Z) (v : V) (d : list (Z * V)) :
  NoDup (map fst d) -> NoDup (map fst (od_set k v d)).
Proof.
  intros Hnd. rewrite od_set_keys.
  destruct (decide (k ∈ map fst d)) as [Hin|Hnotin]; [exact Hnd|].
  apply NoDup_app. split; [exact Hnd|]. split.
  - intros x Hx Hx'. apply list_elem_of_singleton in Hx'. congruence.
  - apply NoDup_singleton.
Qed.

Lemma od_del_keys_elem (k x : Z) (d : list (Z * V)) :
  x ∈ map fst (od_del k d) -> x ∈ map fst d.
Proof.
  induction d as [|[k' v'] d IH]; cbn; [tauto|].
  destruct (k' =? k); cbn; rewrite ?elem_of_cons; intuition.
Qed.

Lemma od_del_NoDup (k : Z) (d : list (Z * V)) :
  NoDup (map fst d) -> NoDup (map fst (od_del k d)).
Proof.
  induction d as [|[k' v'] d IH]; cbn; intros Hnd; [exact Hnd|].
  apply NoDup_cons in Hnd. destruct Hnd as [Hnotin Hnd].
  destruct (k' =? k); cbn; [exact (IH Hnd)|].
  apply NoDup_cons. split; [|exact (IH Hnd)].
  intros Hin. apply Hnotin, (od_del_keys_elem k), Hin.
Qed.

Lemma od_foldl_del_NoDup (l : list Z) (d : list (Z * V)) :
  NoDup (map fst d) -> NoDup (map fst (foldl (fun d u => od_del u d) d l)).
Proof.
  revert d. induction l as [|u l IH]; intros d Hnd; cbn; [exact Hnd|].
  apply IH, od_del_NoDup, Hnd.
Qed.

(** With distinct keys, a binding found anywhere is the one [od_get] finds. *)
Lemma od_get_lookup (k : Z) (v : V) (d : list (Z * V)) (i : nat) :
  NoDup (map fst d) -> d !! i = Some (k, v) -> od_get k d = Some v.
Proof.
  revert i. induction d as [|[k' v'] d IH]; intros i Hnd Hi; [discriminate|].
  cbn in Hnd. apply NoDup_cons in Hnd. destruct Hnd as [Hnotin Hnd].
  destruct i as [|i]; cbn in Hi.
  - injection Hi as -> ->. cbn. rewrite Z.eqb_refl. reflexivity.
  - cbn. destruct (k' =? k) eqn:Hk.
    + apply Z.eqb_eq in Hk. subst k'. exfalso. apply Hnotin.
      apply list_elem_of_fmap. exists (k, v). split; [reflexivity|].
      apply list_elem_of_lookup. exists i. exact Hi.
    + apply (IH i); assumption.
Qed.

End ordered_dict_facts.

Section session_store.
Import conversation_handler.
Context {Any : Type}.
Variable clock : nat -> Z.

Abbreviation Handler := (EnhancedConversationHandler Any).
Abbreviation Progress := (UserProgress Any).

Lemma expired_users_state (items : list (Z * Progress)) (self : Handler) :
  snd (expired_users clock items self) = set_ticks (length items + ticks self) self.
Proof.
  revert self. induction items as [|[uid progress] items IH]; intros self.
  - destruct self; reflexivity.
  - cbn [expired_users]. unfold _is_data_valid, datetime_now.
    specialize (IH (set_ticks (S (ticks self)) self)).
    destruct (expired_users clock items (set_ticks (S (ticks self)) self)) as [rest self'].
    cbn [fst snd] in *. rewrite IH. destruct self; cbn. unfold set_ticks; cbn.
    f_equal. lia.
Qed.

(** A key is reported expired only for an entry found invalid at the
    reading of the clock made for it. *)
Lemma expired_users_elem (uid : Z) (items : list (Z * Progress)) (self : Handler) :
  uid ∈ fst (expired_users clock items self) ->
  exists (i : nat) (progress : Progress),
    items !! i = Some (uid, progress)
    /\ (clock (ticks self + i) - hours (ttl_hours self) <? last_activity progress) = false.
Proof.
  revert self. induction items as [|[uid' progress] items IH]; intros self Hin.
  - cbn in Hin. apply elem_of_nil in Hin. contradiction.
  - cbn [expired_users] in Hin. unfold _is_data_valid, datetime_now in Hin.
    specialize (IH (set_ticks (S (ticks self)) self)).
    destruct (expired_users clock items (set_ticks (S (ticks self)) self)) as [rest self'].
    cbn [fst snd ttl_hours set_ticks] in *.
    destruct (clock (ticks self) - hours (ttl_hours self) <? last_activity progress)
      eqn:Hvalid.
    + destruct (IH Hin) as (i & p & Hi & Hbad).
      exists (S i), p. split; [exact Hi|].
      replace (ticks self + S i)%nat with (S (ticks self) + i)%nat by lia. exact Hbad.
    + apply elem_of_cons in Hin. destruct Hin as [-> | Hin].
      * exists 0%nat, progress. split; [reflexivity|].
        rewrite Nat.add_0_r. exact Hvalid.
      * destruct (IH Hin) as (i & p & Hi & Hbad).
        exists (S i), p. split; [exact Hi|].
        replace (ticks self + S i)%nat with (S (ticks self) + i)%nat by lia. exact Hbad.
Qed.

Lemma save_data_state (self : Handler) :
  ticks (_save_data clock self) = (length (_user_data self) + ticks self)%nat
  /\ ttl_hours (_save_data clock self) = ttl_hours self.
Proof.
  unfold _save_data, _cleanup_expired_data.
  pose proof (expired_users_state (_user_data self) self) as Hstate.
  destruct (expired_users clock (_user_data self) self) as [expired self'].
  cbn [snd] in Hstate. subst self'. split; reflexivity.
Qed.

Lemma save_data_keeps_absent (uid : Z) (self : Handler) :
  od_get uid (_user_data self) = None ->
  od_get uid (_user_data (_save_data clock self)) = None.
Proof.
  intros Hnone. unfold _save_data, _cleanup_expired_data.
  pose proof (expired_users_state (_user_data self) self) as Hstate.
  destruct (expired_users clock (_user_data self) self) as [expired self'].
  cbn [snd] in Hstate. subst self'. cbn.
  apply od_get_foldl_del_none, Hnone.
Qed.

Lemma save_data_keeps_valid (uid : Z) (progress : Progress) (self : Handler) :
  NoDup (map fst (_user_data self)) ->
  od_get uid (_user_data self) = Some progress ->
  (forall i : nat, (i < length (_user_data self))%nat ->
     clock (ticks self + i) - hours (ttl_hours self) < last_activity progress) ->
  od_get uid (_user_data (_save_data clock self)) = Some progress.
Proof.
  intros Hnd Hget Hclock. unfold _save_data, _cleanup_expired_data.
  pose proof (expired_users_state (_user_data self) self) as Hstate.
  pose proof (expired_users_elem uid (_user_data self) self) as Helem.
  destruct (expired_users clock (_user_data self) self) as [expired self'].
  cbn [fst snd] in *. subst self'. cbn.
  rewrite od_get_foldl_del_notin; [exact Hget|].
  intros Hin. destruct (Helem Hin) as (i & p & Hi & Hbad).
  assert (p = progress) as ->.
  { pose proof (od_get_lookup uid p (_user_data self) i Hnd Hi) as Hp. congruence. }
  apply Z.ltb_ge in Hbad.
  specialize (Hclock i (lookup_lt_Some _ _ _ Hi)). lia.
Qed.

Lemma save_data_NoDup (self : Handler) :
  NoDup (map fst (_user_data self)) ->
  NoDup (map fst (_user_data (_save_data clock self))).
Proof.
  intros Hnd. unfold _save_data, _cleanup_expired_data.
  pose proof (expired_users_state (_user_data self) self) as Hstate.
  destruct (expired_users clock (_user_data self) self) as [expired self'].
  cbn [snd] in Hstate. subst self'. cbn.
  apply od_foldl_del_NoDup, Hnd.
Qed.

(** The keys of the store stay distinct, as those of a [dict] are. *)
Lemma save_progress_NoDup (user_id' : Z) (state : ConversationState)
    (context_data : ContextData Any) (self : Handler) :
  NoDup (map fst (_user_data self)) ->
  NoDup (map fst (_user_data (save_progress clock user_id' state context_data self))).
Proof.
  intros Hnd. unfold save_progress, datetime_now.
  apply save_data_NoDup. cbn. apply od_set_NoDup, Hnd.
Qed.

Lemma load_progress_NoDup (user_id' : Z) (self : Handler) :
  NoDup (map fst (_user_data self)) ->
  NoDup (map fst (_user_data (snd (load_progress clock user_id' self)))).
Proof.
  intros Hnd. unfold load_progress.
  destruct (od_get user_id' (_user_data self)) as [progress|]; [|exact Hnd].
  unfold _is_data_valid, datetime_now.
  destruct (_ <? _); cbn [negb snd]; [exact Hnd|].
  apply save_data_NoDup. cbn. apply od_del_NoDup, Hnd.
Qed.

(** C3 (as the code has it). For a stored session, [load_progress]
    compares the reading of the clock with the last activity: when less
    than the TTL has passed it returns the session and leaves the store as
    it is; when the TTL or more has passed it returns nothing and the
    session is gone from the store. A session idle for the TTL exactly is
    expired. *)
Theorem load_progress_expires_at_ttl :
  forall (user_id' : Z) (progress : Progress) (self : Handler),
    od_get user_id' (_user_data self) = Some progress ->
    let now := clock (ticks self) in
    let result := load_progress clock user_id' self in
    if now - last_activity progress <? hours (ttl_hours self) then
      fst result = Some progress
      /\ _user_data (snd result) = _user_data self
    else
      fst result = None
      /\ od_get user_id' (_user_data (snd result)) = None.
Proof.
  intros user_id' progress self Hget now result. subst result now.
  unfold load_progress. rewrite Hget. unfold _is_data_valid, datetime_now.
  cbn [ttl_hours set_ticks].
  destruct (clock (ticks self) - last_activity progress <? hours (ttl_hours self))
    eqn:Hfresh.
  - apply Z.ltb_lt in Hfresh.
    replace (clock (ticks self) - hours (ttl_hours self) <? last_activity progress)
      with true by (symmetry; apply Z.ltb_lt; lia).
    cbn. split; reflexivity.
  - apply Z.ltb_ge in Hfresh.
    replace (clock (ticks self) - hours (ttl_hours self) <? last_activity progress)
      with false by (symmetry; apply Z.ltb_ge; lia).
    cbn [negb fst snd]. split; [reflexivity|].
    apply save_data_keeps_absent. cbn. apply od_get_del_eq.
Qed.

(** C9. When every reading of the clock during the two calls is less than
    the TTL after the reading taken by [save_progress], [load_progress]
    right after [save_progress] returns a session with the saved state,
    with each of the five payload fields when the payload has it and
    otherwise the value stored before (or the default of a new session),
    and with the time of the save as its last activity. *)
Theorem save_progress_then_load_progress :
  forall (user_id' : Z) (state : ConversationState) (context_data : ContextData Any)
         (self : Handler),
    NoDup (map fst (_user_data self)) ->
    (forall n : nat,
        (ticks self < n <= ticks self + length (_user_data self) + 2)%nat ->
        clock n - clock (ticks self) < hours (ttl_hours self)) ->
    let now := clock (ticks self) in
    let prior := od_get user_id' (_user_data self) in
    let old {T} (field : Progress -> T) (fresh : T) : T :=
      match prior with
      | Some progress => field progress
      | None => fresh
      end in
    fst (load_progress clock user_id' (save_progress clock user_id' state context_data self))
    = Some
        {| user_id := old user_id user_id';
           current_state := state;
           adam_answers := default (old adam_answers []) (cd_adam_answers context_data);
           ams_score := default (old ams_score 0) (cd_ams_score context_data);
           ams_question_index :=
             default (old ams_question_index 0) (cd_ams_question_index context_data);
           lifestyle_answers :=
             default (old lifestyle_answers []) (cd_lifestyle_answers context_data);
           lifestyle_question_index :=
             default (old lifestyle_question_index 0)
                     (cd_lifestyle_question_index context_data);
           start_time := old start_time now;
           last_activity := now |}.
Proof.
  intros user_id' state context_data self Hnd Hclock now prior old.
  set (saved := {| user_id := old _ user_id user_id'; current_state := state;
                   adam_answers := _; ams_score := _; ams_question_index := _;
                   lifestyle_answers := _; lifestyle_question_index := _;
                   start_time := _; last_activity := now |}).
  set (stored := set_user_data (od_set user_id' saved (_user_data self))
                   (set_ticks (S (ticks self)) self)).
  assert (Hsave : save_progress clock user_id' state context_data self
                  = _save_data clock stored).
  { unfold save_progress, datetime_now, stored, saved, old, prior. cbn [_user_data set_ticks].
    destruct (od_get user_id' (_user_data self)); reflexivity. }
  assert (Hlen : (length (_user_data stored) <= S (length (_user_data self)))%nat)
    by apply od_set_length.
  assert (Hkept : od_get user_id' (_user_data (_save_data clock stored)) = Some saved).
  { apply save_data_keeps_valid.
    - apply od_set_NoDup, Hnd.
    - apply od_get_set_eq.
    - intros i Hi. cbn [ticks stored set_user_data set_ticks ttl_hours last_activity saved].
      specialize (Hclock (S (ticks self) + i)%nat ltac:(lia)). fold now in Hclock. lia. }
  destruct (save_data_state stored) as [Hticks Httl].
  rewrite Hsave. unfold load_progress. rewrite Hkept.
  unfold _is_data_valid, datetime_now. cbn [ttl_hours set_ticks]. rewrite Hticks, Httl.
  cbn [ticks stored set_user_data set_ticks ttl_hours last_activity saved].
  specialize (Hclock (length (_user_data stored) + S (ticks self))%nat ltac:(lia)).
  fold now in Hclock.
  replace (clock (length (_user_data stored) + S (ticks self)) - hours (ttl_hours self) <? now)
    with true by (symmetry; apply Z.ltb_lt; lia).
  reflexivity.
Qed.

End session_store.

Section session_store_instances.
Import conversation_handler.

Lemma load_progress_expires_at_ttl_witness :
  let clock := fun n : nat => Z.of_nat n in
  let progress :=
    {| user_id := 7; current_state := AMS; adam_answers := [true; false];
       ams_score := 12; ams_question_index := 3;
       lifestyle_answers := ([] : list (string * Z));
       lifestyle_question_index := 0; start_time := 0; last_activity := 0 |} in
  let self := {| ticks := 5; _user_data := [(7, progress)]; ttl_hours := 24;
                 timeout_minutes := 30; cleanup_interval_minutes := 60 |} in
  let now := clock (ticks self) in
  let result := load_progress clock 7 self in
  if now - last_activity progress <? hours (ttl_hours self) then
    fst result = Some progress /\ _user_data (snd result) = _user_data self
  else
    fst result = None /\ od_get 7 (_user_data (snd result)) = None.
Proof.
  apply (load_progress_expires_at_ttl (Any := Z) (fun n : nat => Z.of_nat n) 7).
  reflexivity.
Defined.

(** C3 (the claim as stated fails). A session idle for exactly 24 hours,
    so not for more than the TTL, is not returned: it is dropped. *)
Lemma load_progress_drops_session_idle_for_ttl :
  let clock := fun _ : nat => hours 24 in
  let progress :=
    {| user_id := 7; current_state := AMS; adam_answers := [true; false];
       ams_score := 12; ams_question_index := 3;
       lifestyle_answers := ([] : list (string * Z));
       lifestyle_question_index := 0; start_time := 0; last_activity := 0 |} in
  let self := {| ticks := 0; _user_data := [(7, progress)]; ttl_hours := 24;
                 timeout_minutes := 30; cleanup_interval_minutes := 60 |} in
  (clock (ticks self) - last_activity progress <=? hours (ttl_hours self)) = true
  /\ (hours (ttl_hours self) <? clock (ticks self) - last_activity progress) = false
  /\ fst (load_progress clock 7 self) = None
  /\ od_get 7 (_user_data (snd (load_progress clock 7 self))) = None.
Proof. vm_compute. repeat split; reflexivity. Qed.

Lemma save_progress_then_load_progress_witness :
  let clock := fun n : nat => Z.of_nat n in
  let context_data :=
    {| cd_adam_answers := Some [true; false; true];
       cd_ams_score := None;
       cd_ams_question_index := None;
       cd_lifestyle_answers := Some [("q1", 30)];
       cd_lifestyle_question_index := Some 1 |} in
  let self := {| ticks := 0; _user_data := ([] : list (Z * UserProgress Z));
                 ttl_hours := 24; timeout_minutes := 30;
                 cleanup_interval_minutes := 60 |} in
  fst (load_progress clock 7 (save_progress clock 7 ADAM context_data self))
  = Some
      {| user_id := 7;
         current_state := ADAM;
         adam_answers := [true; false; true];
         ams_score := 0;
         ams_question_index := 0;
         lifestyle_answers := [("q1", 30)];
         lifestyle_question_index := 1;
         start_time := 0;
         last_activity := 0 |}.
Proof.
  apply (save_progress_then_load_progress (Any := Z) (fun n : nat => Z.of_nat n) 7 ADAM
           {| cd_adam_answers := Some [true; false; true];
              cd_ams_score := None;
              cd_ams_question_index := None;
              cd_lifestyle_answers := Some [("q1", 30)];
              cd_lifestyle_question_index := Some 1 |}
           {| ticks := 0; _user_data := []; ttl_hours := 24; timeout_minutes := 30;
              cleanup_interval_minutes := 60 |}).
  - constructor.
  - intros n Hn. cbn in *. unfold hours. lia.
Defined.

End session_store_instances.

(** ** Sanitization *)

Section sanitization.
Import PyStr security_manager.

Lemma all_chars_app (p : ascii -> bool) (s t : string) :
  all_chars p (s +:+ t) = all_chars p s && all_chars p t.
Proof.
  induction s as [|c s IH]; [reflexivity|].
  rewrite string_app_cons. cbn [all_chars]. rewrite IH. apply andb_assoc.
Qed.

Lemma all_chars_In (p : ascii -> bool) (s : string) (c : ascii) :
  all_chars p s = true -> In c (list_ascii_of_string s) -> p c = true.
Proof.
  induction s as [|d s IH]; [intros _ []|].
  cbn [all_chars list_ascii_of_string In]. intros [Hd Hs]%andb_true_iff [->|Hin].
  - exact Hd.
  - apply IH; assumption.
Qed.

Lemma all_chars_lstrip_by (p sp : ascii -> bool) (s : string) :
  all_chars p s = true -> all_chars p (lstrip_by sp s) = true.
Proof.
  induction s as [|c s IH]; [reflexivity|].
  cbn [lstrip_by]. intros H. destruct (sp c); [|exact H].
  cbn [all_chars] in H. apply andb_true_iff in H. apply IH, H.
Qed.

Lemma all_chars_rstrip_by (p sp : ascii -> bool) (s : string) :
  all_chars p s = true -> all_chars p (rstrip_by sp s) = true.
Proof.
  induction s as [|c s IH]; [reflexivity|].
  cbn [all_chars rstrip_by]. intros [Hc Hs]%andb_true_iff. specialize (IH Hs).
  destruct (rstrip_by sp s) as [|d r].
  - destruct (sp c); [reflexivity|]. cbn [all_chars]. rewrite Hc. reflexivity.
  - cbn [all_chars] in *. rewrite Hc. exact IH.
Qed.

Lemma all_chars_slice_to (p : ascii -> bool) (n : nat) (s : string) :
  all_chars p s = true -> all_chars p (slice_to n s) = true.
Proof.
  revert s. induction n as [|n IH]; intros [|c s]; try reflexivity.
  cbn [all_chars slice_to]. intros [Hc Hs]%andb_true_iff.
  rewrite Hc, (IH s Hs). reflexivity.
Qed.

Lemma all_chars_sub_spaces (p : ascii -> bool) (in_run : bool) (s : string) :
  p " "%char = true ->
  all_chars p s = true -> all_chars p (sub_spaces in_run s) = true.
Proof.
  intros Hblank. revert in_run.
  induction s as [|c s IH]; intros in_run; [reflexivity|].
  cbn [all_chars sub_spaces]. intros [Hc Hs]%andb_true_iff.
  destruct (isspace c).
  - destruct in_run; [apply IH, Hs|].
    cbn [all_chars]. rewrite Hblank, (IH true Hs). reflexivity.
  - cbn [all_chars]. rewrite Hc, (IH false Hs). reflexivity.
Qed.

Lemma remove_char_zero_no_null (s : string) :
  all_chars (fun c => negb (Ascii.eqb c Ascii.zero)) (remove_char Ascii.zero s) = true.
Proof.
  induction s as [|c s IH]; [reflexivity|].
  cbn [remove_char]. destruct (Ascii.eqb c Ascii.zero) eqn:Hc; [exact IH|].
  cbn [all_chars]. rewrite Hc, IH. reflexivity.
Qed.

Lemma html_escape_no_markup (s : string) :
  all_chars (fun c => negb (Ascii.eqb c Ascii.zero)) s = true ->
  all_chars (fun c => negb (is_markup_char c)) (html_escape s) = true.
Proof.
  induction s as [|c s IH]; [reflexivity|].
  cbn [all_chars html_escape]. intros [Hc Hs]%andb_true_iff. specialize (IH Hs).
  destruct (Ascii.eqb c "&") eqn:H1; [rewrite all_chars_app, IH; reflexivity|].
  destruct (Ascii.eqb c "<") eqn:H2; [rewrite all_chars_app, IH; reflexivity|].
  destruct (Ascii.eqb c ">") eqn:H3; [rewrite all_chars_app, IH; reflexivity|].
  destruct (Ascii.eqb c quote) eqn:H4; [rewrite all_chars_app, IH; reflexivity|].
  destruct (Ascii.eqb c "'") eqn:H5; [rewrite all_chars_app, IH; reflexivity|].
  cbn [all_chars]. rewrite IH. unfold is_markup_char.
  rewrite H2, H3, H4, H5. apply negb_true_iff in Hc. rewrite Hc. reflexivity.
Qed.

(** X4. Whatever the text, [sanitize_input] returns at most 1000
    characters, none of which is [<], [>], a double or single quote, or
    the null character. *)
Theorem sanitize_input_no_markup :
  forall text : string,
    (String.length (sanitize_input text) <= 1000)%nat
    /\ (forall c : ascii,
          In c (list_ascii_of_string (sanitize_input text)) ->
          c <> "<"%char /\ c <> ">"%char /\ c <> quote /\ c <> "'"%char
          /\ c <> Ascii.zero).
Proof.
  intros text. split.
  - unfold sanitize_input.
    destruct (1000 <? String.length _)%nat eqn:Hlen.
    + apply slice_to_length.
    + apply Nat.ltb_ge in Hlen. exact Hlen.
  - intros c Hin.
    assert (Hall : all_chars (fun c => negb (is_markup_char c)) (sanitize_input text) = true).
    { unfold sanitize_input.
      assert (H : all_chars (fun c => negb (is_markup_char c))
                    (strip (sub_spaces false (html_escape (remove_char Ascii.zero text))))
                  = true).
      { unfold strip. apply all_chars_rstrip_by, all_chars_lstrip_by.
        apply all_chars_sub_spaces; [reflexivity|].
        apply html_escape_no_markup, remove_char_zero_no_null. }
      destruct (1000 <? String.length _)%nat; [apply all_chars_slice_to|]; exact H. }
    apply (all_chars_In _ _ c Hall) in Hin. apply negb_true_iff in Hin.
    unfold is_markup_char in Hin.
    repeat (apply orb_false_iff in Hin; destruct Hin as [Hin ?]).
    repeat split; intros ->; discriminate.
Qed.

Lemma blanks_single_sub_spaces (b : bool) (s : string) :
  blanks_single b (sub_spaces b s) = true.
Proof.
  revert b. induction s as [|c s IH]; intros b; [reflexivity|].
  cbn [sub_spaces]. destruct (isspace c) eqn:Hc.
  - destruct b; [apply IH|].
    cbn [blanks_single]. replace (isspace " ") with true by reflexivity.
    rewrite IH. reflexivity.
  - cbn [blanks_single]. rewrite Hc. apply IH.
Qed.

Lemma blanks_single_weaken (b : bool) (s : string) :
  blanks_single b s = true -> blanks_single false s = true.
Proof.
  destruct s as [|c s]; [reflexivity|]. cbn [blanks_single].
  destruct (isspace c); [|tauto].
  intros [[-> _]%andb_true_iff ->]%andb_true_iff. reflexivity.
Qed.

Lemma blanks_single_lstrip (b : bool) (s : string) :
  blanks_single b s = true -> blanks_single false (lstrip_by isspace s) = true.
Proof.
  revert b. induction s as [|c s IH]; intros b; [reflexivity|].
  cbn [lstrip_by]. destruct (isspace c) eqn:Hc.
  - cbn [blanks_single]. rewrite Hc. intros [_ H]%andb_true_iff. apply (IH true H).
  - apply blanks_single_weaken.
Qed.

Lemma blanks_single_rstrip (b : bool) (s : string) :
  blanks_single b s = true -> blanks_single b (rstrip_by isspace s) = true.
Proof.
  revert b. induction s as [|c s IH]; intros b; [reflexivity|].
  cbn [rstrip_by blanks_single]. intros H.
  destruct (rstrip_by isspace s) as [|d r] eqn:Hr.
  - destruct (isspace c) eqn:Hc; [reflexivity|].
    cbn [blanks_single]. rewrite Hc. reflexivity.
  - cbn [blanks_single]. fold (blanks_single true (String d r)).
    fold (blanks_single false (String d r)).
    destruct (isspace c).
    + apply andb_true_iff in H. destruct H as [-> H]. apply (IH true H).
    + apply (IH false H).
Qed.

Lemma blanks_single_slice_to (b : bool) (n : nat) (s : string) :
  blanks_single b s = true -> blanks_single b (slice_to n s) = true.
Proof.
  revert b s. induction n as [|n IH]; intros b [|c s]; try reflexivity.
  cbn [slice_to blanks_single]. destruct (isspace c).
  - intros [-> H]%andb_true_iff. apply (IH true s H).
  - apply IH.
Qed.

Lemma blanks_single_two_blanks (b : bool) (pre post : string) :
  blanks_single b (pre +:+ "  " +:+ post) = false.
Proof.
  revert b. induction pre as [|c pre IH]; intros b.
  - rewrite string_app_nil_l, !string_app_cons, string_app_nil_l.
    cbn [blanks_single]. replace (isspace " ") with true by reflexivity.
    cbn. destruct b; reflexivity.
  - rewrite string_app_cons. cbn [blanks_single]. rewrite !IH.
    destruct (isspace c); [apply andb_false_r | reflexivity].
Qed.

Lemma blanks_single_In (b : bool) (s : string) (c : ascii) :
  blanks_single b s = true ->
  In c (list_ascii_of_string s) -> isspace c = true -> c = " "%char.
Proof.
  revert b. induction s as [|d s IH]; intros b; [intros _ []|].
  cbn [blanks_single list_ascii_of_string In]. intros H [->|Hin] Hc.
  - rewrite Hc in H. apply andb_true_iff in H. destruct H as [H _].
    apply andb_true_iff in H. destruct H as [H _]. apply Ascii.eqb_eq, H.
  - destruct (isspace d).
    + apply andb_true_iff in H. destruct H as [_ H]. apply (IH true); assumption.
    + apply (IH false); assumption.
Qed.

Lemma lstrip_by_head (sp : ascii -> bool) (s : string) (c : ascii) (r : string) :
  lstrip_by sp s = String c r -> sp c = false.
Proof.
  induction s as [|d s IH]; [discriminate|].
  cbn [lstrip_by]. destruct (sp d) eqn:Hd; [exact IH|].
  intros H. injection H as -> _. exact Hd.
Qed.

Lemma rstrip_by_head (sp : ascii -> bool) (s : string) (c : ascii) (r : string) :
  rstrip_by sp s = String c r -> exists s', s = String c s'.
Proof.
  destruct s as [|d s]; [discriminate|]. cbn [rstrip_by].
  destruct (rstrip_by sp s); [destruct (sp d); [discriminate|]|];
    intros H; injection H as -> _; eauto.
Qed.

Lemma slice_to_head (n : nat) (s : string) (c : ascii) (r : string) :
  slice_to n s = String c r -> exists s', s = String c s'.
Proof.
  destruct n as [|n], s as [|d s]; try discriminate.
  cbn [slice_to]. intros H. injection H as -> _. eauto.
Qed.

Lemma rstrip_by_last (sp : ascii -> bool) (s pre : string) (c : ascii) :
  rstrip_by sp s = pre +:+ String c EmptyString -> sp c = false.
Proof.
  revert pre. induction s as [|d s IH]; intros pre.
  - cbn [rstrip_by]. intros H. symmetry in H.
    apply string_app_eq_nil in H. destruct H as [_ H]. discriminate.
  - cbn [rstrip_by]. destruct (rstrip_by sp s) as [|e r] eqn:Hr.
    + destruct (sp d) eqn:Hd.
      * intros H. symmetry in H. apply string_app_eq_nil in H.
        destruct H as [_ H]. discriminate.
      * intros H. symmetry in H. apply string_app_eq_cons in H.
        destruct H as [[_ H] | (pre' & _ & H)].
        -- injection H as ->. exact Hd.
        -- symmetry in H. apply string_app_eq_nil in H. destruct H as [_ H]. discriminate.
    + intros H. symmetry in H. apply string_app_eq_cons in H.
      destruct H as [[_ H] | (pre' & _ & H)]; [discriminate|].
      apply (IH pre'). exact H.
Qed.

Lemma slice_to_full_length (n : nat) (s : string) :
  (n <= String.length s)%nat -> String.length (slice_to n s) = n.
Proof.
  revert s. induction n as [|n IH]; intros [|c s]; cbn [slice_to String.length];
    try reflexivity; try lia.
  intros H. rewrite IH by lia. reflexivity.
Qed.

(** X5. In the text returned by [sanitize_input] every whitespace
    character is a blank, no two blanks are adjacent and the text does
    not start with a blank; it does not end with one either when it is
    shorter than 1000 characters, that is, when it was not cut. *)
Theorem sanitize_input_whitespace :
  forall text : string,
    let r := sanitize_input text in
    (forall c : ascii,
       In c (list_ascii_of_string r) -> isspace c = true -> c = " "%char)
    /\ (forall pre post : string, r <> pre +:+ "  " +:+ post)
    /\ (forall post : string, r <> " " +:+ post)
    /\ ((String.length r < 1000)%nat -> forall pre : string, r <> pre +:+ " ").
Proof.
  intros text r.
  set (t := sub_spaces false (html_escape (remove_char Ascii.zero text))).
  assert (Hr : r = if (1000 <? String.length (strip t))%nat
                   then slice_to 1000 (strip t) else strip t) by reflexivity.
  assert (Hstrip : blanks_single false (strip t) = true).
  { unfold strip. apply blanks_single_rstrip.
    apply (blanks_single_lstrip false), blanks_single_sub_spaces. }
  assert (Hblanks : blanks_single false r = true).
  { rewrite Hr. destruct (1000 <? _)%nat; [apply blanks_single_slice_to|]; exact Hstrip. }
  assert (Hhead : forall post, strip t <> String " " post).
  { intros post H. unfold strip in H.
    apply rstrip_by_head in H. destruct H as [s' H].
    apply lstrip_by_head in H. discriminate. }
  repeat split.
  - intros c. apply (blanks_single_In false). exact Hblanks.
  - intros pre post H. rewrite H, blanks_single_two_blanks in Hblanks. discriminate.
  - intros post H. rewrite string_app_cons, string_app_nil_l in H.
    rewrite Hr in H. destruct (1000 <? _)%nat.
    + apply slice_to_head in H. destruct H as [s' H]. apply (Hhead s' H).
    + apply (Hhead post H).
  - intros Hlen pre H.
    assert (Hcut : r = strip t).
    { rewrite Hr. destruct (1000 <? String.length (strip t))%nat eqn:Hlong; [|reflexivity].
      apply Nat.ltb_lt in Hlong. exfalso.
      rewrite Hr in Hlen.
      replace (1000 <? String.length (strip t))%nat with true in Hlen
        by (symmetry; apply Nat.ltb_lt; exact Hlong).
      rewrite slice_to_full_length in Hlen by lia. lia. }
    rewrite Hcut in H. unfold strip in H. apply rstrip_by_last in H. discriminate.
Qed.

End sanitization.

(** ** Queries on the event log *)

Section event_queries.
Import security_manager.

Lemma insert_by_timestamp_Permutation (e : SecurityEvent) (l : list SecurityEvent) :
  Permutation (insert_by_timestamp e l) (e :: l).
Proof.
  induction l as [|e' l IH]; [reflexivity|].
  cbn [insert_by_timestamp]. destruct (timestamp e <? timestamp e'); [|reflexivity].
  rewrite IH. apply perm_swap.
Qed.

Lemma sort_newest_first_Permutation (l : list SecurityEvent) :
  Permutation (sort_newest_first l) l.
Proof.
  induction l as [|e l IH]; [reflexivity|].
  cbn [sort_newest_first foldr]. rewrite insert_by_timestamp_Permutation.
  apply perm_skip, IH.
Qed.

Lemma insert_by_timestamp_newest_first (e : SecurityEvent) (l : list SecurityEvent) :
  newest_first l -> newest_first (insert_by_timestamp e l).
Proof.
  induction l as [|e' l IH]; [cbn; auto|].
  cbn [insert_by_timestamp newest_first]. intros [Hall Hl].
  destruct (timestamp e <? timestamp e') eqn:Hlt.
  - apply Z.ltb_lt in Hlt. cbn [newest_first]. split; [|apply IH, Hl].
    rewrite insert_by_timestamp_Permutation. constructor; [lia | exact Hall].
  - apply Z.ltb_ge in Hlt. cbn [newest_first]. repeat split; try assumption.
    constructor; [exact Hlt|].
    eapply Forall_impl; [exact Hall|]. cbn. intros x Hx. lia.
Qed.

Lemma sort_newest_first_sorted (l : list SecurityEvent) :
  newest_first (sort_newest_first l).
Proof.
  induction l as [|e l IH]; [exact I|].
  apply insert_by_timestamp_newest_first, IH.
Qed.

Lemma insert_by_timestamp_stable (t : Z) (e : SecurityEvent) (l : list SecurityEvent) :
  List.filter (fun x => timestamp x =? t) (insert_by_timestamp e l)
  = List.filter (fun x => timestamp x =? t) (e :: l).
Proof.
  induction l as [|e' l IH]; [reflexivity|].
  cbn [insert_by_timestamp]. destruct (timestamp e <? timestamp e') eqn:Hlt; [|reflexivity].
  apply Z.ltb_lt in Hlt. cbn [List.filter] in *. rewrite IH.
  destruct (timestamp e =? t) eqn:He, (timestamp e' =? t) eqn:He'; try reflexivity.
  apply Z.eqb_eq in He, He'. lia.
Qed.

Lemma sort_newest_first_stable (t : Z) (l : list SecurityEvent) :
  List.filter (fun x => timestamp x =? t) (sort_newest_first l)
  = List.filter (fun x => timestamp x =? t) l.
Proof.
  induction l as [|e l IH]; [reflexivity|].
  cbn [sort_newest_first foldr]. rewrite insert_by_timestamp_stable.
  cbn [List.filter]. fold (sort_newest_first l). rewrite IH. reflexivity.
Qed.

Lemma list_filter_filter {A} (p q : A -> bool) (l : list A) :
  List.filter q (List.filter p l) = List.filter (fun x => p x && q x) l.
Proof.
  induction l as [|x l IH]; [reflexivity|].
  cbn [List.filter]. destruct (p x); cbn [andb List.filter]; rewrite IH; reflexivity.
Qed.

(** The list that [get_security_events] sorts. *)
Lemma get_security_events_fst (user_id : option Z)
    (event_type' : option SecurityEventType) (severity' : option SecuritySeverity)
    (limit : Z) (self : SecurityManager) :
  fst (get_security_events user_id event_type' severity' limit self)
  = slice_to_index limit
      (sort_newest_first
         (List.filter (event_selected user_id event_type' severity')
            (security_events self))).
Proof.
  assert (Hid : forall l : list SecurityEvent, l = List.filter (fun _ => true) l).
  { intros l. induction l as [|x l IH]; [reflexivity|]. cbn. rewrite <- IH. reflexivity. }
  unfold get_security_events, event_selected. cbn [fst]. do 2 f_equal.
  destruct user_id, event_type', severity'; rewrite ?list_filter_filter;
    try apply Hid; apply List.filter_ext; intros e;
    rewrite ?andb_true_r, ?andb_assoc; reflexivity.
Qed.

Lemma slice_to_index_take {A} (n : Z) (l : list A) :
  exists k,
    slice_to_index n l = take k l
    /\ Z.of_nat (Nat.min k (length l))
       = if 0 <=? n then Z.min n (Z.of_nat (length l))
         else Z.max 0 (Z.of_nat (length l) + n).
Proof.
  unfold slice_to_index. destruct (0 <=? n) eqn:Hn.
  - apply Z.leb_le in Hn. exists (Z.to_nat n). split; [reflexivity | lia].
  - apply Z.leb_gt in Hn. exists (length l - Z.to_nat (- n))%nat.
    split; [reflexivity | lia].
Qed.

(** X6. [get_security_events] returns the events of the log that pass
    the filters given, newest first, events of equal time in the order of
    the log, cut to the first [limit] of them ([limit] counted from the end
    when negative): with the events left out put behind it, the result is
    a rearrangement of the matching events in which no event is older
    than a later one. *)
Theorem get_security_events_newest_matching :
  forall (user_id : option Z) (event_type' : option SecurityEventType)
         (severity' : option SecuritySeverity) (limit : Z) (self : SecurityManager),
    let matching :=
      List.filter (event_selected user_id event_type' severity') (security_events self) in
    let events := fst (get_security_events user_id event_type' severity' limit self) in
    exists rest : list SecurityEvent,
      Permutation (events ++ rest) matching
      /\ newest_first (events ++ rest)
      /\ (forall t : Z,
            List.filter (fun e => timestamp e =? t) (events ++ rest)
            = List.filter (fun e => timestamp e =? t) matching)
      /\ Z.of_nat (length events)
         = if 0 <=? limit then Z.min limit (Z.of_nat (length matching))
           else Z.max 0 (Z.of_nat (length matching) + limit).
Proof.
  intros user_id event_type' severity' limit self matching events.
  subst events. rewrite get_security_events_fst. fold matching.
  destruct (slice_to_index_take limit (sort_newest_first matching)) as (k & -> & Hk).
  exists (drop k (sort_newest_first matching)).
  rewrite take_drop. repeat split.
  - apply sort_newest_first_Permutation.
  - apply sort_newest_first_sorted.
  - intros t. apply sort_newest_first_stable.
  - rewrite length_take, Hk.
    rewrite (Permutation_length (sort_newest_first_Permutation matching)). reflexivity.
Qed.

Lemma newest_first_head (e : SecurityEvent) (l l' : list SecurityEvent) :
  newest_first (e :: l) -> Permutation (e :: l) l' ->
  Forall (fun e' => timestamp e' <= timestamp e) l'.
Proof.
  intros [Hall _] Hperm. rewrite <- Hperm. constructor; [lia | exact Hall].
Qed.

(** X7. A query without any filter sorts the manager's own list.  On a
    log that holds 1000 events the next [log_security_event] then drops
    the event at the head of the sorted list, an event at least as new as
    every event of the log; the events kept are the other 999, newest
    first, followed by the new one.  A query with a filter leaves the
    manager as it was. *)
Theorem get_security_events_unfiltered_reorders_log :
  forall (limit : Z) (event : SecurityEvent) (self : SecurityManager),
    length (security_events self) = 1000%nat ->
    let self' := snd (get_security_events None None None limit self) in
    exists (dropped : SecurityEvent) (kept : list SecurityEvent),
      security_events self' = dropped :: kept
      /\ Permutation (dropped :: kept) (security_events self)
      /\ newest_first (dropped :: kept)
      /\ Forall (fun e => timestamp e <= timestamp dropped) (security_events self)
      /\ security_events (log_security_event event self') = kept ++ [event]
      /\ (forall user_id event_type' severity',
            is_Some user_id \/ is_Some event_type' \/ is_Some severity' ->
            snd (get_security_events user_id event_type' severity' limit self) = self).
Proof.
  intros limit event self Hlen self'.
  assert (Hperm := sort_newest_first_Permutation (security_events self)).
  assert (Hsorted := sort_newest_first_sorted (security_events self)).
  assert (Hevents : security_events self' = sort_newest_first (security_events self))
    by reflexivity.
  destruct (sort_newest_first (security_events self)) as [|dropped kept] eqn:Hsort.
  { apply Permutation_length in Hperm. rewrite Hlen in Hperm. discriminate. }
  assert (Hkept : length kept = 999%nat).
  { apply Permutation_length in Hperm. rewrite Hlen in Hperm. cbn in Hperm. lia. }
  exists dropped, kept. repeat split; try assumption.
  - apply proj1 in Hsorted. exact Hsorted.
  - apply proj2 in Hsorted. exact Hsorted.
  - eapply newest_first_head; eassumption.
  - unfold log_security_event. rewrite Hevents.
    replace (1000 <? length ((dropped :: kept) ++ [event]))%nat with true
      by (symmetry; apply Nat.ltb_lt; rewrite length_app; cbn; lia).
    cbn [security_events set_security_events]. unfold last_n.
    replace (length ((dropped :: kept) ++ [event]) - 1000)%nat with 1%nat
      by (rewrite length_app; cbn; lia).
    reflexivity.
  - intros user_id event_type' severity' [[u ->] | [[t ->] | [s ->]]];
      unfold get_security_events; cbn [snd];
      repeat match goal with |- context [match ?o with Some _ => _ | None => _ end] =>
        destruct o end; reflexivity.
Qed.

Lemma get_security_events_unfiltered_reorders_log_witness :
  let event :=
    {| ev_user_id := 7; event_type := MALICIOUS_INPUT; description := "x";
       timestamp := 5; severity := HIGH; additional_data := None |} in
  let self := set_security_events (repeat event 1000) (init 10) in
  let self' := snd (get_security_events None None None 100 self) in
  exists (dropped : SecurityEvent) (kept : list SecurityEvent),
    security_events self' = dropped :: kept
    /\ Permutation (dropped :: kept) (security_events self)
    /\ newest_first (dropped :: kept)
    /\ Forall (fun e => timestamp e <= timestamp dropped) (security_events self)
    /\ security_events (log_security_event event self') = kept ++ [event]
    /\ (forall user_id event_type' severity',
          is_Some user_id \/ is_Some event_type' \/ is_Some severity' ->
          snd (get_security_events user_id event_type' severity' 100 self) = self).
Proof.
  apply (get_security_events_unfiltered_reorders_log 100
           {| ev_user_id := 7; event_type := MALICIOUS_INPUT; description := "x";
              timestamp := 5; severity := HIGH; additional_data := None |}
           (set_security_events
              (repeat {| ev_user_id := 7; event_type := MALICIOUS_INPUT;
                         description := "x"; timestamp := 5; severity := HIGH;
                         additional_data := None |} 1000)
              (init 10))).
  reflexivity.
Defined.

End event_queries.

(** ** The counters of validation errors over several calls *)

Section error_counters.
Import security_manager.

(** X8. After [reset_user_errors] the counter of the user for the kind
    named reads 0 and no other counter has changed; when no kind is named,
    or the empty string is, every counter of the user reads 0 and those of
    the other users have not changed.  The log and the rate-limit records
    stay as they were. *)
Theorem reset_user_errors_counts :
  forall (user_id : Z) (error_type : option string) (self : SecurityManager)
         (u : Z) (name : string),
    get_user_error_count u name (reset_user_errors user_id error_type self)
    = (if (u =? user_id)
          && match error_type with
             | Some (String _ _ as t) => String.eqb name t
             | _ => true
             end
       then 0
       else get_user_error_count u name self)
    /\ security_events (reset_user_errors user_id error_type self) = security_events self
    /\ rate_limit_data (reset_user_errors user_id error_type self) = rate_limit_data self.
Proof.
  intros user_id error_type self u name.
  unfold reset_user_errors, get_user_error_count.
  destruct (user_error_counts self !! user_id) as [per_user|] eqn:Huser.
  - destruct (Z.eqb_spec u user_id) as [->|Hne].
    + destruct error_type as [[|c t]|]; cbn [andb user_error_counts set_user_error_counts];
        rewrite ?lookup_insert_eq; simpl; rewrite ?lookup_empty; auto.
      destruct (String.eqb_spec name (String c t)) as [->|Hname].
      * rewrite lookup_delete_eq. auto.
      * rewrite lookup_delete_ne by congruence. rewrite Huser. auto.
    + destruct error_type as [[|c t]|]; cbn [andb user_error_counts set_user_error_counts];
        rewrite lookup_insert_ne by congruence; auto.
  - destruct (Z.eqb_spec u user_id) as [->|Hne]; [|auto].
    rewrite Huser. simpl. rewrite lookup_empty. simpl.
    destruct error_type as [[|c t]|]; auto.
    destruct (String.eqb name (String c t)); auto.
Qed.

Lemma track_all_cons (user_id : Z) (name : string) (now : Z) (times : list Z)
    (self : SecurityManager) :
  track_all user_id name (now :: times) self
  = track_all user_id name times (_track_validation_error user_id name now self).
Proof. reflexivity. Qed.

(** X9. Over any number of consecutive failures of one kind by one
    user, counted from a counter at [c], the counter goes up by one per
    failure and the event INVALID_INPUT_REPEATED is logged once, by the
    failure that takes the counter to 5, when the counter starts below 5
    and the failures are enough to reach it; otherwise nothing is logged.
    So past 5 no further failure is reported until the counter is reset. *)
Theorem track_all_logs_once :
  forall (user_id : Z) (name : string) (times : list Z) (self : SecurityManager),
    let c := get_user_error_count user_id name self in
    let self' := track_all user_id name times self in
    get_user_error_count user_id name self' = c + Z.of_nat (length times)
    /\ if (c <? 5) && (5 <=? c + Z.of_nat (length times))
       then exists event : SecurityEvent,
              event_type event = INVALID_INPUT_REPEATED
              /\ severity event = LOW
              /\ ev_user_id event = user_id
              /\ timestamp event = nth (Z.to_nat (4 - c)) times 0
              /\ security_events self' = last_n 1000 (security_events self ++ [event])
       else security_events self' = security_events self.
Proof.
  intros user_id name times. induction times as [|now times IH]; intros self c self'.
  - subst self'. cbn [track_all foldl length]. split; [lia|].
    replace ((c <? 5) && (5 <=? c + Z.of_nat 0)) with false; [reflexivity|].
    symmetry. apply andb_false_iff. destruct (Z.ltb_spec c 5); [right|left; reflexivity].
    apply Z.leb_gt. lia.
  - subst self'. rewrite track_all_cons.
    set (self1 := _track_validation_error user_id name now self).
    specialize (IH self1). cbv zeta in IH.
    assert (Hc1 : get_user_error_count user_id name self1 = c + 1)
      by apply track_validation_error_same.
    assert (Hev := track_validation_error_events user_id now name self).
    cbv zeta in Hev. fold self1 c in Hev.
    rewrite Hc1 in IH. destruct IH as [Hcount Hlog].
    split; [rewrite Hcount; cbn [length]; lia|].
    cbn [length].
    destruct ((c + 1 <? 5) && (5 <=? c + 1 + Z.of_nat (length times))) eqn:Hlater.
    + apply andb_true_iff in Hlater. destruct Hlater as [Hlt Hge].
      apply Z.ltb_lt in Hlt. apply Z.leb_le in Hge.
      replace ((c <? 5) && (5 <=? c + Z.of_nat (S (length times)))) with true
        by (symmetry; apply andb_true_iff; split; [apply Z.ltb_lt | apply Z.leb_le]; lia).
      destruct Hlog as (event & Ht & Hs & Hu & Hts & Hevents).
      exists event. repeat split; try assumption.
      * rewrite Hts. replace (Z.to_nat (4 - c)) with (S (Z.to_nat (4 - (c + 1)))) by lia.
        reflexivity.
      * rewrite Hevents, Hev.
        replace (c + 1 =? 5) with false by (symmetry; apply Z.eqb_neq; lia).
        reflexivity.
    + rewrite Hlog, Hev. destruct (Z.eqb_spec (c + 1) 5) as [H5|H5].
      * replace ((c <? 5) && (5 <=? c + Z.of_nat (S (length times)))) with true
          by (symmetry; apply andb_true_iff; split; [apply Z.ltb_lt | apply Z.leb_le]; lia).
        match goal with |- context [last_n _ (_ ++ [?e]) = _] => exists e end.
        repeat split.
        cbn [timestamp]. replace (Z.to_nat (4 - c)) with 0%nat by lia. reflexivity.
      * replace ((c <? 5) && (5 <=? c + Z.of_nat (S (length times)))) with false;
          [reflexivity|].
        symmetry. apply andb_false_iff. apply andb_false_iff in Hlater.
        destruct Hlater as [H|H].
        -- apply Z.ltb_ge in H. left. apply Z.ltb_ge. lia.
        -- apply Z.leb_gt in H. right. apply Z.leb_gt. lia.
Qed.

End error_counters.

(** ** The counters of the validation layer *)

Section retry_counters.
Import PyStr security_manager validation_layer.

Lemma get_retry_count_increment_other (user_id u : Z) (q q' : QuestionType)
    (self : ValidationLayer) :
  (u, q') <> (user_id, q) ->
  _get_retry_count u q' (_increment_retry_count user_id q self)
  = _get_retry_count u q' self.
Proof.
  intros Hne. unfold _get_retry_count, _increment_retry_count. simpl.
  destruct (decide (user_id = u)) as [->|Hu].
  - rewrite lookup_insert_eq. simpl. rewrite lookup_insert_ne by congruence. reflexivity.
  - rewrite lookup_insert_ne by exact Hu. reflexivity.
Qed.

Lemma get_retry_count_reset_other (user_id u : Z) (q q' : QuestionType)
    (self : ValidationLayer) :
  (u, q') <> (user_id, q) ->
  _get_retry_count u q' (_reset_retry_count user_id q self)
  = _get_retry_count u q' self.
Proof.
  intros Hne. unfold _get_retry_count, _reset_retry_count.
  destruct (user_retry_counts self !! user_id) as [per_user|] eqn:Hget; [|reflexivity].
  simpl. destruct (decide (user_id = u)) as [->|Hu].
  - rewrite lookup_insert_eq, Hget. simpl.
    rewrite lookup_delete_ne by congruence. reflexivity.
  - rewrite lookup_insert_ne by exact Hu. reflexivity.
Qed.

(** What one submission leaves in the layer. *)
Lemma validate_question_response_state (text : string) (q : QuestionType)
    (user_id now : Z) (self : ValidationLayer) :
  let checked :=
    validate_input text (question_type_mapping q) user_id now (security_manager self) in
  snd (validate_question_response text q user_id now self)
  = if is_valid (fst checked)
    then _reset_retry_count user_id q (set_security_manager (snd checked) self)
    else _increment_retry_count user_id q (set_security_manager (snd checked) self).
Proof.
  cbv zeta. unfold validate_question_response.
  destruct (validate_input text (question_type_mapping q) user_id now
              (security_manager self)) as [basic sm].
  cbn [fst snd]. destruct (is_valid basic); cbn [negb]; [reflexivity|].
  destruct (_ && _); reflexivity.
Qed.

Lemma reset_retry_count_security_manager (user_id : Z) (q : QuestionType)
    (self : ValidationLayer) :
  security_manager (_reset_retry_count user_id q self) = security_manager self.
Proof.
  unfold _reset_retry_count. destruct (user_retry_counts self !! user_id); reflexivity.
Qed.

(** X10. A submission of one user for one kind of question leaves the
    retry counter of every other user, and of the same user for every
    other kind, as it was. *)
Theorem validate_question_response_frame :
  forall (text : string) (q : QuestionType) (user_id now : Z) (self : ValidationLayer)
         (u : Z) (q' : QuestionType),
    (u, q') <> (user_id, q) ->
    _get_retry_count u q' (snd (validate_question_response text q user_id now self))
    = _get_retry_count u q' self.
Proof.
  intros text q user_id now self u q' Hne.
  rewrite validate_question_response_state. cbv zeta.
  destruct (is_valid _).
  - rewrite get_retry_count_reset_other by exact Hne. reflexivity.
  - rewrite get_retry_count_increment_other by exact Hne. reflexivity.
Qed.

Lemma validate_question_response_frame_witness :
  _get_retry_count 7 AMS_SCALE
    (snd (validate_question_response "abc" LIFESTYLE_AGE 7 0
            (validation_layer.init (security_manager.init 10) default_config)))
  = _get_retry_count 7 AMS_SCALE
      (validation_layer.init (security_manager.init 10) default_config).
Proof.
  apply (validate_question_response_frame "abc" LIFESTYLE_AGE 7 0
           (validation_layer.init (security_manager.init 10) default_config)
           7 AMS_SCALE).
  discriminate.
Defined.

(** X11. The retry counter of the layer and the error counter of the
    security manager are not kept in step.  An accepted answer puts the
    retry counter back to 0 and leaves every error counter as it was; an
    answer rejected by the validator of the kind adds one to both, the
    error counter being the one of the input kind that the question maps
    to; an answer rejected for a malicious pattern adds one to the retry
    counter and leaves every error counter as it was. *)
Theorem validate_question_response_two_counters :
  forall (text : string) (q : QuestionType) (user_id now : Z) (self : ValidationLayer),
    let name := error_type_name (question_type_mapping q) in
    let self' := snd (validate_question_response text q user_id now self) in
    let errors s := get_user_error_count user_id name (security_manager s) in
    let retries s := _get_retry_count user_id q s in
    match first_malicious_pattern text with
    | Some _ =>
        retries self' = retries self + 1
        /\ user_error_counts (security_manager self')
           = user_error_counts (security_manager self)
    | None =>
        if type_check (question_type_mapping q) (sanitize_input text)
        then retries self' = 0
             /\ user_error_counts (security_manager self')
                = user_error_counts (security_manager self)
        else retries self' = retries self + 1
             /\ errors self' = errors self + 1
    end.
Proof.
  intros text q user_id now self name self' errors retries.
  subst self' errors retries. cbv beta.
  rewrite validate_question_response_state. cbv zeta.
  destruct (first_malicious_pattern text) as [pattern|] eqn:Hdet.
  - destruct (malicious_input_rejected text pattern (question_type_mapping q) user_id now
                (security_manager self) Hdet) as (event & -> & _ & Hcounts & _).
    cbn [fst snd is_valid]. rewrite get_retry_count_increment.
    split; [reflexivity | exact Hcounts].
  - destruct (validate_input_clean text (question_type_mapping q) user_id now
                (security_manager self) Hdet) as [Hrun Hvalid].
    rewrite Hvalid. rewrite Hrun. cbn [snd].
    destruct (type_check (question_type_mapping q) (sanitize_input text)).
    + rewrite get_retry_count_reset, reset_retry_count_security_manager.
      split; reflexivity.
    + rewrite get_retry_count_increment. split; [reflexivity|].
      cbn [security_manager _increment_retry_count set_user_retry_counts
           set_security_manager].
      apply track_validation_error_same.
Qed.

(** X12. [validate_scale_response] raises [ValueError], and does
    nothing else, exactly for the kinds of question that are not checked as
    a 1-to-5 scale, and [validate_yes_no] exactly for those not checked as
    yes or no; for the other kinds each is [validate_question_response]. *)
Theorem validate_scale_and_yes_no_kinds :
  forall (response : string) (q : QuestionType) (user_id now : Z)
         (self : ValidationLayer),
    match validate_scale_response response q user_id now self with
    | inr run =>
        question_type_mapping q = SCALE_1_5
        /\ run = validate_question_response response q user_id now self
    | inl _ => question_type_mapping q <> SCALE_1_5
    end
    /\ match validate_yes_no response q user_id now self with
       | inr run =>
           question_type_mapping q = YES_NO
           /\ run = validate_question_response response q user_id now self
       | inl _ => question_type_mapping q <> YES_NO
       end.
Proof.
  intros response q user_id now self.
  unfold validate_scale_response, validate_yes_no.
  split; destruct q; cbn [question_type_mapping];
    match goal with
    | |- context [decide ?P] =>
        destruct (decide P) as [Hin|Hout];
        [ try (split; reflexivity); exfalso;
          rewrite !elem_of_cons, elem_of_nil in Hin; intuition discriminate
        | try discriminate; exfalso; apply Hout; rewrite !elem_of_cons; intuition ]
    end.
Qed.

(** X13. After [reset_user_retries] the retry counter of the user for
    the kind named reads 0 and no other counter has changed; when no kind
    is named every counter of the user reads 0, [get_user_retry_stats]
    reports none for that user, and the counters of the other users have
    not changed.  The security manager is not touched, so its error
    counters keep their values. *)
Theorem reset_user_retries_counts :
  forall (user_id : Z) (question_type : option QuestionType) (self : ValidationLayer)
         (u : Z) (q : QuestionType),
    let self' := reset_user_retries user_id question_type self in
    _get_retry_count u q self'
    = (if (u =? user_id)
          && match question_type with
             | Some q' => bool_decide (q = q')
             | None => true
             end
       then 0
       else _get_retry_count u q self)
    /\ match question_type with
       | Some _ => True
       | None => get_user_retry_stats user_id self' = ∅
       end
    /\ security_manager self' = security_manager self.
Proof.
  intros user_id question_type self u q self'. subst self'.
  unfold reset_user_retries, _get_retry_count, get_user_retry_stats.
  destruct (user_retry_counts self !! user_id) as [per_user|] eqn:Huser.
  - destruct (Z.eqb_spec u user_id) as [->|Hne].
    + destruct question_type as [q'|];
        cbn [andb user_retry_counts set_user_retry_counts security_manager];
        rewrite ?lookup_insert_eq; simpl; rewrite ?lookup_empty; auto.
      destruct (bool_decide_reflect (q = q')) as [->|Hq].
      * rewrite lookup_delete_eq. auto.
      * rewrite lookup_delete_ne by congruence. rewrite Huser. auto.
    + destruct question_type as [q'|];
        cbn [andb user_retry_counts set_user_retry_counts security_manager];
        rewrite lookup_insert_ne by congruence; repeat split; auto.
      rewrite lookup_insert_eq. reflexivity.
  - destruct (Z.eqb_spec u user_id) as [->|Hne].
    + rewrite Huser. simpl. rewrite lookup_empty. simpl.
      destruct question_type as [q'|]; [destruct (bool_decide (q = q'))|]; auto.
    + destruct question_type; rewrite ?Huser; auto.
Qed.

Lemma retry_counts_positive_insert (user_id : Z) (per_user : gmap QuestionType Z)
    (self : ValidationLayer) (sm : SecurityManager) :
  retry_counts_positive self ->
  (forall q n, per_user !! q = Some n -> 1 <= n) ->
  retry_counts_positive
    {| security_manager := sm; config := config self;
       user_retry_counts := <[user_id := per_user]> (user_retry_counts self) |}.
Proof.
  intros Hpos Hnew u q n. unfold get_user_retry_stats. cbn [user_retry_counts].
  destruct (decide (user_id = u)) as [->|Hu].
  - rewrite lookup_insert_eq. simpl. apply Hnew.
  - rewrite lookup_insert_ne by exact Hu. apply Hpos.
Qed.

(** X14. The counters that [get_user_retry_stats] reports are all at
    least 1, a kind answered correctly having no entry rather than a 0:
    a layer of which this holds, as it does of a new one, keeps it through
    [validate_question_response] and through [reset_user_retries]. *)
Theorem retry_stats_stay_positive :
  forall self : ValidationLayer,
    retry_counts_positive self ->
    (forall (text : string) (q : QuestionType) (user_id now : Z),
        retry_counts_positive (snd (validate_question_response text q user_id now self)))
    /\ (forall (user_id : Z) (question_type : option QuestionType),
          retry_counts_positive (reset_user_retries user_id question_type self)).
Proof.
  intros self Hpos.
  assert (Hper : forall u q n,
             default ∅ (user_retry_counts self !! u) !! q = Some n -> 1 <= n)
    by exact Hpos.
  split.
  - intros text q user_id now. rewrite validate_question_response_state. cbv zeta.
    destruct (validate_input _ _ _ _ _) as [basic sm]. cbn [fst snd].
    destruct (is_valid basic).
    + unfold _reset_retry_count. cbn [user_retry_counts set_security_manager].
      destruct (user_retry_counts self !! user_id) as [per_user|] eqn:Huser.
      * apply (retry_counts_positive_insert user_id _ self sm Hpos).
        intros q' n Hq'. apply lookup_delete_Some in Hq'. destruct Hq' as [_ Hq'].
        apply (Hper user_id q' n). rewrite Huser. exact Hq'.
      * intros u q' n. apply Hpos.
    + unfold _increment_retry_count. cbn [user_retry_counts set_security_manager].
      apply (retry_counts_positive_insert user_id _ self sm Hpos).
      intros q' n Hq'. apply lookup_insert_Some in Hq'.
      destruct Hq' as [[_ <-] | [_ Hq']]; [|apply (Hper user_id q' n Hq')].
      destruct (default ∅ (user_retry_counts self !! user_id) !! q) as [m|] eqn:Hm.
      * specialize (Hper user_id q m Hm). simpl. lia.
      * simpl. lia.
  - intros user_id question_type. unfold reset_user_retries.
    destruct (user_retry_counts self !! user_id) as [per_user|] eqn:Huser; [|exact Hpos].
    destruct question_type as [q|].
    + apply (retry_counts_positive_insert user_id _ self (security_manager self) Hpos).
      intros q' n Hq'. apply lookup_delete_Some in Hq'. destruct Hq' as [_ Hq'].
      apply (Hper user_id q' n). rewrite Huser. exact Hq'.
    + apply (retry_counts_positive_insert user_id _ self (security_manager self) Hpos).
      intros q' n Hq'. rewrite lookup_empty in Hq'. discriminate.
Qed.

Lemma retry_stats_stay_positive_witness :
  let self := validation_layer.init (security_manager.init 10) default_config in
  (forall (text : string) (q : QuestionType) (user_id now : Z),
      retry_counts_positive (snd (validate_question_response text q user_id now self)))
  /\ (forall (user_id : Z) (question_type : option QuestionType),
        retry_counts_positive (reset_user_retries user_id question_type self)).
Proof.
  apply (retry_stats_stay_positive
           (validation_layer.init (security_manager.init 10) default_config)).
  intros u q n H. unfold get_user_retry_stats in H. cbn in H.
  rewrite lookup_empty in H. cbn in H. rewrite lookup_empty in H. discriminate.
Defined.

End retry_counters.

(** ** The retry wrapper: number of calls, waiting time *)

Section retry_bounds.
Import error_handler.
Context {A : Type}.
Variable func : Z -> Exception + A.
Variable func_name : string.
Variable draw : Z -> Q.
Variable cfg : RetryConfig.

(** RETRY is decided only before the attempt number reaches [max_retries]. *)
Lemma determine_recovery_action_retry (error_type : ErrorType) (context : ErrorContext) :
  _determine_recovery_action cfg error_type context = RETRY ->
  attempt_number context < max_retries cfg
  /\ In error_type [NETWORK_ERROR; TIMEOUT_ERROR; TELEGRAM_API_ERROR; RATE_LIMIT_ERROR].
Proof.
  unfold _determine_recovery_action.
  destruct (max_retries cfg <=? attempt_number context) eqn:Hmax.
  - destruct (is_transient error_type); discriminate.
  - apply Z.leb_gt in Hmax. intros H. split; [exact Hmax|].
    destruct error_type; cbn in *; try discriminate; tauto.
Qed.

Lemma calls_cons_call (attempt : Z) (effects : list Effect) :
  calls (Call attempt :: effects) = attempt :: calls effects.
Proof. reflexivity. Qed.

Lemma calls_cons_sleep (delay : Q) (effects : list Effect) :
  calls (Sleep delay :: effects) = calls effects.
Proof. reflexivity. Qed.

Lemma sleeps_cons_call (attempt : Z) (effects : list Effect) :
  sleeps (Call attempt :: effects) = sleeps effects.
Proof. reflexivity. Qed.

Lemma sleeps_cons_sleep (delay : Q) (effects : list Effect) :
  sleeps (Sleep delay :: effects) = delay :: sleeps effects.
Proof. reflexivity. Qed.

(** The calls and the sleeps of a trace of calls with one sleep between
    each call and the next. *)
Lemma calls_calls_and_sleeps (attempt : Z) (delays : list Q) :
  calls (calls_and_sleeps attempt delays)
  = map (fun i => attempt + Z.of_nat i) (seq 0 (S (length delays))).
Proof.
  revert attempt. induction delays as [|delay delays IH]; intros attempt.
  - cbn. rewrite Z.add_0_r. reflexivity.
  - cbn [calls_and_sleeps]. rewrite calls_cons_call, calls_cons_sleep, IH.
    cbn [length].
    change (seq 0 (S (S (length delays)))) with (0%nat :: seq 1 (S (length delays))).
    rewrite <- seq_shift, map_cons, map_map, Z.add_0_r. f_equal.
    apply map_ext. intros i. lia.
Qed.

Lemma sleeps_calls_and_sleeps (attempt : Z) (delays : list Q) :
  sleeps (calls_and_sleeps attempt delays) = delays.
Proof.
  revert attempt. induction delays as [|delay delays IH]; intros attempt; [reflexivity|].
  cbn [calls_and_sleeps]. rewrite sleeps_cons_call, sleeps_cons_sleep, IH. reflexivity.
Qed.

(** The trace of the loop from [attempt] on, when [remaining] is what
    [range] has left and is not nothing: calls with consecutive attempt
    numbers, one sleep between each call and the next. *)
Lemma retry_loop_trace (retries : Z) (remaining : nat) (attempt : Z)
    (last_error : option Exception) :
  remaining = Z.to_nat (retries - attempt + 1) ->
  remaining <> 0%nat ->
  let run := retry_loop func func_name draw cfg retries remaining attempt last_error in
  exists delays : list Q,
    snd run = calls_and_sleeps attempt delays
    /\ (S (length delays) <= remaining)%nat
    /\ Z.of_nat (S (length delays)) <= Z.max 1 (max_retries cfg - attempt + 1)
    /\ fst run <> ReturnedNone.
Proof.
  revert attempt last_error.
  induction remaining as [|remaining IH]; intros attempt last_error Hrem Hsome run;
    [congruence|]. subst run.
  cbn [retry_loop]. destruct (func attempt) as [e|v].
  - unfold handle_error.
    set (action := _determine_recovery_action cfg (_classify_error e) _).
    destruct ((attempt =? retries) || negb (RecoveryAction_eqb action RETRY)) eqn:Hstop.
    + exists []. cbn. split; [reflexivity|]. split; [lia|]. split; [lia|congruence].
    + destruct (calculate_retry_delay cfg attempt (_classify_error e) (draw attempt))
        as [raised|delay].
      * exists []. cbn. split; [reflexivity|]. split; [lia|]. split; [lia|congruence].
      * apply orb_false_iff in Hstop. destruct Hstop as [Hlast Haction].
        apply Z.eqb_neq in Hlast. apply negb_false_iff in Haction.
        assert (Hretry : action = RETRY) by (destruct action; discriminate || reflexivity).
        apply determine_recovery_action_retry in Hretry. cbn in Hretry.
        destruct Hretry as [Hbelow _].
        specialize (IH (attempt + 1) (Some e) ltac:(lia) ltac:(lia)). cbv zeta in IH.
        destruct (retry_loop func func_name draw cfg retries remaining (attempt + 1) (Some e))
          as [out effects].
        cbn [fst snd] in *.
        destruct IH as (delays & Htrace & Hle & Hmax & Hout).
        exists (delay :: delays). cbn [calls_and_sleeps length]. rewrite Htrace.
        split; [reflexivity|]. split; [lia|]. split; [lia|exact Hout].
  - exists []. cbn. split; [reflexivity|]. split; [lia|]. split; [lia|congruence].
Qed.

(** X15. When the number of retries in force is zero or negative the
    function is not called at all and the wrapper returns [None].
    Otherwise the trace of the wrapper is: a call of the function with
    attempt number 1, then for each of its sleeps that sleep followed by
    the call with the next attempt number, and nothing else; so the calls
    have the attempt numbers 1, 2, ..., [n], exactly one sleep lies between
    each call and the next and none before the first call or after the
    last, [n] is at most the number of retries in force and at most
    [retry_config.max_retries] (or 1, when that is smaller), and the
    wrapper returns the function's value or raises. *)
Theorem with_retry_call_bounds :
  forall max_retries' : option Z,
    let retries := effective_retries cfg max_retries' in
    let run := with_retry func func_name draw cfg max_retries' in
    if retries <=? 0 then run = (ReturnedNone, [])
    else
      exists delays : list Q,
        let n := S (length delays) in
        snd run = calls_and_sleeps 1 delays
        /\ calls (snd run) = map Z.of_nat (seq 1 n)
        /\ sleeps (snd run) = delays
        /\ length (sleeps (snd run)) = pred n
        /\ Z.of_nat n <= Z.max 0 retries
        /\ Z.of_nat n <= Z.max 1 (max_retries cfg)
        /\ fst run <> ReturnedNone.
Proof.
  intros max_retries' retries run. subst run. unfold with_retry. fold retries.
  destruct (Z.leb_spec retries 0) as [Hzero|Hpos].
  - replace (Z.to_nat retries) with 0%nat by lia. reflexivity.
  - destruct (retry_loop_trace retries (Z.to_nat retries) 1 None ltac:(lia) ltac:(lia))
      as (delays & Htrace & Hle & Hmax & Hout).
    exists delays. cbv zeta. rewrite Htrace in *.
    rewrite calls_calls_and_sleeps, sleeps_calls_and_sleeps.
    split; [reflexivity|]. split; [|split; [reflexivity|split; [reflexivity|]]].
    + rewrite <- seq_shift, map_map. apply map_ext. intros i. lia.
    + split; [lia|]. split; [lia|exact Hout].
Qed.

(** Above [retry_config.max_retries] the number of retries in force
    makes no difference to the loop. *)
Lemma retry_loop_above_max (retries : Z) (remaining : nat) (attempt : Z)
    (last_error : option Exception) :
  max_retries cfg <= retries ->
  attempt <= max_retries cfg ->
  remaining = Z.to_nat (max_retries cfg - attempt + 1) ->
  retry_loop func func_name draw cfg retries (Z.to_nat (retries - attempt + 1)) attempt
    last_error
  = retry_loop func func_name draw cfg (max_retries cfg) remaining attempt last_error.
Proof.
  intros Hover. revert attempt last_error.
  induction remaining as [|remaining IH]; intros attempt last_error Hle Hrem; [lia|].
  replace (Z.to_nat (retries - attempt + 1))
    with (S (Z.to_nat (retries - (attempt + 1) + 1))) by lia.
  cbn [retry_loop]. destruct (func attempt) as [e|v]; [|reflexivity].
  unfold handle_error.
  set (action := _determine_recovery_action cfg (_classify_error e) _).
  destruct (Z.eq_dec attempt (max_retries cfg)) as [Hlast|Hearlier].
  - assert (Haction : RecoveryAction_eqb action RETRY = false).
    { destruct (RecoveryAction_eqb action RETRY) eqn:Heq; [|reflexivity].
      assert (Hretry : action = RETRY) by (destruct action; discriminate || reflexivity).
      apply determine_recovery_action_retry in Hretry. cbn in Hretry. lia. }
    rewrite Haction. cbn [negb]. rewrite !orb_true_r. reflexivity.
  - replace (attempt =? retries) with false by (symmetry; apply Z.eqb_neq; lia).
    replace (attempt =? max_retries cfg) with false by (symmetry; apply Z.eqb_neq; lia).
    cbn [orb]. destruct (negb (RecoveryAction_eqb action RETRY)); [reflexivity|].
    destruct (calculate_retry_delay cfg attempt (_classify_error e) (draw attempt));
      [reflexivity|].
    rewrite (IH (attempt + 1) (Some e)) by lia. reflexivity.
Qed.

(** X16. With [retry_config.max_retries] at 1 or more, asking
    [with_retry] for as many retries as that or for more changes nothing:
    the wrapper behaves as without the argument, because the action
    decided at attempt [retry_config.max_retries] is never RETRY. *)
Theorem with_retry_override_above_max :
  forall n : Z,
    1 <= max_retries cfg ->
    max_retries cfg <= n ->
    with_retry func func_name draw cfg (Some n) = with_retry func func_name draw cfg None.
Proof.
  intros n Hpos Hover. unfold with_retry, effective_retries.
  replace (n =? 0) with false by (symmetry; apply Z.eqb_neq; lia).
  replace (Z.to_nat n) with (Z.to_nat (n - 1 + 1)) by lia.
  apply retry_loop_above_max; lia.
Qed.

(** X17. An error of the first call that is classified as a validation,
    security or system error is not retried, whatever the number of
    retries: the wrapper raises it after that one call, without sleeping. *)
Theorem with_retry_permanent_error_not_retried :
  forall (max_retries' : option Z) (e : Exception),
    1 <= effective_retries cfg max_retries' ->
    func 1 = inl e ->
    In (_classify_error e) [VALIDATION_ERROR; SECURITY_ERROR; SYSTEM_ERROR] ->
    with_retry func func_name draw cfg max_retries' = (Raised e, [Call 1]).
Proof.
  intros max_retries' e Hpos Hfail Hkind. unfold with_retry.
  replace (Z.to_nat (effective_retries cfg max_retries'))
    with (S (Z.to_nat (effective_retries cfg max_retries' - 1))) by lia.
  cbn [retry_loop]. rewrite Hfail. unfold handle_error.
  set (action := _determine_recovery_action cfg (_classify_error e) _).
  assert (Haction : RecoveryAction_eqb action RETRY = false).
  { destruct (RecoveryAction_eqb action RETRY) eqn:Heq; [|reflexivity].
    assert (Hretry : action = RETRY) by (destruct action; discriminate || reflexivity).
    apply determine_recovery_action_retry in Hretry. destruct Hretry as [_ Hin].
    exfalso. cbn in Hkind, Hin.
    destruct (_classify_error e); intuition discriminate. }
  rewrite Haction. cbn [negb]. rewrite orb_true_r. reflexivity.
Qed.

(** Every sleep of the loop is a delay computed for some attempt. *)
Lemma retry_loop_sleeps (retries : Z) (remaining : nat) (attempt : Z)
    (last_error : option Exception) (delay : Q) :
  In delay
    (sleeps (snd (retry_loop func func_name draw cfg retries remaining attempt last_error))) ->
  exists (k : Z) (error_type : ErrorType),
    calculate_retry_delay cfg k error_type (draw k) = inr delay.
Proof.
  revert attempt last_error.
  induction remaining as [|remaining IH]; intros attempt last_error.
  - cbn [retry_loop]. destruct last_error; intros [].
  - cbn [retry_loop]. destruct (func attempt) as [e|v]; [|intros []].
    destruct (handle_error cfg e _) as [action message].
    destruct ((attempt =? retries) || negb (RecoveryAction_eqb action RETRY));
      [intros []|].
    destruct (calculate_retry_delay cfg attempt (_classify_error e) (draw attempt))
      as [raised|computed] eqn:Hdelay; [intros []|].
    specialize (IH (attempt + 1) (Some e)).
    destruct (retry_loop func func_name draw cfg retries remaining (attempt + 1) (Some e))
      as [out effects].
    cbn [snd] in *. rewrite sleeps_cons_call, sleeps_cons_sleep.
    intros [<- | Hin]; [eauto | exact (IH Hin)].
Qed.

(** With settings that are not negative, a delay before jitter is not
    negative and at most the larger of [max_delay] and 30. *)
Lemma backoff_delay_bounds (k : Z) (error_type : ErrorType) (before : Q) :
  (0 <= base_delay cfg)%Q -> (0 <= exponential_base cfg)%Q -> (0 <= max_delay cfg)%Q ->
  backoff_delay cfg k error_type = inr before ->
  (0 <= before)%Q /\ (before <= Qmax (max_delay cfg) 30)%Q.
Proof.
  intros Hbase Hexp Hmax Hrun.
  assert (Hpow : exists power : Q, float_pow (exponential_base cfg) (k - 1) = inr power).
  { unfold backoff_delay in Hrun.
    destruct (float_pow (exponential_base cfg) (k - 1)) as [raised|power];
      [discriminate | eauto]. }
  destruct Hpow as [power Hpow].
  set (raw := (base_delay cfg * power)%Q).
  assert (Hraw : (0 <= raw)%Q).
  { apply Qmult_le_0_compat; [exact Hbase|].
    destruct (float_pow_value _ _ _ Hpow) as (x & _ & ->).
    apply Qpower_0_le. exact Hexp. }
  assert (Hmin0 : (0 <= Qmin raw (max_delay cfg))%Q) by (apply Q.min_glb; assumption).
  destruct (ErrorType_eqb error_type RATE_LIMIT_ERROR) eqn:Hk.
  - destruct error_type; try discriminate.
    destruct (backoff_delay_rate_limit cfg k power Hpow) as (before' & Hrun' & Heq).
    rewrite Hrun in Hrun'. injection Hrun' as <-. fold raw in Heq. rewrite Heq. split.
    + eapply Qle_trans; [exact Hmin0 | apply Q.le_max_l].
    + apply Q.max_le_compat_r. apply Q.le_min_r.
  - destruct (backoff_delay_other cfg k error_type power) as (before' & Hrun' & Heq);
      [intros ->; discriminate | exact Hpow |].
    rewrite Hrun in Hrun'. injection Hrun' as <-. fold raw in Heq. rewrite Heq.
    split; [exact Hmin0|].
    eapply Qle_trans; [apply Q.le_min_r | apply Q.le_max_l].
Qed.

(** X18. With settings that are not negative and [random()] giving
    numbers between 0 and 1, in exact arithmetic no sleep of the wrapper
    is negative or longer than 1.3 times the larger of [max_delay] and 30
    seconds. *)
Theorem with_retry_sleep_bound :
  forall (max_retries' : option Z) (delay : Q),
    (0 <= base_delay cfg)%Q -> (0 <= exponential_base cfg)%Q -> (0 <= max_delay cfg)%Q ->
    (forall k : Z, (0 <= draw k)%Q /\ (draw k <= 1)%Q) ->
    In delay (sleeps (snd (with_retry func func_name draw cfg max_retries'))) ->
    (0 <= delay)%Q /\ (delay <= (13 # 10) * Qmax (max_delay cfg) 30)%Q.
Proof.
  intros max_retries' delay Hbase Hexp Hmax Hdraw Hin.
  apply retry_loop_sleeps in Hin. destruct Hin as (k & error_type & Hdelay).
  apply calculate_retry_delay_value in Hdelay. destruct Hdelay as (before & Hrun & ->).
  destruct (Hdraw k) as [Hr0 Hr1].
  destruct (uniform_range (draw k) Hr0 Hr1) as [Hlo Hhi].
  set (u := uniform (1 # 10) (3 # 10) (draw k)) in *.
  set (bound := Qmax (max_delay cfg) 30).
  destruct (backoff_delay_bounds k error_type before Hbase Hexp Hmax Hrun) as [Hb0 Hb1].
  fold bound in Hb1.
  assert (Hbound0 : (0 <= bound)%Q).
  { eapply Qle_trans; [exact Hmax | apply Q.le_max_l]. }
  assert (Hgrow : (before <= (13 # 10) * bound)%Q).
  { eapply Qle_trans; [exact Hb1|].
    rewrite <- (Qmult_1_l bound) at 1. apply Qmult_le_compat_r; [discriminate | exact Hbound0]. }
  destruct (jitter cfg); [|split; assumption].
  split.
  - rewrite <- (Qplus_0_r 0). apply Qplus_le_compat; [exact Hb0|].
    apply Qmult_le_0_compat; [|exact Hb0].
    eapply Qle_trans; [|exact Hlo]. discriminate.
  - assert (Hu : (u * before <= (3 # 10) * before)%Q)
      by (apply Qmult_le_compat_r; assumption).
    assert (Hsum : (before + u * before <= (13 # 10) * before)%Q).
    { assert (Heq : ((13 # 10) * before == before + (3 # 10) * before)%Q) by ring.
      rewrite Heq. apply Qplus_le_r. exact Hu. }
    eapply Qle_trans; [exact Hsum|].
    rewrite !(Qmult_comm (13 # 10)). apply Qmult_le_compat_r; [exact Hb1 | discriminate].
Qed.

End retry_bounds.

Section retry_bounds_instances.
Import error_handler.

Lemma with_retry_override_above_max_witness :
  let func := fun _ : Z => inl {| exn_class := NetworkError; exn_str := "down" |} in
  let draw := fun _ : Z => (1 # 5)%Q in
  with_retry (A := unit) func "send" draw default_retry_config (Some 10)
  = with_retry func "send" draw default_retry_config None.
Proof.
  apply (with_retry_override_above_max (A := unit)
           (fun _ : Z => inl {| exn_class := NetworkError; exn_str := "down" |})
           "send" (fun _ : Z => (1 # 5)%Q) default_retry_config 10).
  - cbn. lia.
  - cbn. lia.
Defined.

Lemma with_retry_permanent_error_not_retried_witness :
  let e := {| exn_class := ValueError; exn_str := "bad" |} in
  let func := fun _ : Z => inl e in
  let draw := fun _ : Z => (1 # 5)%Q in
  with_retry (A := unit) func "send" draw default_retry_config (Some 5)
  = (Raised e, [Call 1]).
Proof.
  apply (with_retry_permanent_error_not_retried (A := unit)
           (fun _ : Z => inl {| exn_class := ValueError; exn_str := "bad" |})
           "send" (fun _ : Z => (1 # 5)%Q) default_retry_config (Some 5)
           {| exn_class := ValueError; exn_str := "bad" |}).
  - cbn. lia.
  - reflexivity.
  - cbn. tauto.
Defined.

Lemma with_retry_sleep_bound_witness :
  let func := fun _ : Z => inl {| exn_class := NetworkError; exn_str := "down" |} in
  let draw := fun _ : Z => (1 # 2)%Q in
  In (4800 # 2000)%Q (sleeps (snd (with_retry (A := unit) func "send" draw
                                     default_retry_config None)))
  /\ (0 <= 4800 # 2000)%Q
  /\ (4800 # 2000 <= (13 # 10) * Qmax (max_delay default_retry_config) 30)%Q.
Proof.
  assert (Hin : In (4800 # 2000)%Q
                  (sleeps (snd (with_retry (A := unit)
                                  (fun _ : Z =>
                                     inl {| exn_class := NetworkError; exn_str := "down" |})
                                  "send" (fun _ : Z => (1 # 2)%Q)
                                  default_retry_config None)))).
  { vm_compute. right. left. reflexivity. }
  split; [exact Hin|].
  apply (with_retry_sleep_bound (A := unit)
           (fun _ : Z => inl {| exn_class := NetworkError; exn_str := "down" |})
           "send" (fun _ : Z => (1 # 2)%Q) default_retry_config None (4800 # 2000)).
  - discriminate.
  - discriminate.
  - discriminate.
  - intros k. split; discriminate.
  - exact Hin.
Defined.

End retry_bounds_instances.

(** ** The two senders *)

Section senders_facts.
Import error_handler.
Variable cfg : RetryConfig.
Variable transport : nat -> Request -> option Exception.

(** At the first attempt FALLBACK is decided only with [max_retries]
    at most 1. *)
Lemma handle_error_first_attempt_fallback (e : Exception) (context : ErrorContext) :
  attempt_number context = 1 ->
  2 <= max_retries cfg ->
  RecoveryAction_eqb (fst (handle_error cfg e context)) FALLBACK = false.
Proof.
  intros Hfirst Hmax. unfold handle_error. cbn [fst].
  unfold _determine_recovery_action. rewrite Hfirst.
  replace (max_retries cfg <=? 1) with false by (symmetry; apply Z.leb_gt; lia).
  destruct (_classify_error e); reflexivity.
Qed.

(** What [safe_send_message] does once its first step is over. *)
Lemma safe_send_message_after_error (update : Update) (e : Exception)
    (trace : list Request) :
  2 <= max_retries cfg ->
  (let '(recovery_action, user_message) :=
     handle_error cfg e
       {| user_id := effective_user update; chat_id := effective_chat update;
          message_id := None; function_name := Some "safe_send_message";
          attempt_number := 1 |} in
   if RecoveryAction_eqb recovery_action FALLBACK then
     match effective_chat update with
     | Some chat =>
         let '(error, trace) := request transport (SendMessage chat false) trace in
         match error with
         | None => (true, trace)
         | Some _ => (false, trace)
         end
     | None => (false, trace)
     end
   else (false, trace))
  = (false, trace).
Proof.
  intros Hmax.
  pose proof (handle_error_first_attempt_fallback e
                {| user_id := effective_user update; chat_id := effective_chat update;
                   message_id := None; function_name := Some "safe_send_message";
                   attempt_number := 1 |} eq_refl Hmax) as Hno.
  destruct (handle_error cfg e _) as [action message]. cbn [fst] in Hno.
  rewrite Hno. reflexivity.
Qed.

(** X19. With [max_retries] at 2 or more, as in the default
    configuration, [safe_send_message] never gets to its fallback: it makes
    at most one request, and it returns [True] exactly when it made one
    and that request went through. *)
Theorem safe_send_message_no_fallback :
  forall (update : Update) (with_kwargs : bool) (trace : list Request),
    2 <= max_retries cfg ->
    let run := safe_send_message cfg transport update with_kwargs trace in
    (fst run = false /\ snd run = trace)
    \/ exists r : Request,
         snd run = trace ++ [r]
         /\ fst run = match transport (length trace) r with
                      | None => true
                      | Some _ => false
                      end.
Proof.
  intros update with_kwargs trace Hmax run. subst run.
  assert (Hreq : forall r,
             (let '(error, trace') := request transport r trace in
              match error with
              | None => (true, trace')
              | Some e =>
                  let '(recovery_action, user_message) :=
                    handle_error cfg e
                      {| user_id := effective_user update;
                         chat_id := effective_chat update;
                         message_id := None;
                         function_name := Some "safe_send_message";
                         attempt_number := 1 |} in
                  if RecoveryAction_eqb recovery_action FALLBACK then
                    match effective_chat update with
                    | Some chat =>
                        let '(error, trace') :=
                          request transport (SendMessage chat false) trace' in
                        match error with
                        | None => (true, trace')
                        | Some _ => (false, trace')
                        end
                    | None => (false, trace')
                    end
                  else (false, trace')
              end)
             = (match transport (length trace) r with None => true | Some _ => false end,
                trace ++ [r])).
  { intros r. unfold request at 1.
    destruct (transport (length trace) r) as [e|]; [|reflexivity].
    apply safe_send_message_after_error, Hmax. }
  unfold safe_send_message.
  destruct (upd_message update).
  - right. exists ReplyText. rewrite Hreq. split; reflexivity.
  - destruct (upd_callback_query update) as [query|].
    + destruct (cq_message query) as [mid|].
      * right. exists CallbackReplyText. rewrite Hreq. split; reflexivity.
      * left. rewrite safe_send_message_after_error by exact Hmax. split; reflexivity.
    + destruct (effective_chat update) as [chat|] eqn:Hchat.
      * right. exists (SendMessage chat with_kwargs).
        rewrite (Hreq (SendMessage chat with_kwargs)). split; reflexivity.
      * left.
        pose proof (safe_send_message_after_error update (AttributeError "id") trace Hmax)
          as Hafter.
        rewrite Hchat in Hafter. rewrite Hafter. split; reflexivity.
Qed.

(** X20. [safe_edit_message] returns [None], not [False], and asks
    nothing of Telegram when the update has no callback query.  Otherwise
    it asks for the edit, once, and returns [True] when the edit went
    through; when it did not, the exception raised by the missing message
    of the query escapes, and with [max_retries] at 2 or more the function
    returns [False] without ever sending the text as a new message. *)
Theorem safe_edit_message_outcomes :
  forall (update : Update) (with_kwargs : bool) (trace : list Request),
    2 <= max_retries cfg ->
    safe_edit_message cfg transport update with_kwargs trace
    = match upd_callback_query update with
      | None => (ReturnedNone, trace)
      | Some query =>
          (match transport (length trace) EditMessageText, cq_message query with
           | None, _ => Returned true
           | Some _, None => Raised (AttributeError "message_id")
           | Some _, Some _ => Returned false
           end,
           trace ++ [EditMessageText])
      end.
Proof.
  intros update with_kwargs trace Hmax. unfold safe_edit_message.
  destruct (upd_callback_query update) as [query|]; [|reflexivity].
  unfold request. destruct (transport (length trace) EditMessageText) as [e|];
    [|reflexivity].
  destruct (cq_message query) as [mid|]; [|reflexivity].
  pose proof (handle_error_first_attempt_fallback e
                {| user_id := effective_user update; chat_id := effective_chat update;
                   message_id := Some mid; function_name := Some "safe_edit_message";
                   attempt_number := 1 |} eq_refl Hmax) as Hno.
  destruct (handle_error cfg e _) as [action message]. cbn [fst] in Hno.
  rewrite Hno. reflexivity.
Qed.

End senders_facts.

Section senders_instances.
Import error_handler.

Lemma safe_send_message_no_fallback_witness :
  let transport := fun (_ : nat) (_ : Request) =>
                     Some {| exn_class := NetworkError; exn_str := "down" |} in
  let update := {| upd_message := true; upd_callback_query := None;
                   effective_user := Some 7; effective_chat := Some 9 |} in
  let run := safe_send_message default_retry_config transport update true [] in
  (fst run = false /\ snd run = [])
  \/ exists r : Request,
       snd run = [] ++ [r]
       /\ fst run = match transport (length ([] : list Request)) r with
                    | None => true
                    | Some _ => false
                    end.
Proof.
  apply (safe_send_message_no_fallback default_retry_config
           (fun (_ : nat) (_ : Request) =>
              Some {| exn_class := NetworkError; exn_str := "down" |})
           {| upd_message := true; upd_callback_query := None;
              effective_user := Some 7; effective_chat := Some 9 |} true []).
  cbn. lia.
Defined.

Lemma safe_edit_message_outcomes_witness :
  let transport := fun (_ : nat) (_ : Request) =>
                     Some {| exn_class := NetworkError; exn_str := "down" |} in
  let update := {| upd_message := false;
                   upd_callback_query := Some {| cq_message := Some 3 |};
                   effective_user := Some 7; effective_chat := Some 9 |} in
  safe_edit_message default_retry_config transport update true []
  = (Returned false, [EditMessageText]).
Proof.
  apply (safe_edit_message_outcomes default_retry_config
           (fun (_ : nat) (_ : Request) =>
              Some {| exn_class := NetworkError; exn_str := "down" |})
           {| upd_message := false;
              upd_callback_query := Some {| cq_message := Some 3 |};
              effective_user := Some 7; effective_chat := Some 9 |} true []).
  cbn. lia.
Defined.

End senders_instances.

(** ** The session store: cleanup, timeouts, other users *)

Section session_store_more.
Import conversation_handler.
Context {Any : Type}.
Variable clock : nat -> Z.

Abbreviation Handler := (EnhancedConversationHandler Any).
Abbreviation Progress := (UserProgress Any).

Lemma od_get_del_Some {V} (k k' : Z) (d : list (Z * V)) (v : V) :
  od_get k (od_del k' d) = Some v -> od_get k d = Some v.
Proof.
  destruct (decide (k' = k)) as [->|Hne].
  - rewrite od_get_del_eq. discriminate.
  - rewrite od_get_del_ne by exact Hne. auto.
Qed.

Lemma od_get_foldl_del_Some {V} (k : Z) (l : list Z) (d : list (Z * V)) (v : V) :
  od_get k (foldl (fun d u => od_del u d) d l) = Some v -> od_get k d = Some v.
Proof.
  revert d. induction l as [|u l IH]; intros d; cbn [foldl]; [auto|].
  intros H. apply IH in H. apply od_get_del_Some in H. exact H.
Qed.

Lemma od_del_filter {V} (k : Z) (d : list (Z * V)) :
  od_del k d = filter (fun kv => kv.1 <> k) d.
Proof.
  induction d as [|[k' v] d IH]; [reflexivity|].
  cbn [od_del]. destruct (Z.eqb_spec k' k) as [->|Hne].
  - rewrite filter_cons_False by (cbn; auto). exact IH.
  - rewrite filter_cons_True by (cbn; auto). rewrite IH. reflexivity.
Qed.

Lemma od_foldl_del_filter {V} (l : list Z) (d : list (Z * V)) :
  foldl (fun d u => od_del u d) d l = filter (fun kv => kv.1 ∉ l) d.
Proof.
  revert d. induction l as [|u l IH]; intros d; cbn [foldl].
  - induction d as [|kv d IHd]; [reflexivity|].
    rewrite filter_cons_True by apply not_elem_of_nil. rewrite <- IHd. reflexivity.
  - rewrite IH, od_del_filter. clear IH.
    induction d as [|kv d IHd]; [reflexivity|].
    destruct (decide (kv.1 = u)) as [Hu|Hu].
    + rewrite (filter_cons_False (fun kv => kv.1 <> u)) by auto.
      rewrite (filter_cons_False (fun kv => kv.1 ∉ u :: l))
        by (rewrite not_elem_of_cons; tauto).
      exact IHd.
    + rewrite (filter_cons_True (fun kv => kv.1 <> u)) by auto.
      destruct (decide (kv.1 ∈ l)) as [Hl|Hl].
      * rewrite (filter_cons_False (fun kv => kv.1 ∉ l)) by auto.
        rewrite (filter_cons_False (fun kv => kv.1 ∉ u :: l))
          by (rewrite not_elem_of_cons; tauto).
        exact IHd.
      * rewrite (filter_cons_True (fun kv => kv.1 ∉ l)) by auto.
        rewrite (filter_cons_True (fun kv => kv.1 ∉ u :: l))
          by (rewrite not_elem_of_cons; tauto).
        rewrite IHd. reflexivity.
Qed.

Lemma expired_users_cons (uid : Z) (progress : Progress) (items : list (Z * Progress))
    (self : Handler) :
  fst (expired_users clock ((uid, progress) :: items) self)
  = if clock (ticks self) - hours (ttl_hours self) <? last_activity progress
    then fst (expired_users clock items (set_ticks (S (ticks self)) self))
    else uid :: fst (expired_users clock items (set_ticks (S (ticks self)) self)).
Proof.
  cbn [expired_users]. unfold _is_data_valid, datetime_now.
  destruct (expired_users clock items (set_ticks (S (ticks self)) self)) as [rest self'].
  reflexivity.
Qed.

Lemma expired_users_keys (uid : Z) (items : list (Z * Progress)) (self : Handler) :
  uid ∈ fst (expired_users clock items self) -> uid ∈ map fst items.
Proof.
  intros Hin. apply expired_users_elem in Hin. destruct Hin as (i & progress & Hi & _).
  apply list_elem_of_fmap. exists (uid, progress). split; [reflexivity|].
  eapply list_elem_of_lookup_2. exact Hi.
Qed.

(** Dropping the keys found expired leaves the entries found valid. *)
Lemma expired_users_filter (items : list (Z * Progress)) (self : Handler) (E : list Z) :
  NoDup (map fst items) ->
  (forall k, k ∈ map fst items -> (k ∈ E <-> k ∈ fst (expired_users clock items self))) ->
  filter (fun kv => kv.1 ∉ E) items
  = valid_entries clock (ttl_hours self) (ticks self) items.
Proof.
  revert self. induction items as [|[uid progress] items IH]; intros self Hnd HE;
    [reflexivity|].
  cbn [map fst] in Hnd. apply NoDup_cons in Hnd. destruct Hnd as [Hfresh Hnd].
  pose proof (HE uid ltac:(cbn; left)) as Huid.
  rewrite expired_users_cons in Huid.
  assert (Htail : forall k, k ∈ map fst items ->
            (k ∈ E <-> k ∈ fst (expired_users clock items
                                  (set_ticks (S (ticks self)) self)))).
  { intros k Hk. rewrite (HE k) by (cbn; right; exact Hk).
    rewrite expired_users_cons.
    destruct (_ <? _); [reflexivity|].
    rewrite elem_of_cons. split; [|auto].
    intros [-> | H]; [contradiction | exact H]. }
  specialize (IH (set_ticks (S (ticks self)) self) Hnd Htail).
  cbn [ticks ttl_hours set_ticks] in IH.
  cbn [valid_entries].
  destruct (clock (ticks self) - hours (ttl_hours self) <? last_activity progress).
  - rewrite filter_cons_True.
    + rewrite IH. reflexivity.
    + cbn [fst]. intros HinE. apply Huid in HinE.
      apply expired_users_keys in HinE. contradiction.
  - rewrite filter_cons_False.
    + exact IH.
    + cbn [fst]. intros Hout. apply Hout, Huid. left.
Qed.

(** X21. On a store with distinct keys, as a [dict] has them, the two
    loops of [_cleanup_expired_data] amount to one pass that reads the
    clock once per entry, in the order of the store, and keeps the entries
    whose last activity is less than the TTL before their reading; the
    entries kept stay in their order. *)
Theorem cleanup_expired_data_keeps_valid_entries :
  forall self : Handler,
    NoDup (map fst (_user_data self)) ->
    _user_data (_cleanup_expired_data clock self)
    = valid_entries clock (ttl_hours self) (ticks self) (_user_data self)
    /\ ticks (_cleanup_expired_data clock self)
       = (ticks self + length (_user_data self))%nat.
Proof.
  intros self Hnd. unfold _cleanup_expired_data.
  pose proof (expired_users_state clock (_user_data self) self) as Hstate.
  pose proof (expired_users_filter (_user_data self) self
                (fst (expired_users clock (_user_data self) self)) Hnd) as Hfilter.
  destruct (expired_users clock (_user_data self) self) as [expired self'].
  cbn [fst snd] in *. subst self'. cbn [_user_data ticks set_user_data set_ticks].
  split; [|lia].
  rewrite od_foldl_del_filter. apply Hfilter. intros k _. reflexivity.
Qed.

Lemma save_data_only_deletes (uid : Z) (progress : Progress) (self : Handler) :
  od_get uid (_user_data (_save_data clock self)) = Some progress ->
  od_get uid (_user_data self) = Some progress.
Proof.
  unfold _save_data, _cleanup_expired_data.
  pose proof (expired_users_state clock (_user_data self) self) as Hstate.
  destruct (expired_users clock (_user_data self) self) as [expired self'].
  cbn [snd] in Hstate. subst self'. cbn [_user_data set_user_data set_ticks].
  apply od_get_foldl_del_Some.
Qed.

Lemma save_data_ticks (self : Handler) :
  (ticks self <= ticks (_save_data clock self))%nat.
Proof. destruct (save_data_state clock self) as [-> _]. lia. Qed.

(** X22. After [clear_user_data] the user has no session: nothing is
    stored for the user, [load_progress] returns [None] and
    [has_active_session] returns [False].  For a user without a session
    the call changes nothing and does not read the clock. *)
Theorem clear_user_data_removes_session :
  forall (user_id' : Z) (self : Handler),
    let self' := clear_user_data clock user_id' self in
    od_get user_id' (_user_data self') = None
    /\ load_progress clock user_id' self' = (None, self')
    /\ has_active_session clock user_id' self' = (false, self')
    /\ match od_get user_id' (_user_data self) with
       | None => self' = self
       | Some _ => (ticks self <= ticks self')%nat
       end.
Proof.
  intros user_id' self self'.
  assert (Hgone : od_get user_id' (_user_data self') = None).
  { subst self'. unfold clear_user_data.
    destruct (od_get user_id' (_user_data self)) as [progress|] eqn:Hget; [|exact Hget].
    apply save_data_keeps_absent. cbn. apply od_get_del_eq. }
  assert (Hload : load_progress clock user_id' self' = (None, self')).
  { unfold load_progress. rewrite Hgone. reflexivity. }
  repeat split; try assumption.
  - unfold has_active_session. rewrite Hload. reflexivity.
  - subst self'. unfold clear_user_data.
    destruct (od_get user_id' (_user_data self)); [|reflexivity].
    etransitivity; [|apply save_data_ticks]. cbn. lia.
Qed.

(** X23. For a stored session, [handle_timeout] reads the clock twice.
    It returns the reminder exactly when the session was idle for less
    than the TTL at the first reading and for more than the timeout at the
    second, so not when it was idle for the timeout exactly, and then the
    store is as it was.  A session idle for the TTL or longer gets no
    reminder and is gone from the store. *)
Theorem handle_timeout_reminder :
  forall (user_id' : Z) (progress : Progress) (self : Handler),
    od_get user_id' (_user_data self) = Some progress ->
    let idle n := clock n - last_activity progress in
    let run := handle_timeout clock user_id' self in
    if idle (ticks self) <? hours (ttl_hours self) then
      fst run = (if minutes (timeout_minutes self) <? idle (S (ticks self))
                 then Some timeout_reminder else None)
      /\ snd run = set_ticks (S (S (ticks self))) self
    else
      fst run = None /\ od_get user_id' (_user_data (snd run)) = None.
Proof.
  intros user_id' progress self Hget idle run. subst run idle. cbv beta.
  unfold handle_timeout, load_progress. rewrite Hget.
  unfold _is_data_valid, datetime_now. cbn [ttl_hours set_ticks].
  destruct (clock (ticks self) - last_activity progress <? hours (ttl_hours self))
    eqn:Hfresh.
  - apply Z.ltb_lt in Hfresh.
    replace (clock (ticks self) - hours (ttl_hours self) <? last_activity progress)
      with true by (symmetry; apply Z.ltb_lt; lia).
    cbn [negb ticks timeout_minutes set_ticks].
    destruct (minutes (timeout_minutes self)
              <? clock (S (ticks self)) - last_activity progress) eqn:Hidle.
    + apply Z.ltb_lt in Hidle.
      replace (last_activity progress
               <? clock (S (ticks self)) - minutes (timeout_minutes self))
        with true by (symmetry; apply Z.ltb_lt; lia).
      split; reflexivity.
    + apply Z.ltb_ge in Hidle.
      replace (last_activity progress
               <? clock (S (ticks self)) - minutes (timeout_minutes self))
        with false by (symmetry; apply Z.ltb_ge; lia).
      split; reflexivity.
  - apply Z.ltb_ge in Hfresh.
    replace (clock (ticks self) - hours (ttl_hours self) <? last_activity progress)
      with false by (symmetry; apply Z.ltb_ge; lia).
    cbn [negb fst snd]. split; [reflexivity|].
    apply save_data_keeps_absent. cbn. apply od_get_del_eq.
Qed.

(** What [save_progress] stores before its cleanup pass. *)
Lemma save_progress_stored (user_id' : Z) (state : ConversationState)
    (context_data : ContextData Any) (self : Handler) :
  exists saved : Progress,
    save_progress clock user_id' state context_data self
    = _save_data clock
        (set_user_data (od_set user_id' saved (_user_data self))
           (set_ticks (S (ticks self)) self))
    /\ last_activity saved = clock (ticks self)
    /\ current_state saved = state
    /\ start_time saved
       = match od_get user_id' (_user_data self) with
         | Some progress => start_time progress
         | None => clock (ticks self)
         end
    /\ adam_answers saved
       = default (match od_get user_id' (_user_data self) with
                  | Some progress => adam_answers progress
                  | None => []
                  end) (cd_adam_answers context_data)
    /\ ams_score saved
       = default (match od_get user_id' (_user_data self) with
                  | Some progress => ams_score progress
                  | None => 0
                  end) (cd_ams_score context_data)
    /\ ams_question_index saved
       = default (match od_get user_id' (_user_data self) with
                  | Some progress => ams_question_index progress
                  | None => 0
                  end) (cd_ams_question_index context_data)
    /\ lifestyle_answers saved
       = default (match od_get user_id' (_user_data self) with
                  | Some progress => lifestyle_answers progress
                  | None => []
                  end) (cd_lifestyle_answers context_data)
    /\ lifestyle_question_index saved
       = default (match od_get user_id' (_user_data self) with
                  | Some progress => lifestyle_question_index progress
                  | None => 0
                  end) (cd_lifestyle_question_index context_data)
    /\ user_id saved
       = match od_get user_id' (_user_data self) with
         | Some progress => user_id progress
         | None => user_id'
         end.
Proof.
  unfold save_progress, datetime_now. cbn [_user_data set_ticks].
  destruct (od_get user_id' (_user_data self)) as [progress|];
    eexists; (split; [reflexivity|]); cbn; repeat split; reflexivity.
Qed.

Lemma od_get_set_ne {V} (k k' : Z) (v : V) (d : list (Z * V)) :
  k <> k' -> od_get k' (od_set k v d) = od_get k' d.
Proof.
  intros Hne. induction d as [|[k0 v0] d IH]; cbn [od_set od_get].
  - replace (k =? k') with false by (symmetry; apply Z.eqb_neq; exact Hne). reflexivity.
  - destruct (Z.eqb_spec k0 k) as [->|Hk0]; cbn [od_get].
    + replace (k =? k') with false by (symmetry; apply Z.eqb_neq; exact Hne). reflexivity.
    + rewrite IH. reflexivity.
Qed.


(** X25. With a clock that never goes back, the three operations that
    change the store keep the times of every stored session in order: the
    session does not start after its last activity, and its last activity
    is not after the next reading of the clock. *)
Theorem session_times_stay_ordered :
  forall (user_id' : Z) (state : ConversationState) (context_data : ContextData Any)
         (self : Handler),
    (forall m n : nat, (m <= n)%nat -> clock m <= clock n) ->
    times_ordered clock self ->
    times_ordered clock (save_progress clock user_id' state context_data self)
    /\ times_ordered clock (snd (load_progress clock user_id' self))
    /\ times_ordered clock (clear_user_data clock user_id' self).
Proof.
  intros user_id' state context_data self Hmono Hok.
  assert (Hlater : forall s : Handler,
             (ticks self <= ticks s)%nat ->
             (forall uid p, od_get uid (_user_data s) = Some p ->
                            od_get uid (_user_data self) = Some p) ->
             times_ordered clock (_save_data clock s)).
  { intros s Hn Hsub uid p Hget.
    pose proof (save_data_ticks s) as Hticks.
    apply save_data_only_deletes in Hget.
    destruct (Hok uid p (Hsub uid p Hget)) as [Hstart Hlast].
    split; [exact Hstart|].
    etransitivity; [exact Hlast|]. apply Hmono. lia. }
  split; [|split].
  - destruct (save_progress_stored user_id' state context_data self)
      as (saved & -> & Hlast & _ & Hstart & _).
    intros uid p Hget.
    pose proof (save_data_ticks
                  (set_user_data (od_set user_id' saved (_user_data self))
                     (set_ticks (S (ticks self)) self))) as Hticks.
    cbn [ticks set_user_data set_ticks] in Hticks.
    apply save_data_only_deletes in Hget. cbn in Hget.
    destruct (decide (user_id' = uid)) as [->|Hne].
    + rewrite od_get_set_eq in Hget. injection Hget as <-.
      rewrite Hlast, Hstart. split; [|apply Hmono; lia].
      destruct (od_get uid (_user_data self)) as [old|] eqn:Hold; [|lia].
      destruct (Hok uid old Hold). lia.
    + rewrite od_get_set_ne in Hget by exact Hne.
      destruct (Hok uid p Hget) as [Hs Hl]. split; [exact Hs|].
      etransitivity; [exact Hl|]. apply Hmono. lia.
  - unfold load_progress.
    destruct (od_get user_id' (_user_data self)) as [p|]; [|exact Hok].
    unfold _is_data_valid, datetime_now. destruct (_ <? _); cbn [negb snd].
    + intros uid q Hget. cbn in Hget. destruct (Hok uid q Hget) as [Hs Hl].
      split; [exact Hs|]. etransitivity; [exact Hl|]. apply Hmono. cbn. lia.
    + apply Hlater; [cbn; lia|]. cbn. intros uid q. apply od_get_del_Some.
  - unfold clear_user_data.
    destruct (od_get user_id' (_user_data self)) as [p|]; [|exact Hok].
    apply Hlater; [cbn; lia|]. cbn. intros uid q. apply od_get_del_Some.
Qed.

(** X26. Resuming loses no answer.  Let a session be stored for the
    user; when the payload is the one that [restore_context_from_progress]
    makes from it and every reading of the clock during the call is less
    than the TTL after the first, [save_progress] leaves for the user the
    same session with the new state and the time of the call as its last
    activity: answers, score, indices and start time are the stored ones. *)
Theorem save_progress_after_restore :
  forall (user_id' : Z) (state : ConversationState) (progress : Progress)
         (self : Handler),
    NoDup (map fst (_user_data self)) ->
    od_get user_id' (_user_data self) = Some progress ->
    (forall n : nat,
        (ticks self < n <= ticks self + length (_user_data self) + 1)%nat ->
        clock n - clock (ticks self) < hours (ttl_hours self)) ->
    od_get user_id'
      (_user_data
         (save_progress clock user_id' state (restore_context_from_progress progress)
            self))
    = Some
        {| user_id := user_id progress;
           current_state := state;
           adam_answers := adam_answers progress;
           ams_score := ams_score progress;
           ams_question_index := ams_question_index progress;
           lifestyle_answers := lifestyle_answers progress;
           lifestyle_question_index := lifestyle_question_index progress;
           start_time := start_time progress;
           last_activity := clock (ticks self) |}.
Proof.
  intros user_id' state progress self Hnd Hget Hclock.
  unfold save_progress, datetime_now. cbn [_user_data set_ticks]. rewrite Hget.
  cbn [restore_context_from_progress cd_adam_answers cd_ams_score cd_ams_question_index
       cd_lifestyle_answers cd_lifestyle_question_index default
       user_id current_state adam_answers ams_score ams_question_index
       lifestyle_answers lifestyle_question_index start_time last_activity].
  apply save_data_keeps_valid.
  - cbn. apply od_set_NoDup, Hnd.
  - cbn. apply od_get_set_eq.
  - intros i Hi. cbn [ticks set_user_data set_ticks ttl_hours last_activity _user_data] in *.
    match type of Hi with
    | (_ < length (od_set ?k ?v ?d))%nat => pose proof (od_set_length k v d) as Hlen
    end.
    specialize (Hclock (S (ticks self) + i)%nat ltac:(lia)). lia.
Qed.

End session_store_more.

Section session_store_more_instances.
Import conversation_handler.

Lemma cleanup_expired_data_keeps_valid_entries_witness :
  let clock := fun n : nat => hours (Z.of_nat n) in
  let session (last : Z) :=
    {| user_id := 7; current_state := AMS; adam_answers := [true; false];
       ams_score := 12; ams_question_index := 3;
       lifestyle_answers := ([] : list (string * Z));
       lifestyle_question_index := 0; start_time := 0; last_activity := last |} in
  let self := {| ticks := 30; _user_data := [(7, session 0); (8, session (hours 20))];
                 ttl_hours := 24; timeout_minutes := 30;
                 cleanup_interval_minutes := 60 |} in
  _user_data (_cleanup_expired_data clock self)
  = valid_entries clock (ttl_hours self) (ticks self) (_user_data self)
  /\ ticks (_cleanup_expired_data clock self)
     = (ticks self + length (_user_data self))%nat.
Proof.
  apply (cleanup_expired_data_keeps_valid_entries (Any := Z)
           (fun n : nat => hours (Z.of_nat n))).
  cbn. apply NoDup_cons. split.
  - rewrite list_elem_of_singleton. discriminate.
  - apply NoDup_singleton.
Defined.

Lemma handle_timeout_reminder_witness :
  let clock := fun n : nat => minutes (Z.of_nat n * 20) in
  let progress :=
    {| user_id := 7; current_state := AMS; adam_answers := [true; false];
       ams_score := 12; ams_question_index := 3;
       lifestyle_answers := ([] : list (string * Z));
       lifestyle_question_index := 0; start_time := 0; last_activity := 0 |} in
  let self := {| ticks := 1; _user_data := [(7, progress)]; ttl_hours := 24;
                 timeout_minutes := 30; cleanup_interval_minutes := 60 |} in
  let idle n := clock n - last_activity progress in
  let run := handle_timeout clock 7 self in
  if idle (ticks self) <? hours (ttl_hours self) then
    fst run = (if minutes (timeout_minutes self) <? idle (S (ticks self))
               then Some timeout_reminder else None)
    /\ snd run = set_ticks (S (S (ticks self))) self
  else
    fst run = None /\ od_get 7 (_user_data (snd run)) = None.
Proof.
  apply (handle_timeout_reminder (Any := Z) (fun n : nat => minutes (Z.of_nat n * 20)) 7).
  reflexivity.
Defined.


Lemma session_times_stay_ordered_witness :
  let clock := fun n : nat => Z.of_nat n in
  let progress :=
    {| user_id := 7; current_state := AMS; adam_answers := [true; false];
       ams_score := 12; ams_question_index := 3;
       lifestyle_answers := ([] : list (string * Z));
       lifestyle_question_index := 0; start_time := 0; last_activity := 1 |} in
  let self := {| ticks := 2; _user_data := [(7, progress)]; ttl_hours := 24;
                 timeout_minutes := 30; cleanup_interval_minutes := 60 |} in
  let context_data :=
    {| cd_adam_answers := Some [true]; cd_ams_score := None;
       cd_ams_question_index := None; cd_lifestyle_answers := None;
       cd_lifestyle_question_index := None |} in
  times_ordered clock (save_progress clock 7 ADAM context_data self)
  /\ times_ordered clock (snd (load_progress clock 7 self))
  /\ times_ordered clock (clear_user_data clock 7 self).
Proof.
  apply (session_times_stay_ordered (Any := Z) (fun n : nat => Z.of_nat n) 7 ADAM).
  - intros m n Hle. lia.
  - intros uid p Hget. cbn [_user_data od_get] in Hget.
    destruct (7 =? uid); [|discriminate].
    injection Hget as <-. cbn. lia.
Defined.

Lemma save_progress_after_restore_witness :
  let clock := fun n : nat => Z.of_nat n in
  let progress :=
    {| user_id := 7; current_state := AMS; adam_answers := [true; false];
       ams_score := 12; ams_question_index := 3;
       lifestyle_answers := [("q0", 30)];
       lifestyle_question_index := 1; start_time := 0; last_activity := 1 |} in
  let self := {| ticks := 2; _user_data := [(7, progress)]; ttl_hours := 24;
                 timeout_minutes := 30; cleanup_interval_minutes := 60 |} in
  od_get 7
    (_user_data
       (save_progress clock 7 LIFESTYLE (restore_context_from_progress progress) self))
  = Some
      {| user_id := 7; current_state := LIFESTYLE; adam_answers := [true; false];
         ams_score := 12; ams_question_index := 3;
         lifestyle_answers := [("q0", 30)];
         lifestyle_question_index := 1; start_time := 0; last_activity := 2 |}.
Proof.
  apply (save_progress_after_restore (Any := Z) (fun n : nat => Z.of_nat n) 7 LIFESTYLE
           {| user_id := 7; current_state := AMS; adam_answers := [true; false];
              ams_score := 12; ams_question_index := 3;
              lifestyle_answers := [("q0", 30)];
              lifestyle_question_index := 1; start_time := 0; last_activity := 1 |}
           {| ticks := 2;
              _user_data :=
                [(7, {| user_id := 7; current_state := AMS; adam_answers := [true; false];
                        ams_score := 12; ams_question_index := 3;
                        lifestyle_answers := [("q0", 30)];
                        lifestyle_question_index := 1; start_time := 0;
                        last_activity := 1 |})];
              ttl_hours := 24; timeout_minutes := 30; cleanup_interval_minutes := 60 |}).
  - cbn. apply NoDup_singleton.
  - reflexivity.
  - intros n Hn. cbn in *. unfold hours. lia.
Defined.

End session_store_more_instances.

(** ** The answers stored by the handlers and the results *)

Section questionnaire.
Import PyStr main.




(** One text handled by [lifestyle_handler] at one of the six questions. *)
Lemma lifestyle_handler_step (user_input : string) (d : UserData) (i : Z) :
  lifestyle_question_index d = Some i ->
  0 <= i <= 5 ->
  lifestyle_handler user_input d = d
  \/ exists a : Answer,
       lifestyle_answer i user_input = Some (Some a)
       /\ lifestyle_handler user_input d
          = {| adam_answers := adam_answers d;
               ams_score := ams_score d;
               ams_question_index := ams_question_index d;
               lifestyle_answers := <["q" +:+ pretty i := a]> (lifestyle_answers d);
               lifestyle_question_index := Some (i + 1) |}.
Proof.
  intros Hi Hrange. unfold lifestyle_handler. rewrite Hi.
  change (default 0 (Some i)) with i.
  destruct (lifestyle_answer i user_input) as [[a|]|] eqn:Hanswer.
  - right. exists a. split; reflexivity.
  - exfalso. unfold lifestyle_answer in Hanswer.
    assert (Hcase : i = 0 \/ i = 1 \/ i = 2 \/ i = 3 \/ i = 4 \/ i = 5) by lia.
    destruct Hcase as [-> | [-> | [-> | [-> | [-> | ->]]]]]; cbn in Hanswer;
      try (destruct (py_int user_input) as [n|]; cbn in Hanswer;
           [destruct (_ : bool) in Hanswer|]; discriminate).
    destruct (negb _) in Hanswer; discriminate.
  - left. reflexivity.
Qed.

Lemma lifestyle_all_index_bound (inputs : list string) (d : UserData) (i : Z) :
  lifestyle_question_index d = Some i ->
  0 <= i -> i + Z.of_nat (length inputs) <= 6 ->
  exists j : Z,
    lifestyle_question_index (lifestyle_all inputs d) = Some j
    /\ i <= j <= i + Z.of_nat (length inputs).
Proof.
  revert d i. induction inputs as [|user_input inputs IH]; intros d i Hi Hlo Hhi.
  - exists i. cbn. split; [assumption | lia].
  - cbn [length] in Hhi. cbn [lifestyle_all foldl].
    fold (lifestyle_all inputs (lifestyle_handler user_input d)).
    destruct (lifestyle_handler_step user_input d i Hi ltac:(lia))
      as [-> | (a & _ & ->)].
    + destruct (IH d i Hi Hlo ltac:(lia)) as (j & Hj & Hbound).
      exists j. cbn [length]. split; [assumption | lia].
    + match goal with
      | |- context [lifestyle_all inputs ?s] =>
          destruct (IH s (i + 1) eq_refl ltac:(lia) ltac:(lia)) as (j & Hj & Hbound)
      end.
      exists j. cbn [length]. split; [assumption | lia].
Qed.

(** A run of texts that takes the index from [i] to [i] plus their number
    has had each of them accepted. *)
Lemma lifestyle_all_cons_accepted (user_input : string) (inputs : list string)
    (d : UserData) (i : Z) :
  lifestyle_question_index d = Some i ->
  0 <= i -> i + Z.of_nat (S (length inputs)) <= 6 ->
  lifestyle_question_index (lifestyle_all (user_input :: inputs) d)
  = Some (i + Z.of_nat (S (length inputs))) ->
  exists a : Answer,
    lifestyle_answer i user_input = Some (Some a)
    /\ lifestyle_all (user_input :: inputs) d
       = lifestyle_all inputs
           {| adam_answers := adam_answers d;
              ams_score := ams_score d;
              ams_question_index := ams_question_index d;
              lifestyle_answers := <["q" +:+ pretty i := a]> (lifestyle_answers d);
              lifestyle_question_index := Some (i + 1) |}.
Proof.
  intros Hi Hlo Hhi Hend. cbn [lifestyle_all foldl] in *.
  fold (lifestyle_all inputs (lifestyle_handler user_input d)) in *.
  destruct (lifestyle_handler_step user_input d i Hi ltac:(lia))
    as [Hsame | (a & Ha & Hstep)].
  - exfalso. rewrite Hsame in Hend.
    destruct (lifestyle_all_index_bound inputs d i Hi Hlo ltac:(lia)) as (j & Hj & Hbound).
    rewrite Hj in Hend. injection Hend as Hend. lia.
  - exists a. split; [exact Ha|]. rewrite Hstep. reflexivity.
Qed.

Lemma lifestyle_answer_scale (i : Z) (user_input : string) (a : Answer) :
  i = 2 \/ i = 3 ->
  lifestyle_answer i user_input = Some (Some a) ->
  exists score : Z, py_int user_input = Some score /\ a = AInt score /\ 1 <= score <= 5.
Proof.
  intros Hi. unfold lifestyle_answer.
  destruct Hi as [-> | ->]; cbn [Z.eqb Pos.eqb orb];
    (destruct (py_int user_input) as [score|]; cbn; [|discriminate]);
    (destruct ((1 <=? score) && (score <=? 5)) eqn:Hrange; cbn; [|discriminate]);
    intros [= <-]; apply andb_true_iff in Hrange; destruct Hrange as [Hlo Hhi];
    apply Z.leb_le in Hlo, Hhi; eauto.
Qed.

Lemma lifestyle_answer_times (user_input : string) (a : Answer) :
  lifestyle_answer 4 user_input = Some (Some a) ->
  exists times : Z, py_int user_input = Some times /\ a = AInt times /\ 0 <= times.
Proof.
  unfold lifestyle_answer. cbn [Z.eqb Pos.eqb orb].
  destruct (py_int user_input) as [times|]; cbn; [|discriminate].
  destruct (times <? 0) eqn:Hneg; [discriminate|].
  intros [= <-]. apply Z.ltb_ge in Hneg. eauto.
Qed.

Lemma lifestyle_answer_yes_no (user_input : string) (a : Answer) :
  lifestyle_answer 5 user_input = Some (Some a) -> exists b : bool, a = ABool b.
Proof.
  unfold lifestyle_answer. cbn [Z.eqb Pos.eqb orb].
  destruct (negb _); [discriminate|]. intros [= <-]. eauto.
Qed.

(** Without a first and a seventh ADAM answer [send_final_results]
    fails before it looks at the lifestyle answers. *)
Lemma send_final_results_short (d : UserData) :
  (length (adam_answers d) < 7)%nat ->
  send_final_results d = inl (IndexError "list index out of range").
Proof.
  intros Hshort. unfold send_final_results.
  rewrite (lookup_ge_None_2 (adam_answers d) 6) by lia.
  destruct (adam_answers d !! 0%nat); reflexivity.
Qed.

(** X28. [send_final_results] reads the lifestyle answers one key
    further than the handlers store them.  Take a questionnaire with at
    least seven ADAM answers, so that [send_final_results] gets as far as
    the lifestyle answers, in which the first five lifestyle questions
    have been answered from an empty dictionary and the sixth is answered
    by a button or by text.  Whatever the answers, [send_final_results]
    raises nothing and in its results: a high body fat is never reported,
    the alcohol and tobacco answer is never reported, too little strength
    training is always reported, poor sleep is reported exactly when the
    stress answer is 2 or less, and high stress exactly when the number of
    trainings is 4 or more; the summary lists these factors. *)
Theorem lifestyle_factors_read_shifted_keys :
  forall (t0 t1 t2 t3 t4 : string) (d : UserData),
    (7 <= length (adam_answers d))%nat ->
    lifestyle_answers d = ∅ ->
    lifestyle_question_index d = Some 0 ->
    let d5 := lifestyle_all [t0; t1; t2; t3; t4] d in
    lifestyle_question_index d5 = Some 5 ->
    exists stress times : Z,
      py_int t3 = Some stress
      /\ py_int t4 = Some times
      /\ let reported :=
           (if stress <=? 2 then ["Mala calidad del sueño"] else [])
           ++ (if 4 <=? times then ["Alto nivel de estrés"] else [])
           ++ ["Poco ejercicio de fuerza"] in
         let reports (d' : UserData) :=
           exists results : FinalResults,
             send_final_results d' = inr results
             /\ final_lifestyle_factors results = reported
             /\ lifestyle_summary results
                = "Factores a mejorar: " +:+ join ", " reported +:+ "." in
         (forall data : string, reports (lifestyle_button_handler data d5))
         /\ (forall t5 : string,
               lifestyle_question_index (lifestyle_handler t5 d5) = Some 6 ->
               reports (lifestyle_handler t5 d5)).
Proof.
  intros t0 t1 t2 t3 t4 d Hadam Hempty Hstart d5 Hend. subst d5.
  destruct (lookup_lt_is_Some_2 (adam_answers d) 0 ltac:(lia)) as [is_q1_yes Hq1].
  destruct (lookup_lt_is_Some_2 (adam_answers d) 6 ltac:(lia)) as [is_q7_yes Hq7].
  destruct (lifestyle_all_cons_accepted t0 [t1; t2; t3; t4] d 0 Hstart
              ltac:(lia) ltac:(cbn; lia) Hend) as (a0 & _ & H0).
  rewrite H0 in Hend |- *. clear H0.
  match type of Hend with
  | lifestyle_question_index (lifestyle_all _ ?s) = _ =>
      destruct (lifestyle_all_cons_accepted t1 [t2; t3; t4] s 1 eq_refl
                  ltac:(lia) ltac:(cbn; lia) Hend) as (a1 & _ & H1)
  end.
  rewrite H1 in Hend |- *. clear H1.
  match type of Hend with
  | lifestyle_question_index (lifestyle_all _ ?s) = _ =>
      destruct (lifestyle_all_cons_accepted t2 [t3; t4] s 2 eq_refl
                  ltac:(lia) ltac:(cbn; lia) Hend) as (a2 & Ha2 & H2)
  end.
  rewrite H2 in Hend |- *. clear H2.
  match type of Hend with
  | lifestyle_question_index (lifestyle_all _ ?s) = _ =>
      destruct (lifestyle_all_cons_accepted t3 [t4] s 3 eq_refl
                  ltac:(lia) ltac:(cbn; lia) Hend) as (a3 & Ha3 & H3)
  end.
  rewrite H3 in Hend |- *. clear H3.
  match type of Hend with
  | lifestyle_question_index (lifestyle_all _ ?s) = _ =>
      destruct (lifestyle_all_cons_accepted t4 [] s 4 eq_refl
                  ltac:(lia) ltac:(cbn; lia) Hend) as (a4 & Ha4 & H4)
  end.
  rewrite H4. clear H4 Hend.
  cbn [lifestyle_all foldl adam_answers ams_score ams_question_index lifestyle_answers
       lifestyle_question_index].
  rewrite Hempty.
  apply (lifestyle_answer_scale 2) in Ha2; [|auto].
  destruct Ha2 as (sleep & _ & -> & Hsleep).
  apply (lifestyle_answer_scale 3) in Ha3; [|auto].
  destruct Ha3 as (stress & Hstress & -> & Hstress_range).
  apply lifestyle_answer_times in Ha4. destruct Ha4 as (times & Htimes & -> & Htimes_pos).
  exists stress, times. split; [exact Hstress|]. split; [exact Htimes|].
  change ("q" +:+ pretty 0) with "q0". change ("q" +:+ pretty 1) with "q1".
  change ("q" +:+ pretty 2) with "q2". change ("q" +:+ pretty 3) with "q3".
  change ("q" +:+ pretty 4) with "q4".
  change (0 + 1) with 1. change (1 + 1) with 2. change (2 + 1) with 3.
  change (3 + 1) with 4. change (4 + 1) with 5.
  set (answers := <["q4" := AInt times]>
                    (<["q3" := AInt stress]>
                       (<["q2" := AInt sleep]>
                          (<["q1" := a1]> (<["q0" := a0]> (∅ : gmap string Answer)))))).
  set (reported := (if stress <=? 2 then ["Mala calidad del sueño"] else [])
                   ++ (if 4 <=? times then ["Alto nivel de estrés"] else [])
                   ++ ["Poco ejercicio de fuerza"]).
  assert (Hfactors : forall b : bool,
             lifestyle_factors (<["q5" := ABool b]> answers) = reported).
  { intros b. unfold lifestyle_factors, answers, reported.
    rewrite (lookup_insert_ne _ "q5" "q2") by discriminate.
    rewrite (lookup_insert_ne _ "q4" "q2") by discriminate.
    rewrite (lookup_insert_ne _ "q3" "q2") by discriminate.
    rewrite lookup_insert_eq.
    rewrite (lookup_insert_ne _ "q5" "q3") by discriminate.
    rewrite (lookup_insert_ne _ "q4" "q3") by discriminate.
    rewrite lookup_insert_eq.
    rewrite (lookup_insert_ne _ "q5" "q4") by discriminate.
    rewrite lookup_insert_eq.
    rewrite lookup_insert_eq.
    rewrite (lookup_insert_ne _ "q5" "q6") by discriminate.
    rewrite (lookup_insert_ne _ "q4" "q6") by discriminate.
    rewrite (lookup_insert_ne _ "q3" "q6") by discriminate.
    rewrite (lookup_insert_ne _ "q2" "q6") by discriminate.
    rewrite (lookup_insert_ne _ "q1" "q6") by discriminate.
    rewrite (lookup_insert_ne _ "q0" "q6") by discriminate.
    rewrite lookup_empty. cbn.
    replace (20 <? sleep) with false by (symmetry; apply Z.ltb_ge; lia).
    replace ((if b then 1 else 0) <? 2) with true by (destruct b; reflexivity).
    cbn. destruct (stress <=? 2), (4 <=? times); reflexivity. }
  assert (Hreports : forall (b : bool) (index : option Z),
             exists results : FinalResults,
               send_final_results
                 {| adam_answers := adam_answers d;
                    ams_score := ams_score d;
                    ams_question_index := ams_question_index d;
                    lifestyle_answers := <["q5" := ABool b]> answers;
                    lifestyle_question_index := index |} = inr results
               /\ final_lifestyle_factors results = reported
               /\ lifestyle_summary results
                  = "Factores a mejorar: " +:+ join ", " reported +:+ ".").
  { intros b index. unfold send_final_results.
    cbn [adam_answers ams_score lifestyle_answers]. rewrite Hq1, Hq7, Hfactors.
    eexists. split; [reflexivity|].
    cbn [final_lifestyle_factors lifestyle_summary]. split; [reflexivity|].
    unfold reported. destruct (stress <=? 2), (4 <=? times); reflexivity. }
  cbv zeta. split.
  - intros data. unfold lifestyle_button_handler.
    cbn [default adam_answers ams_score ams_question_index lifestyle_question_index
         lifestyle_answers].
    change ("q" +:+ pretty 5) with "q5". apply Hreports.
  - intros t5 Ht5.
    match type of Ht5 with
    | lifestyle_question_index (lifestyle_handler _ ?s) = _ =>
        destruct (lifestyle_handler_step t5 s 5 eq_refl ltac:(lia))
          as [Hsame | (a5 & Ha5 & Hstep)]
    end.
    + rewrite Hsame in Ht5. discriminate.
    + rewrite Hstep.
      cbn [adam_answers ams_score ams_question_index lifestyle_question_index
           lifestyle_answers].
      apply lifestyle_answer_yes_no in Ha5. destruct Ha5 as [b ->].
      change ("q" +:+ pretty 5) with "q5". apply Hreports.
Qed.

Lemma lifestyle_factors_read_shifted_keys_witness :
  let d :=
    ams_all (replicate 17 "3")
      (adam_all ["adam_no"; "adam_no"; "adam_yes"; "adam_no"; "adam_no";
                 "adam_no"; "adam_no"; "adam_no"; "adam_no"; "adam_no"] start_yes) in
  let d5 := lifestyle_all ["30"; "35"; "1"; "5"; "0"] d in
  exists stress times : Z,
    py_int "5" = Some stress
    /\ py_int "0" = Some times
    /\ let reported :=
         (if stress <=? 2 then ["Mala calidad del sueño"] else [])
         ++ (if 4 <=? times then ["Alto nivel de estrés"] else [])
         ++ ["Poco ejercicio de fuerza"] in
       let reports (d' : UserData) :=
         exists results : FinalResults,
           send_final_results d' = inr results
           /\ final_lifestyle_factors results = reported
           /\ lifestyle_summary results
              = "Factores a mejorar: " +:+ join ", " reported +:+ "." in
       (forall data : string, reports (lifestyle_button_handler data d5))
       /\ (forall t5 : string,
             lifestyle_question_index (lifestyle_handler t5 d5) = Some 6 ->
             reports (lifestyle_handler t5 d5)).
Proof.
  apply (lifestyle_factors_read_shifted_keys "30" "35" "1" "5" "0"
           (ams_all (replicate 17 "3")
              (adam_all ["adam_no"; "adam_no"; "adam_yes"; "adam_no"; "adam_no";
                         "adam_no"; "adam_no"; "adam_no"; "adam_no"; "adam_no"]
                 start_yes))).
  - vm_compute. lia.
  - vm_compute. reflexivity.
  - vm_compute. reflexivity.
  - vm_compute. reflexivity.
Defined.

End questionnaire.
